(** * The glTF tile-content decoder (core/frontend/src/tile/GltfReader.ts)

    A shallow embedding of the parts of [GltfReader.ts] that decide how a
    glTF asset is accepted, traversed and turned into graphics, with the
    properties proved about them.

    Conventions of the embedding.
    - A JSON number that the code uses as an index, an offset, a stride, a
      count or a component-type tag is an integer ([Z], or [N] for an
      identifier and a count).  A colour channel, which the code multiplies
      and truncates to a byte, is an IEEE double ([number]); a coordinate,
      which only passes through the reader, is a rational ([Q]).
    - [undefined] is [None].
    - A thrown exception is the [Throw] constructor of [Result].  A call
      that does not return is [OutOfFuel] of [Fueled]: a loop of the source
      that never ends, or a recursion that is followed with less fuel than
      it needs.  The node recursions that make graphics and polyfaces have
      no such bound in the source: what ends them on a cyclic graph is the
      call stack of the engine, so their bound is the depth the stack
      allows, and exceeding it is the [RangeError] the engine throws.
    - What lives in other packages (the renderer, the geometry library, the
      draco decoder) is a field of the record [Collaborators] or a variable
      of a section: the theorems hold for every implementation of them. *)

From Stdlib Require Import ZArith NArith List String Ascii Bool Lia QArith.
From Stdlib Require Import Qround DecimalString DecimalN Relation_Operators Permutation.
From Stdlib Require Import Operators_Properties.
From Stdlib Require Import SpecFloat.
Import ListNotations.

Open Scope string_scope.
Open Scope list_scope.
Open Scope Z_scope.

(** ** Identifiers and dictionaries *)

(** [GltfId = number | string].  glTF 2 refers to an entity by its index in
    an array, glTF 1 by its name in an object. *)
Inductive GltfId : Type :=
| IdNum (n : N)
| IdStr (s : string).

Definition GltfId_eqb (a b : GltfId) : bool :=
  match a, b with
  | IdNum n, IdNum m => N.eqb n m
  | IdStr s, IdStr t => String.eqb s t
  | _, _ => false
  end.

(** The property key under which JavaScript reads [dict[id]]: a string is
    its own key, a number is written in decimal. *)
Definition propertyKey (id : GltfId) : string :=
  match id with
  | IdNum n => NilEmpty.string_of_uint (N.to_uint n)
  | IdStr s => s
  end.

(** A JSON object that the code reads under names it spells out itself
    ([json.asset], [attributes.POSITION], [json["indices"]]): its members,
    in the order of the text.  No prototype has a property of such a name,
    so the members are all that a read can find. *)
Definition JsonObject (T : Type) : Type := list (string * T).

Fixpoint dict_get {T : Type} (d : JsonObject T) (k : string) : option T :=
  match d with
  | [] => None
  | (k', v) :: d' => if String.eqb k k' then Some v else dict_get d' k
  end.

(** [GltfDictionary<T>]: a JSON object or array of the document, read as
    [dict[id]] under an id that the document supplies.  Such a read finds
    the members of the dictionary ([entries], in the order in which
    [Object.keys] lists them), and it finds what the dictionary inherits:
    under the names in [inheritedNames] (the properties of
    [Object.prototype], and for an array those of [Array.prototype] and
    [length] when it is not [0]) the read answers a function, an object or
    a number that is truthy and has none of the properties of a [T]. *)
Record GltfDictionary (T : Type) : Type := mkDictionary {
  entries : JsonObject T;
  inheritedNames : list string
}.

Arguments mkDictionary {T} _ _.
Arguments entries {T} _.
Arguments inheritedNames {T} _.

(** What a value without any of the properties of a [T] is read as: every
    property of it is [undefined]. *)
Class Blank (T : Type) : Type := blank : T.

(** [dict[key]] for a dictionary of the document. *)
Definition lookup {T : Type} `{Blank T} (d : GltfDictionary T) (key : string) : option T :=
  match dict_get (entries d) key with
  | Some v => Some v
  | None => if existsb (String.eqb key) (inheritedNames d) then Some blank else None
  end.

(** [dict[id]] *)
Definition dict_at {T : Type} `{Blank T} (d : GltfDictionary T) (id : GltfId) : option T :=
  lookup d (propertyKey id).

(** [Object.keys(dict)]: the members alone, always as strings. *)
Definition Object_keys {T : Type} (d : GltfDictionary T) : list GltfId :=
  map (fun kv => IdStr (fst kv)) (entries d).

(** The properties every object inherits from [Object.prototype]. *)
Definition objectPrototypeNames : list string :=
  ["constructor"; "__proto__"; "hasOwnProperty"; "isPrototypeOf";
   "propertyIsEnumerable"; "toLocaleString"; "toString"; "valueOf";
   "__defineGetter__"; "__defineSetter__"; "__lookupGetter__"; "__lookupSetter__"].

(** The dictionary that a JSON object with the given members is. *)
Definition jsonObject {T : Type} (members : JsonObject T) : GltfDictionary T :=
  mkDictionary members objectPrototypeNames.

(** [const emptyDict = { };] *)
Definition emptyDict {T : Type} : GltfDictionary T := jsonObject [].

(** A JavaScript [Set<GltfId>]: membership is by value and by type, so the
    number [1] and the string ["1"] are two members. *)
Definition IdSet : Type := list GltfId.

Definition Set_has (s : IdSet) (id : GltfId) : bool := existsb (GltfId_eqb id) s.

Definition Set_add (s : IdSet) (id : GltfId) : IdSet := id :: s.

(** ** Nodes *)

(** Modelled from the spec: GltfSchema.ts is not under src.  The properties
    of a [GltfNode] that the reader looks at; [meshIds] is the list
    [getGltfNodeMeshIds(node)]: the node's [meshes] or its single [mesh]. *)
Record GltfNode : Type := mkNode {
  children : option (list GltfId);
  meshIds : list GltfId;
  matrix : option (list Q);
  rotation : option (list Q);
  scale : option (list Q);
  translation : option (list Q)
}.

#[export] Instance Blank_GltfNode : Blank GltfNode := mkNode None [] None None None None.

(** ** Traversal of the node graph *)

(** How the generator [traverseNodes] ends: it is exhausted, or it throws
    [Error("Cycle detected while traversing glTF nodes")] at [id].  Both
    carry the set [traversed] as the generator left it. *)
Inductive TraverseEnd : Type :=
| Exhausted (traversed : IdSet)
| CycleDetected (id : GltfId) (traversed : IdSet)
| TraverseOutOfFuel.

Section TraverseLoop.

Variable nodes : GltfDictionary GltfNode.

(** The recursive call [traverseNodes(node.children, nodes, traversed)]. *)
Variable recurse : list GltfId -> IdSet -> list GltfNode * TraverseEnd.

(** The [for (const id of ids)] loop of [traverseNodes]; the first component
    lists the nodes yielded, in order.  The one set [traversed] is handed
    from each step to the next and into the recursive call: nothing is ever
    removed from it. *)
Fixpoint traverseLoop (ids : list GltfId) (traversed : IdSet)
  : list GltfNode * TraverseEnd :=
  match ids with
  | [] => ([], Exhausted traversed)
  | id :: rest =>
      if Set_has traversed id then ([], CycleDetected id traversed)
      else
        match dict_at nodes id with
        | None => traverseLoop rest traversed
        | Some node =>
            let traversed1 := Set_add traversed id in
            match children node with
            | None =>
                let (ys, e) := traverseLoop rest traversed1 in (node :: ys, e)
            | Some ch =>
                match recurse ch traversed1 with
                | (ys1, Exhausted traversed2) =>
                    let (ys2, e) := traverseLoop rest traversed2 in
                    (node :: ys1 ++ ys2, e)
                | (ys1, e) => (node :: ys1, e)
                end
            end
        end
  end.

End TraverseLoop.

(** [function* traverseNodes(ids, nodes, traversed)]; [fuel] bounds the depth
    of the recursion into [children]. *)
Fixpoint traverseNodes (fuel : nat) (ids : list GltfId)
    (nodes : GltfDictionary GltfNode) (traversed : IdSet)
  : list GltfNode * TraverseEnd :=
  match fuel with
  | O => ([], TraverseOutOfFuel)
  | S fuel' =>
      traverseLoop nodes (fun ch t => traverseNodes fuel' ch nodes t) ids traversed
  end.

(** Depth that no traversal of [nodes] exceeds: a level of the recursion
    adds to [traversed] an id under which a read of [nodes] finds something,
    and at most two ids (a number and a string) read the same property. *)
Definition traverseFuel (nodes : GltfDictionary GltfNode) : nat :=
  S (2 * (List.length (entries nodes) + List.length (inheritedNames nodes)))%nat.

(** The traversal as the specification words it: the visited set is the
    active root-to-leaf path, so an id leaves the set when the walk returns
    from its node. *)
Section PathScopedLoop.

Variable nodes : GltfDictionary GltfNode.
Variable recurse : list GltfId -> IdSet -> list GltfNode * TraverseEnd.

Fixpoint pathScopedLoop (ids : list GltfId) (path : IdSet)
  : list GltfNode * TraverseEnd :=
  match ids with
  | [] => ([], Exhausted path)
  | id :: rest =>
      if Set_has path id then ([], CycleDetected id path)
      else
        match dict_at nodes id with
        | None => pathScopedLoop rest path
        | Some node =>
            match children node with
            | None =>
                let (ys, e) := pathScopedLoop rest path in (node :: ys, e)
            | Some ch =>
                match recurse ch (Set_add path id) with
                | (ys1, Exhausted _) =>
                    let (ys2, e) := pathScopedLoop rest path in
                    (node :: ys1 ++ ys2, e)
                | (ys1, e) => (node :: ys1, e)
                end
            end
        end
  end.

End PathScopedLoop.

(** Specification-side traversal: a cycle is reported at the id that is
    met again on the active path. *)
Fixpoint traverseNodesPathScoped (fuel : nat) (ids : list GltfId)
    (nodes : GltfDictionary GltfNode) (path : IdSet)
  : list GltfNode * TraverseEnd :=
  match fuel with
  | O => ([], TraverseOutOfFuel)
  | S fuel' =>
      pathScopedLoop nodes
        (fun ch p => traverseNodesPathScoped fuel' ch nodes p) ids path
  end.

(** ** Exceptions and results *)

Inductive Exception : Type :=
| CycleError    (* Error("Cycle detected while traversing glTF nodes") *)
| TypeError     (* a property read from undefined or null *)
| RangeError    (* a typed array built at a misaligned offset, a read past
                   the end of a [DataView], the call stack exhausted *)
| SyntaxError   (* JSON.parse *).

(** What a call comes to: a value or a thrown exception. *)
Inductive Result (A : Type) : Type :=
| Return (a : A)
| Throw (e : Exception).

Arguments Return {A} a.
Arguments Throw {A} e.

Definition bind {A B : Type} (c : Result A) (k : A -> Result B) : Result B :=
  match c with
  | Return a => k a
  | Throw e => Throw e
  end.

Notation "x <- c ;; k" := (bind c (fun x => k))
  (at level 61, c at next level, right associativity).
Notation "' pat <- c ;; k" := (bind c (fun x => match x with pat => k end))
  (at level 61, pat pattern, c at next level, right associativity).

(** [try { body } catch (e) { return handler }] *)
Definition tryCatch {A : Type} (body : Result A) (handler : A) : Result A :=
  match body with
  | Throw _ => Return handler
  | r => r
  end.

(** A [for ... of] loop that threads a state and stops at an exception. *)
Fixpoint forEach {A S : Type} (step : S -> A -> Result S) (l : list A) (s : S)
  : Result S :=
  match l with
  | [] => Return s
  | a :: l' => s' <- step s a ;; forEach step l' s'
  end.

(** What a call that need not return comes to: it ran to a result, or it
    has not returned ([OutOfFuel]).  A recursion that is followed with fuel
    has not returned when the fuel was not enough; a call that reaches a
    loop which never ends does not return at all. *)
Inductive Fueled (A : Type) : Type :=
| Ran (r : Result A)
| OutOfFuel.

Arguments Ran {A} r.
Arguments OutOfFuel {A}.

Definition bindFueled {A B : Type} (c : Fueled A) (k : A -> Fueled B) : Fueled B :=
  match c with
  | Ran (Return a) => k a
  | Ran (Throw e) => Ran (Throw e)
  | OutOfFuel => OutOfFuel
  end.

Notation "x <~ c ;; k" := (bindFueled c (fun x => k))
  (at level 61, c at next level, right associativity).
Notation "' pat <~ c ;; k" := (bindFueled c (fun x => match x with pat => k end))
  (at level 61, pat pattern, c at next level, right associativity).

Fixpoint forEachFueled {A S : Type} (step : S -> A -> Fueled S) (l : list A) (s : S)
  : Fueled S :=
  match l with
  | [] => Ran (Return s)
  | a :: l' => s' <~ step s a ;; forEachFueled step l' s'
  end.

(** ** Typed arrays *)

(** A [Uint8Array]: the bytes it shows and the offset of the first of them
    in the underlying [ArrayBuffer]. *)
Record Uint8Array : Type := mkUint8Array {
  byteOffset : Z;
  octets : list Z
}.

Definition byteLength (a : Uint8Array) : Z := Z.of_nat (List.length (octets a)).

(** A relative index as [subarray] and [slice] read it: a negative one
    counts from the end, and the result is clamped to the array. *)
Definition relativeIndex (len rel : Z) : Z :=
  if rel <? 0 then Z.max (len + rel) 0 else Z.min rel len.

Definition bytesBetween (a : Uint8Array) (first last : Z) : list Z :=
  firstn (Z.to_nat (last - first)) (skipn (Z.to_nat first) (octets a)).

(** [a.subarray(begin, end)]: a view on the same buffer. *)
Definition subarray (a : Uint8Array) (begin_ end_ : Z) : Uint8Array :=
  let first := relativeIndex (byteLength a) begin_ in
  let last := relativeIndex (byteLength a) end_ in
  {| byteOffset := byteOffset a + first; octets := bytesBetween a first last |}.

(** [a.slice(begin, end)]: a copy in a buffer of its own. *)
Definition slice (a : Uint8Array) (begin_ end_ : Z) : Uint8Array :=
  let first := relativeIndex (byteLength a) begin_ in
  let last := relativeIndex (byteLength a) end_ in
  {| byteOffset := 0; octets := bytesBetween a first last |}.

(** Little-endian elements of two and of four bytes; bytes left over at the
    end make no element. *)
Fixpoint le16 (bs : list Z) : list Z :=
  match bs with
  | b0 :: b1 :: rest => (b0 + 256 * b1) :: le16 rest
  | _ => []
  end.

Fixpoint le32 (bs : list Z) : list Z :=
  match bs with
  | b0 :: b1 :: b2 :: b3 :: rest =>
      (b0 + 256 * b1 + 65536 * b2 + 16777216 * b3) :: le32 rest
  | _ => []
  end.

(** [GltfDataBuffer = Uint8Array | Uint16Array | Uint32Array | Float32Array],
    by its elements; an element of a [Float32Array] is kept as the 32 bits
    that encode it. *)
Inductive GltfDataBuffer : Type :=
| Uint8Elements (elements : list Z)
| Uint16Elements (elements : list Z)
| Uint32Elements (elements : list Z)
| Float32Elements (elements : list Z).

Definition elementsOf (b : GltfDataBuffer) : list Z :=
  match b with
  | Uint8Elements l | Uint16Elements l | Uint32Elements l | Float32Elements l => l
  end.

(** [new XArray(bytes.buffer, bytes.byteOffset, bytes.byteLength / size)]:
    a [RangeError] unless the offset is a multiple of the element size. *)
Definition typedArrayOver (size : Z) (decode : list Z -> list Z)
    (wrap : list Z -> GltfDataBuffer) (a : Uint8Array)
  : Result (option GltfDataBuffer) :=
  if Z.rem (byteOffset a) size =? 0
  then Return (Some (wrap (decode (octets a))))
  else Throw RangeError.

(** ** Component types *)

(** Modelled from the spec: [enum GltfDataType] of GltfSchema.ts, which is
    not under src; its members are the WebGL constants.  An accessor's
    [componentType] is a JSON number cast to the enum, so a component type
    is any integer. *)
Module GltfDataType.
Definition t : Type := Z.
Definition SignedByte : t := 5120.
Definition UnsignedByte : t := 5121.
Definition SignedShort : t := 5122.
Definition UnsignedShort : t := 5123.
Definition UInt32 : t := 5125.
Definition Float : t := 5126.
Definition Sampler2d : t := 35678.
End GltfDataType.

(** ** [class GltfBufferData] *)

Module GltfBufferData.

Record t : Type := mk {
  buffer : GltfDataBuffer;
  count : N
}.

(** [private static createDataBuffer(bytes, actualType)] *)
Definition createDataBuffer (bytes : Uint8Array) (actualType : GltfDataType.t)
  : Result (option GltfDataBuffer) :=
  if actualType =? GltfDataType.UnsignedByte then
    Return (Some (Uint8Elements (octets bytes)))
  else if actualType =? GltfDataType.UnsignedShort then
    typedArrayOver 2 le16 Uint16Elements bytes
  else if actualType =? GltfDataType.UInt32 then
    typedArrayOver 4 le32 Uint32Elements bytes
  else if actualType =? GltfDataType.Float then
    typedArrayOver 4 le32 Float32Elements bytes
  else Return None.

(** The [switch (expectedType)] of [create], entered when the two types
    differ: [true] where it returns [undefined]. *)
Definition refusesMismatch (actualType expectedType : GltfDataType.t) : bool :=
  if expectedType =? GltfDataType.Float then true
  else if expectedType =? GltfDataType.UnsignedByte then true
  else if expectedType =? GltfDataType.UnsignedShort then
    negb (GltfDataType.UnsignedByte =? actualType)
  else if expectedType =? GltfDataType.UInt32 then
    negb (GltfDataType.UnsignedByte =? actualType)
    && negb (GltfDataType.UnsignedShort =? actualType)
  else false.

(** [public static create(bytes, actualType, expectedType, count)] *)
Definition create (bytes : Uint8Array) (actualType expectedType : GltfDataType.t)
    (count : N) : Result (option t) :=
  if negb (expectedType =? actualType) && refusesMismatch actualType expectedType
  then Return None
  else
    data <- createDataBuffer bytes actualType ;;
    Return (option_map (fun d => mk d count) data).

End GltfBufferData.

(** ** The document (GltfSchema.ts)

    Modelled from the spec: GltfSchema.ts is not under src.  Its interfaces
    are given the properties that GltfReader.ts reads of them, with the
    types it reads them at.  A property the JSON may leave out is an
    [option]. *)

(** [accessor.extensions.WEB3D_quantized_attributes] *)
Record QuantizedAttributes : Type := mkQuantizedAttributes {
  decodedMin : option (list Q);
  decodedMax : option (list Q)
}.

Module GltfAccessor.
Record t : Type := mk {
  bufferView : option GltfId;
  byteOffset : option Z;
  componentType : GltfDataType.t;
  count : N;
  type : string;                       (* "SCALAR", "VEC2", "VEC3", ... *)
  WEB3D_quantized_attributes : option QuantizedAttributes
}.
End GltfAccessor.

(** A value without properties read as an accessor has no [bufferView], and
    the reader looks at no other property of an accessor before it has
    found the buffer view. *)
#[export] Instance Blank_GltfAccessor : Blank GltfAccessor.t :=
  GltfAccessor.mk None None 0 0 "" None.

Module GltfBufferViewProps.
Record t : Type := mk {
  buffer : option GltfId;
  byteLength : option Z;
  byteOffset : option Z;
  byteStride : option Z
}.
End GltfBufferViewProps.

#[export] Instance Blank_GltfBufferViewProps : Blank GltfBufferViewProps.t :=
  GltfBufferViewProps.mk None None None None.

(** [GltfBuffer & { resolvedBuffer?: Uint8Array }] *)
Module GltfBuffer.
Record t : Type := mk {
  uri : option string;
  resolvedBuffer : option Uint8Array
}.
End GltfBuffer.

#[export] Instance Blank_GltfBuffer : Blank GltfBuffer.t := GltfBuffer.mk None None.

(** A JavaScript number: an IEEE 754 double.  The numbers of a colour are
    multiplied and truncated by the reader, so their rounding counts. *)
Definition number : Type := spec_float.

Module Number.
Definition ofZ (z : Z) : number := binary_normalize 53 1024 z 0 false.
Definition mul : number -> number -> number := SFmul 53 1024.
Definition sub : number -> number -> number := SFsub 53 1024.
Definition NaN : number := S754_nan.
End Number.

(** [Gltf1Material.values]: the technique's uniform values. *)
Module Gltf1Material.
Record Values : Type := mkValues {
  texStep : option (list Q);
  color : option (list number);
  tex : option GltfId
}.
End Gltf1Material.

(** The objects a [Gltf2Material] holds. *)
Module Gltf2Material.
Record TextureInfo : Type := mkTextureInfo {
  index : option GltfId;
  texCoord : option N
}.
Record PbrMetallicRoughness : Type := mkPbr {
  baseColorFactor : option (list number);
  baseColorTexture : option TextureInfo
}.
(** [extensions.KHR_techniques_webgl.values] *)
Record TechniqueValues : Type := mkTechniqueValues {
  u_color : option (list number);
  u_texStep : option (list Q)
}.
Record Extensions : Type := mkExtensions {
  KHR_techniques_webgl_values : option TechniqueValues;
  KHR_materials_unlit : bool          (* the extension object is there *)
}.
End Gltf2Material.

(** Modelled from the spec: [type GltfMaterial = Gltf1Material |
    Gltf2Material] of GltfSchema.ts, which is not under src.  A material is
    an object of the JSON text, and nothing keeps such an object from
    having properties of both interfaces: the record has the properties
    the reader looks at of the one ([diffuse], [technique], [values]) and
    of the other.  The type guard [isGltf1Material] answers whether
    [technique] or [values] is there; after it the reader looks at the
    properties of the interface the guard has named, as its types say. *)
Record GltfMaterial : Type := mkMaterial {
  diffuse : option string;
  technique : option GltfId;
  values : option Gltf1Material.Values;
  pbrMetallicRoughness : option Gltf2Material.PbrMetallicRoughness;
  alphaMode : option string;
  emissiveTexture : option Gltf2Material.TextureInfo;
  normalTexture : option Gltf2Material.TextureInfo;
  extensions : option Gltf2Material.Extensions
}.

(** The material [{ }] a primitive without a material name is read with. *)
Definition emptyMaterial : GltfMaterial :=
  mkMaterial None None None None None None None None.

#[export] Instance Blank_GltfMaterial : Blank GltfMaterial := emptyMaterial.

Definition isGltf1Material (material : GltfMaterial) : bool :=
  match technique material, values material with
  | None, None => false
  | _, _ => true
  end.

(** Modelled from the spec: [enum GltfTechniqueState] of GltfSchema.ts;
    [Blend] is WebGL's [BLEND]. *)
Module GltfTechniqueState.
Definition Blend : Z := 3042.
End GltfTechniqueState.

(** A glTF 1 technique: [states.enable]. *)
Record GltfTechnique : Type := mkTechnique {
  states_enable : option (list Z)
}.

#[export] Instance Blank_GltfTechnique : Blank GltfTechnique := mkTechnique None.

(** Modelled from the spec: [enum GltfMeshMode] of GltfSchema.ts, the
    primitive modes of the format. *)
Module GltfMeshMode.
Definition Points : Z := 0.
Definition Lines : Z := 1.
Definition LineStrip : Z := 3.
Definition Triangles : Z := 4.
Definition TriangleStrip : Z := 5.
End GltfMeshMode.

(** [primitive.extensions.KHR_draco_mesh_compression].  The reader keeps
    the decoded meshes in a [Map] keyed by this object: [identity] stands
    for the object's identity. *)
Record DracoMeshCompression : Type := mkDracoMeshCompression {
  identity : nat;
  draco_bufferView : GltfId
}.

(** A decoded [DracoMesh] (loaders.gl): its topology, its index list and the
    flat value array of each attribute. *)
Record DracoMesh : Type := mkDracoMesh {
  topology : string;
  draco_indices : option (list Z);
  draco_POSITION : option (list Q);
  draco_NORMAL : option (list Q);
  draco_TEXCOORD_0 : option (list Q);
  draco_BATCHID : option (list Z);
  draco_boundingBox : option (list (list Q))
}.

Module GltfMeshPrimitive.
Record t : Type := mk {
  attributes : JsonObject GltfId;
  indices : option GltfId;
  material : option GltfId;
  mode : option Z;
  KHR_draco_mesh_compression : option DracoMeshCompression;
  CESIUM_primitive_outline : option (JsonObject GltfId)
}.
End GltfMeshPrimitive.

Record GltfMesh : Type := mkMesh {
  primitives : option (list GltfMeshPrimitive.t)
}.

#[export] Instance Blank_GltfMesh : Blank GltfMesh := mkMesh None.

Record GltfScene : Type := mkScene {
  scene_nodes : option (list GltfId)
}.

#[export] Instance Blank_GltfScene : Blank GltfScene := mkScene None.

(** [GltfDocument], as [GltfReaderProps.create] fills it in: [scene] is
    the string [JsonUtils.asString] has made of the property, [""] when the
    document has none. *)
Module GltfDocument.
Record t : Type := mk {
  scene : string;
  scenes : option (GltfDictionary GltfScene);
  nodes : option (GltfDictionary GltfNode);
  meshes : option (GltfDictionary GltfMesh);
  accessors : option (GltfDictionary GltfAccessor.t);
  bufferViews : option (GltfDictionary GltfBufferViewProps.t);
  buffers : option (GltfDictionary GltfBuffer.t);
  materials : option (GltfDictionary GltfMaterial);
  techniques : option (GltfDictionary GltfTechnique);
  CESIUM_RTC_center : option (list Q)
}.
End GltfDocument.

(** [dict ?? emptyDict] *)
Definition orEmptyDict {T : Type} (d : option (GltfDictionary T)) : GltfDictionary T :=
  match d with
  | Some d => d
  | None => emptyDict
  end.

(** [JsonUtils.asString(id)] for an id or [undefined]: the id as a string,
    [""] by default. *)
Definition asString (v : option GltfId) : string :=
  match v with
  | Some id => propertyKey id
  | None => ""
  end.

(** A number or [undefined] in a condition: [undefined] and [0] are
    falsy. *)
Definition truthyZ (v : option Z) : bool :=
  match v with
  | Some z => negb (z =? 0)
  | None => false
  end.

Definition truthyN (v : option N) : bool :=
  match v with
  | Some n => negb (n =? 0)%N
  | None => false
  end.

(** ** Colours *)

(** Modelled from the spec: [ColorDef] (core-common) is not under src.  A
    colour is its red, green and blue bytes and a transparency byte, [0]
    being fully opaque; [ColorDef.from] stores each number it is given as
    a byte, the way an assignment to a [Uint8Array] element does, and
    [withTransparency] replaces the transparency byte alone. *)
Module ColorDef.

Record t : Type := mk {
  red : Z;
  green : Z;
  blue : Z;
  transparency : Z
}.

Definition white : t := mk 255 255 255 0.

(** A number stored in a byte: truncated towards zero, then reduced modulo
    256; [NaN] and the infinities are stored as [0]. *)
Definition toUint8 (v : number) : Z :=
  match v with
  | S754_finite negative m e =>
      let magnitude := if 0 <=? e then Zpos m * 2 ^ e else Zpos m / 2 ^ (- e) in
      (if negative then - magnitude else magnitude) mod 256
  | _ => 0
  end.

Definition from (r g b tr : number) : t :=
  mk (toUint8 r) (toUint8 g) (toUint8 b) (toUint8 tr).

Definition withTransparency (c : t) (tr : Z) : t :=
  mk (red c) (green c) (blue c) (tr mod 256).

Definition isOpaque (c : t) : bool := transparency c =? 0.

End ColorDef.

(** [values[i]] as an operand of [*] or [-]: [undefined] counts as [NaN]. *)
Definition operand (values : list number) (i : nat) : number :=
  match nth_error values i with
  | Some v => v
  | None => Number.NaN
  end.

(** [function colorFromJson(values)] *)
Definition colorFromJson (values : list number) : ColorDef.t :=
  ColorDef.from
    (Number.mul (operand values 0) (Number.ofZ 255))
    (Number.mul (operand values 1) (Number.ofZ 255))
    (Number.mul (operand values 2) (Number.ofZ 255))
    (Number.mul (Number.sub (Number.ofZ 1) (operand values 3)) (Number.ofZ 255)).

(** [material.values?.color], [material.extensions?.KHR_techniques_webgl
    ?.values?.u_color] and [material.pbrMetallicRoughness?.baseColorFactor]:
    the three colours a material can give. *)
Definition legacyColor (material : GltfMaterial) : option (list number) :=
  match values material with
  | Some v => Gltf1Material.color v
  | None => None
  end.

Definition techniqueColor (material : GltfMaterial) : option (list number) :=
  match extensions material with
  | Some e =>
      match Gltf2Material.KHR_techniques_webgl_values e with
      | Some v => Gltf2Material.u_color v
      | None => None
      end
  | None => None
  end.

Definition pbrColor (material : GltfMaterial) : option (list number) :=
  match pbrMetallicRoughness material with
  | Some pbr => Gltf2Material.baseColorFactor pbr
  | None => None
  end.

(** [function colorFromMaterial(material, isTransparent)] *)
Definition colorFromMaterial (material : GltfMaterial) (isTransparent : bool)
  : ColorDef.t :=
  let color :=
    if isGltf1Material material then
      match legacyColor material with
      | Some c => colorFromJson c
      | None => ColorDef.white
      end
    else
      match techniqueColor material with
      | Some c => colorFromJson c
      | None =>
          match pbrColor material with
          | Some c => colorFromJson c
          | None => ColorDef.white
          end
      end in
  (* SPEC: Opaque materials ignore any alpha channel. *)
  if negb isTransparent then ColorDef.withTransparency color 0 else color.

(** [private isMaterialTransparent(material)] *)
Definition isMaterialTransparent (glTF : GltfDocument.t) (material : GltfMaterial)
  : bool :=
  if isGltf1Material material then
    match GltfDocument.techniques glTF, technique material with
    | Some techniques, Some technique =>
        match dict_at techniques technique with
        | Some t =>
            match states_enable t with
            | Some enable => existsb (Z.eqb GltfTechniqueState.Blend) enable
            | None => false
            end
        | None => false
        end
    | _, _ => false
    end
  else
    (* Default: OPAQUE.  MASK is treated as opaque. *)
    match alphaMode material with
    | Some a => String.eqb "BLEND" a
    | None => false
    end.

(** The precedence as the specification words it: the colour of the first
    source that is there, in the order legacy colour, uniform colour of the
    techniques extension, base colour factor; white when there is none. *)
Fixpoint firstPresent {A : Type} (sources : list (option A)) : option A :=
  match sources with
  | [] => None
  | Some a :: _ => Some a
  | None :: rest => firstPresent rest
  end.

Definition colorByPrecedence (material : GltfMaterial) : ColorDef.t :=
  match firstPresent [legacyColor material; techniqueColor material; pbrColor material] with
  | Some c => colorFromJson c
  | None => ColorDef.white
  end.

(** ** [class GltfBufferView] *)

Module GltfBufferView.

Record t : Type := mk {
  data : Uint8Array;
  count : N;
  type : GltfDataType.t;
  accessor : GltfAccessor.t;
  stride : Q                           (* in elements, not bytes *)
}.

(** [get byteLength()] *)
Definition byteLength (view : t) : Z := Z.of_nat (List.length (octets (data view))).

(** [toBufferData(desiredType)] *)
Definition toBufferData (view : t) (desiredType : GltfDataType.t)
  : Result (option GltfBufferData.t) :=
  GltfBufferData.create (data view) (type view) desiredType (count view).

End GltfBufferView.

(** ** [abstract class GltfReader]: its state *)

Record GltfReader : Type := mkReader {
  _glTF : GltfDocument.t;
  _version : Z;
  _is3d : bool;
  _yAxisUp : bool;
  _isVolumeClassifier : bool;          (* BatchType.VolumeClassifier === _type *)
  _deduplicateVertices : bool;
  _vertexTableRequired : bool;
  _isCanceled : bool;                  (* what the [shouldAbort] callback answers *)
  _dracoMeshes : list (nat * DracoMesh)
}.

Definition _nodes (r : GltfReader) := orEmptyDict (GltfDocument.nodes (_glTF r)).
Definition _meshes (r : GltfReader) := orEmptyDict (GltfDocument.meshes (_glTF r)).
Definition _accessors (r : GltfReader) := orEmptyDict (GltfDocument.accessors (_glTF r)).
Definition _bufferViews (r : GltfReader) := orEmptyDict (GltfDocument.bufferViews (_glTF r)).
Definition _buffers (r : GltfReader) := orEmptyDict (GltfDocument.buffers (_glTF r)).
Definition _materials (r : GltfReader) := orEmptyDict (GltfDocument.materials (_glTF r)).

(** The constructor's [_returnToCenter]: the [CESIUM_RTC] centre when it has
    three coordinates, not all of them zero. *)
Definition _returnToCenter (r : GltfReader) : option (list Q) :=
  match GltfDocument.CESIUM_RTC_center (_glTF r) with
  | Some ([x; y; z] as c) =>
      if negb (Qeq_bool 0 x) || negb (Qeq_bool 0 y) || negb (Qeq_bool 0 z)
      then Some c else None
  | _ => None
  end.

(** The constructor's [_sceneNodes]: the nodes of the configured scene, and
    every node of the document when no scene gives any. *)
Definition _sceneNodes (r : GltfReader) : list GltfId :=
  let sceneNodes :=
    match GltfDocument.scenes (_glTF r) with
    | Some scenes =>
        match lookup scenes (GltfDocument.scene (_glTF r)) with
        | Some s => scene_nodes s
        | None => None
        end
    | None => None
    end in
  match sceneNodes with
  | Some ids => ids
  | None => Object_keys (_nodes r)
  end.

(** [public traverseNodes(nodeIds)]: a fresh set for each traversal. *)
Definition GltfReader_traverseNodes (r : GltfReader) (nodeIds : list GltfId)
  : list GltfNode * TraverseEnd :=
  traverseNodes (traverseFuel (_nodes r)) nodeIds (_nodes r) [].

(** [public traverseScene()] *)
Definition traverseScene (r : GltfReader) : list GltfNode * TraverseEnd :=
  GltfReader_traverseNodes r (_sceneNodes r).

(** ** Buffer views *)

(** The [switch (type)] of [getBufferView]: the size of a component in
    bytes, [None] in the [default] case. *)
Definition dataSizeOf (type : GltfDataType.t) : option Z :=
  if type =? GltfDataType.UnsignedByte then Some 1
  else if type =? GltfDataType.UnsignedShort then Some 2
  else if type =? GltfDataType.UInt32 then Some 4
  else if type =? GltfDataType.Float then Some 4
  else None.

(** The [switch (accessor.type)]: components per element. *)
Definition componentCountOf (type : string) : Z :=
  if String.eqb type "VEC3" then 3
  else if String.eqb type "VEC2" then 2
  else 1.

(** The three quantities [getBufferView] computes before it cuts the view
    out of the buffer. *)
Definition byteStrideOf (bufferView : GltfBufferViewProps.t) (componentCount dataSize : Z) : Z :=
  if truthyZ (GltfBufferViewProps.byteStride bufferView)
  then match GltfBufferViewProps.byteStride bufferView with
       | Some s => s
       | None => 0
       end
  else componentCount * dataSize.

Definition offsetOf (bufferView : GltfBufferViewProps.t) (accessor : GltfAccessor.t) : Z :=
  (if truthyZ (GltfBufferViewProps.byteOffset bufferView)
   then match GltfBufferViewProps.byteOffset bufferView with Some o => o | None => 0 end
   else 0)
  + (if truthyZ (GltfAccessor.byteOffset accessor)
     then match GltfAccessor.byteOffset accessor with Some o => o | None => 0 end
     else 0).

(** The body of the [try] block of [getBufferView].  [json] is the object
    the accessor name is looked up in; reading a property of an object that
    is not there throws. *)
Definition getBufferView_try (r : GltfReader) (json : option (JsonObject GltfId))
    (accessorName : string) : Result (option GltfBufferView.t) :=
  match json with
  | None => Throw TypeError
  | Some json =>
      let accessorValue := asString (dict_get json accessorName) in
      let accessor :=
        if String.eqb accessorValue "" then None
        else lookup (_accessors r) accessorValue in
      match accessor with
      | None => Return None
      | Some accessor =>
          let bufferView :=
            match GltfAccessor.bufferView accessor with
            | Some bv => dict_at (_bufferViews r) bv
            | None => None
            end in
          match bufferView with
          | None => Return None
          | Some bufferView =>
              match GltfBufferViewProps.buffer bufferView with
              | None => Return None
              | Some bufferId =>
                  let bufferData :=
                    match dict_at (_buffers r) bufferId with
                    | Some buffer => GltfBuffer.resolvedBuffer buffer
                    | None => None
                    end in
                  match bufferData with
                  | None => Return None
                  | Some bufferData =>
                      let type := GltfAccessor.componentType accessor in
                      match dataSizeOf type with
                      | None => Return None
                      | Some dataSize =>
                          let componentCount := componentCountOf (GltfAccessor.type accessor) in
                          let byteStride := byteStrideOf bufferView componentCount dataSize in
                          let offset := offsetOf bufferView accessor in
                          let length := byteStride * Z.of_N (GltfAccessor.count accessor) in
                          (* If the data is misaligned use slice to copy -- else use subarray. *)
                          let aligned := 0 =? Z.rem (byteOffset bufferData + offset) dataSize in
                          let bytes :=
                            if aligned
                            then subarray bufferData offset (offset + length)
                            else slice bufferData offset (offset + length) in
                          Return (Some (GltfBufferView.mk bytes (GltfAccessor.count accessor)
                                          type accessor (byteStride # Z.to_pos dataSize)))
                      end
                  end
              end
          end
      end
  end.

(** [public getBufferView(json, accessorName)]: the body above inside
    [try { ... } catch (e) { return undefined; }]. *)
Definition getBufferView (r : GltfReader) (json : option (JsonObject GltfId))
    (accessorName : string) : Result (option GltfBufferView.t) :=
  tryCatch (getBufferView_try r json accessorName) None.

(** [protected readBufferData(json, accessorName, type)] *)
Definition readBufferData (r : GltfReader) (json : option (JsonObject GltfId))
    (accessorName : string) (type : GltfDataType.t) : Result (option GltfBufferData.t) :=
  view <- getBufferView r json accessorName ;;
  match view with
  | Some view => GltfBufferView.toBufferData view type
  | None => Return None
  end.

Definition readBufferData32 r json accessorName :=
  readBufferData r json accessorName GltfDataType.UInt32.
Definition readBufferData16 r json accessorName :=
  readBufferData r json accessorName GltfDataType.UnsignedShort.
Definition readBufferData8 r json accessorName :=
  readBufferData r json accessorName GltfDataType.UnsignedByte.
Definition readBufferDataFloat r json accessorName :=
  readBufferData r json accessorName GltfDataType.Float.

(** ** Collaborators

    The types of the geometry library and of the renderer that pass
    through the reader. *)
Record ExternalTypes : Type := mkExternalTypes {
  RenderGraphic : Type;
  Transform : Type;
  Vector3d : Type;
  Range3d : Type;
  QParams3d : Type;
  Range2d : Type;
  QParams2d : Type;
  Mesh : Type;                         (* render/primitives/mesh/MeshPrimitives *)
  RealityMeshParams : Type;
  TextureMapping : Type;
  RenderMaterial : Type;
  FeatureTable : Type;
  InstancedGraphicParams : Type
}.

(** [enum TileReadStatus] *)
Inductive TileReadStatus : Type :=
| Success
| InvalidTileData
| Canceled.

Definition TileReadStatus_eqb (a b : TileReadStatus) : bool :=
  match a, b with
  | Success, Success | InvalidTileData, InvalidTileData | Canceled, Canceled => true
  | _, _ => false
  end.

(** [Mesh.PrimitiveType] *)
Inductive PrimitiveType : Type :=
| PrimitiveMesh
| PrimitivePolyline
| PrimitivePoint.

Section Reading.

Context {X : ExternalTypes}.

(** The arguments [createDisplayParams] gives to [new DisplayParams]: the
    one colour is the line colour and the fill colour. *)
Record DisplayParams : Type := mkDisplayParams {
  fillColor : ColorDef.t;
  renderMaterial : option (RenderMaterial X);
  ignoreLighting : bool;
  textureMapping : option (TextureMapping X)
}.

(** The arguments of [Mesh.create]. *)
Record MeshArgs : Type := mkMeshArgs {
  args_displayParams : DisplayParams;
  args_features : option (FeatureTable X);
  args_type : PrimitiveType;
  args_is2d : bool;
  args_hasBakedLighting : bool;
  args_isVolumeClassifier : bool
}.

(** [class GltfMeshData] *)
Record GltfMeshData : Type := mkMeshData {
  primitive : Mesh X;
  pointQParams : option (QParams3d X);
  points : option (list Z);            (* Uint16Array *)
  pointRange : option (Range3d X);
  normals : option (list Z);           (* Uint16Array *)
  uvQParams : option (QParams2d X);
  uvs : option (list Z);               (* Uint16Array *)
  uvRange : option (Range2d X);
  indices : option GltfDataBuffer
}.

(** [interface GltfReaderResult] *)
Record GltfReaderResult : Type := mkResult {
  readStatus : TileReadStatus;
  isLeaf : bool;
  contentRange : option (Range3d X);
  graphic : option (RenderGraphic X)
}.

(** What the reader asks of the geometry library, of the renderer and of
    the routines of its own that no property below depends on. *)
Record Collaborators : Type := mkCollaborators {
  (* core-geometry *)
  nodeTransform : GltfNode -> option (Transform X);
      (* the local transform [TransformStack.push] builds from [matrix] or
         from [translation], [rotation] and [scale] *)
  multiplyTransformTransform : Transform X -> Transform X -> Transform X;
  isIdentity : Transform X -> bool;
  inverse : Transform X -> option (Transform X);
  multiplyRange : Transform X -> Range3d X -> Range3d X;
  matrix_multiplyInverse : Transform X -> Vector3d X -> option (Vector3d X);
  magnitudeBelow1e5 : Vector3d X -> bool;
  createTranslation : list Q -> Transform X;
  createTranslationXYZ : Vector3d X -> Transform X;
  createIdentity : Transform X;
  rotateYUp : Transform X -> Transform X;
      (* [multiplyTransformMatrix3d] by the quarter turn about the x axis *)
  Range3d_createNull : Range3d X;
  Range3d_createXYZXYZ : list Q -> list Q -> Range3d X;
  Range3d_subtract : Range3d X -> Vector3d X -> Range3d X;
  extendRange : Range3d X -> Range3d X -> Range3d X;
  rangeOfPositions : list Z -> Q -> Range3d X;
      (* the range the first loop of [readVertices] extends over the floats
         of the buffer, read with the given stride *)
  QParams3d_fromRange : Range3d X -> QParams3d X;
  quantizePosition : QParams3d X -> option (Vector3d X) ->
                     option Z -> option Z -> option Z -> Z * Z * Z;
      (* a point of three floats, less the bias, in the quantization of
         [QPoint3dList.add] *)
  (* the renderer *)
  createGraphicList : list (RenderGraphic X) -> RenderGraphic X;
  createBranch : RenderGraphic X -> Transform X -> RenderGraphic X;
  createBatch : RenderGraphic X -> FeatureTable X -> Range3d X -> RenderGraphic X;
  createRealityMesh : RealityMeshParams X -> option (RenderGraphic X);
  RealityMeshParams_fromGltfMesh : GltfMeshData -> option (RealityMeshParams X);
  createRenderMaterial : ColorDef.t -> TextureMapping X -> option (RenderMaterial X);
  normalMapParamsDefined : TextureMapping X -> bool;
  Mesh_create : MeshArgs -> Mesh X;
  Mesh_hasPolylines : Mesh X -> bool;
  Mesh_getGraphics : Mesh X -> option (InstancedGraphicParams X) -> option (RenderGraphic X);
  Mesh_populate : GltfMeshData -> Mesh X;
      (* the primitive after [graphicFromMeshData] has copied the points,
         triangles, params and normals of the mesh data into it *)
  Mesh_addDraco : Mesh X -> DracoMesh -> Mesh X;
      (* the primitive after [readDracoMeshPrimitive] has filled it *)
  Mesh_setEdges : Mesh X -> GltfBufferData.t -> Mesh X;
      (* [edges.visible] filled with the pairs of the outline indices *)
  (* routines of the reader whose results are left open *)
  findTextureMappingFor : GltfReader -> GltfMaterial -> bool ->
                          Result (option (TextureMapping X));
      (* [extractTextureId], [extractNormalMapId] and [findTextureMapping] *)
  colorIndexParams : list Q -> GltfBufferData.t -> list Z * QParams2d X;
      (* the uv parameters [readMeshPrimitive] makes of [_COLORINDEX] *)
  readNormals : GltfReader -> GltfMeshData -> option (JsonObject GltfId) ->
                string -> Result (bool * GltfMeshData);
  readUVParams : GltfReader -> GltfMeshData -> option (JsonObject GltfId) ->
                 string -> Result (bool * GltfMeshData);
  deduplicateVertices : GltfMeshData -> Result (bool * GltfMeshData);
      (* the answer of [deduplicateVertices] and the mesh as it leaves it.
         The method also writes [0], [1], ... into the index array it is
         given, which is a view on the resolved buffer unless the array was
         copied or replaced: the buffers of the document are not a state of
         this embedding, so a property that reads the same indices twice is
         stated for a reader that does not deduplicate. *)
  readPolylines : GltfReader -> Mesh X -> GltfMeshPrimitive.t -> string -> bool ->
                  Result (bool * Mesh X)
}.

End Reading.

Arguments DisplayParams X : clear implicits.
Arguments MeshArgs X : clear implicits.
Arguments GltfMeshData X : clear implicits.
Arguments GltfReaderResult X : clear implicits.
Arguments Collaborators X : clear implicits.

(** Assignments to the fields of a [GltfMeshData]. *)
Definition setPoints {X} (mesh : GltfMeshData X) (params : QParams3d X)
    (pts : list Z) (range : Range3d X) : GltfMeshData X :=
  mkMeshData (primitive mesh) (Some params) (Some pts) (Some range)
    (normals mesh) (uvQParams mesh) (uvs mesh) (uvRange mesh) (indices mesh).

Definition setIndices {X} (mesh : GltfMeshData X) (b : GltfDataBuffer) : GltfMeshData X :=
  mkMeshData (primitive mesh) (pointQParams mesh) (points mesh) (pointRange mesh)
    (normals mesh) (uvQParams mesh) (uvs mesh) (uvRange mesh) (Some b).

Definition setUVs {X} (mesh : GltfMeshData X) (uv : list Z) (params : QParams2d X)
  : GltfMeshData X :=
  mkMeshData (primitive mesh) (pointQParams mesh) (points mesh) (pointRange mesh)
    (normals mesh) (Some params) (Some uv) (uvRange mesh) (indices mesh).

Definition setPrimitive {X} (mesh : GltfMeshData X) (p : Mesh X) : GltfMeshData X :=
  mkMeshData p (pointQParams mesh) (points mesh) (pointRange mesh)
    (normals mesh) (uvQParams mesh) (uvs mesh) (uvRange mesh) (indices mesh).

(** [mesh.primitive], where a parameter of the method is called
    [primitive] too. *)
Definition primitiveOf {X} (mesh : GltfMeshData X) : Mesh X := primitive mesh.

(** [new GltfMeshData(props)] *)
Definition newMeshData {X} (props : Mesh X) : GltfMeshData X :=
  mkMeshData props None None None None None None None None.

(** ** Reading a mesh primitive *)

(** [buffer[q]] for an index the code computes with a stride: [undefined]
    unless the index is a whole number inside the array. *)
Definition elementAt (l : list Z) (q : Q) : option Z :=
  let q' := Qred q in
  if (Zpos (Qden q') =? 1) && (0 <=? Qnum q')
  then nth_error l (Z.to_nat (Qnum q'))
  else None.

(** A value stored into an element of a [Uint16Array]: [undefined] is
    stored as [0]. *)
Definition storedUint16 (v : option Z) : Z :=
  match v with
  | Some z => z mod 65536
  | None => 0
  end.

(** The index buffer [readMeshIndices] makes for [numPoints] points that
    come without indices: element [i] holds [i]. *)
Definition sequentialIndices (numPoints : nat) : GltfDataBuffer :=
  let n := Z.of_nat numPoints in
  if n <? 255 then Uint8Elements (map (fun i => Z.of_nat i mod 256) (seq 0 numPoints))
  else if n <? 65535 then Uint16Elements (map (fun i => Z.of_nat i mod 65536) (seq 0 numPoints))
  else Uint32Elements (map (fun i => Z.of_nat i mod 4294967296) (seq 0 numPoints)).

Definition primitiveTypeOf (meshMode : Z) : option PrimitiveType :=
  if meshMode =? GltfMeshMode.Lines then Some PrimitivePolyline
  else if meshMode =? GltfMeshMode.Points then Some PrimitivePoint
  else if meshMode =? GltfMeshMode.Triangles then Some PrimitiveMesh
  else None.

(** A primitive as the [json] argument of [readMeshIndices] and
    [readPolylines]: the object in which ["indices"] is looked up. *)
Definition primitiveJson (p : GltfMeshPrimitive.t) : option (JsonObject GltfId) :=
  Some match GltfMeshPrimitive.indices p with
       | Some i => [("indices", i)]
       | None => []
       end.

Definition isSome {A : Type} (o : option A) : bool :=
  match o with Some _ => true | None => false end.

(** ** Decoding the draco meshes: [resolveResources]

    [loader.parse] is [parse]: it answers the decoded mesh, or nothing
    where the loader answers nothing or fails. *)

Definition withDracoMeshes (r : GltfReader) (dracoMeshes : list (nat * DracoMesh))
  : GltfReader :=
  mkReader (_glTF r) (_version r) (_is3d r) (_yAxisUp r) (_isVolumeClassifier r)
    (_deduplicateVertices r) (_vertexTableRequired r) (_isCanceled r) dracoMeshes.

(** [private async decodeDracoMesh(ext, loader)], by the reader it leaves:
    the mesh is kept only when the buffer view of the extension is there
    with a length, and its buffer is resolved. *)
Definition decodeDracoMesh (parse : Uint8Array -> option DracoMesh) (r : GltfReader)
    (ext : DracoMeshCompression) : GltfReader :=
  match dict_at (_bufferViews r) (draco_bufferView ext) with
  | None => r
  | Some bv =>
      if negb (truthyZ (GltfBufferViewProps.byteLength bv)) then r
      else
        let buffer :=
          match GltfBufferViewProps.buffer bv with
          | Some id => dict_at (_buffers r) id
          | None => lookup (_buffers r) "undefined"
          end in
        match (match buffer with
               | Some b => GltfBuffer.resolvedBuffer b
               | None => None
               end) with
        | None => r
        | Some buf =>
            let offset :=
              match GltfBufferViewProps.byteOffset bv with
              | Some o => o
              | None => 0
              end in
            let length :=
              match GltfBufferViewProps.byteLength bv with
              | Some l => l
              | None => 0
              end in
            match parse (subarray buf offset (offset + length)) with
            | Some mesh =>
                (* [_dracoMeshes.set(ext, mesh)] *)
                withDracoMeshes r
                  ((identity ext, mesh)
                   :: filter (fun kv => negb (Nat.eqb (fst kv) (identity ext)))
                        (_dracoMeshes r))
            | None => r
            end
        end
  end.

(** The draco extensions [resolveResources] collects from the primitives
    of the nodes of the scene. *)
Definition dracoExtensionsOf (r : GltfReader) : list DracoMeshCompression :=
  flat_map
    (fun node =>
       flat_map
         (fun meshId =>
            match dict_at (_meshes r) meshId with
            | Some mesh =>
                match primitives mesh with
                | Some prims =>
                    flat_map (fun primitive =>
                                match GltfMeshPrimitive.KHR_draco_mesh_compression primitive with
                                | Some ext => [ext]
                                | None => []
                                end) prims
                | None => []
                end
            | None => []
            end)
         (meshIds node))
    (fst (traverseScene r)).

(** The reader as [resolveResources] leaves it when the traversal of the
    scene does not throw: every extension collected has been decoded. *)
Definition resolveDracoMeshes (parse : Uint8Array -> option DracoMesh) (r : GltfReader)
  : GltfReader :=
  fold_left (decodeDracoMesh parse) (dracoExtensionsOf r) r.

Section GltfReaderMethods.

Context {X : ExternalTypes} (sys : Collaborators X).

(** [private readDracoMeshPrimitive(mesh, ext)] *)
Definition readDracoMeshPrimitive (r : GltfReader) (mesh : Mesh X)
    (ext : DracoMeshCompression) : bool * Mesh X :=
  match find (fun kv => Nat.eqb (fst kv) (identity ext)) (_dracoMeshes r) with
  | None => (false, mesh)
  | Some (_, draco) =>
      if negb (String.eqb "triangle-list" (topology draco)) then (false, mesh)
      else
        match draco_indices draco with
        | None => (false, mesh)
        | Some indices =>
            if negb (Z.rem (Z.of_nat (List.length indices)) 3 =? 0) then (false, mesh)
            else
              match draco_POSITION draco with
              | None => (false, mesh)
              | Some pos =>
                  if negb (Z.rem (Z.of_nat (List.length pos)) 3 =? 0) then (false, mesh)
                  else (true, Mesh_addDraco sys mesh draco)
              end
        end
  end.

(** The first loop of the float branch of [readVertices],
    [for (let i = 0; i < buffer.buffer.length; i += strideSkip)] with its
    three [i++]: a turn adds the stride to [i], so the loop ends when the
    array is empty or the stride is positive, and never ends otherwise (a
    negative [byteStride] makes the stride negative). *)
Definition rangeLoopEnds (floats : list Z) (stride : Q) : bool :=
  match floats with
  | [] => true
  | _ => negb (Qle_bool stride 0)
  end.

(** [private readVertices(mesh, primitive, pseudoRtcBias)] *)
Definition readVertices (r : GltfReader) (mesh : GltfMeshData X)
    (primitive : GltfMeshPrimitive.t) (pseudoRtcBias : option (Vector3d X))
  : Fueled (bool * GltfMeshData X) :=
  view <~ Ran (getBufferView r (Some (GltfMeshPrimitive.attributes primitive)) "POSITION") ;;
  match view with
  | None => Ran (Return (false, mesh))
  | Some view =>
      if GltfDataType.Float =? GltfBufferView.type view then
        buffer <~ Ran (GltfBufferView.toBufferData view GltfDataType.Float) ;;
        match buffer with
        | None => Ran (Return (false, mesh))
        | Some buffer =>
            let floats := elementsOf (GltfBufferData.buffer buffer) in
            let stride := GltfBufferView.stride view in
            if negb (rangeLoopEnds floats stride) then OutOfFuel
            else
              let pointRange := rangeOfPositions sys floats stride in
              let params := QParams3d_fromRange sys pointRange in
              let positions :=
                flat_map
                  (fun i =>
                     let j := (inject_Z (Z.of_nat i) * stride)%Q in
                     let '(x, y, z) :=
                       quantizePosition sys params pseudoRtcBias
                         (elementAt floats j) (elementAt floats (j + 1)%Q)
                         (elementAt floats (j + 2)%Q) in
                     [x; y; z])
                  (seq 0 (N.to_nat (GltfBufferData.count buffer))) in
              Ran (Return (true, setPoints mesh params positions pointRange))
        end
      else if negb (GltfDataType.UnsignedShort =? GltfBufferView.type view) then
        Ran (Return (false, mesh))
      else
        let quantized := GltfAccessor.WEB3D_quantized_attributes (GltfBufferView.accessor view) in
        match (match quantized with Some q => decodedMin q | None => None end),
              (match quantized with Some q => decodedMax q | None => None end) with
        | Some rangeMin, Some rangeMax =>
            buffer <~ Ran (GltfBufferView.toBufferData view GltfDataType.UnsignedShort) ;;
            match buffer with
            | Some (GltfBufferData.mk (Uint16Elements shorts) _) =>
                let range0 := Range3d_createXYZXYZ sys rangeMin rangeMax in
                let pointRange :=
                  match pseudoRtcBias with
                  | Some bias => Range3d_subtract sys range0 bias
                  | None => range0
                  end in
                let stride := GltfBufferView.stride view in
                let pts :=
                  if Qeq_bool 3 stride then shorts
                  else
                    flat_map
                      (fun i =>
                         let index := (inject_Z (Z.of_nat i) * stride)%Q in
                         [storedUint16 (elementAt shorts index);
                          storedUint16 (elementAt shorts (index + 1)%Q);
                          storedUint16 (elementAt shorts (index + 2)%Q)])
                      (seq 0 (N.to_nat (GltfBufferView.count view))) in
                Ran (Return (true,
                       setPoints mesh (QParams3d_fromRange sys pointRange) pts pointRange))
            | _ => Ran (Return (false, mesh))
            end
        | _, _ => Ran (Return (false, mesh))      (* required by spec... *)
        end
  end.

(** [protected readMeshIndices(mesh, json)], [json] being the primitive. *)
Definition readMeshIndices (r : GltfReader) (mesh : GltfMeshData X)
    (json : GltfMeshPrimitive.t) : Result (bool * GltfMeshData X) :=
  if isSome (GltfMeshPrimitive.indices json) then
    data16 <- readBufferData16 r (primitiveJson json) "indices" ;;
    data <- match data16 with
            | Some d => Return (Some d)
            | None => readBufferData32 r (primitiveJson json) "indices"
            end ;;
    match data with
    | Some (GltfBufferData.mk (Uint8Elements l as b) _)
    | Some (GltfBufferData.mk (Uint16Elements l as b) _)
    | Some (GltfBufferData.mk (Uint32Elements l as b) _) => Return (true, setIndices mesh b)
    | _ => Return (false, mesh)
    end
  else
    (* Non-indexed geometry. Manufacture triangle indices from points. *)
    match points mesh with
    | None => Return (false, mesh)
    | Some pts =>
        let numPoints := List.length pts in
        if negb (0 =? Z.rem (Z.of_nat numPoints) 3) then Return (false, mesh)
        else Return (true, setIndices mesh (sequentialIndices numPoints))
    end.

(** [protected createDisplayParams(material, hasBakedLighting)] *)
Definition createDisplayParams (r : GltfReader) (material : GltfMaterial)
    (hasBakedLighting : bool) : Result (option (DisplayParams X)) :=
  let isTransparent := isMaterialTransparent (_glTF r) material in
  textureMapping <- findTextureMappingFor sys r material isTransparent ;;
  let color := colorFromMaterial material isTransparent in
  let renderMaterial :=
    match textureMapping with
    | Some tm =>
        if normalMapParamsDefined sys tm then createRenderMaterial sys color tm else None
    | None => None
    end in
  Return (Some (mkDisplayParams color renderMaterial hasBakedLighting textureMapping)).

Definition materialUnlit (material : GltfMaterial) : bool :=
  match extensions material with
  | Some e => Gltf2Material.KHR_materials_unlit e
  | None => false
  end.

(** The [texStep] of the material, where [readMeshPrimitive] turns colour
    indices into uv parameters. *)
Definition texStepOf (material : GltfMaterial) : option (list Q) :=
  if isGltf1Material material then
    match values material with
    | Some v => Gltf1Material.texStep v
    | None => None
    end
  else
    match extensions material with
    | Some e =>
        match Gltf2Material.KHR_techniques_webgl_values e with
        | Some v => Gltf2Material.u_texStep v
        | None => None
        end
    | None => None
    end.

(** [`TEXCOORD_${texCoordIndex}`] *)
Definition texCoordName (material : GltfMaterial) : string :=
  let texCoordIndex :=
    if isGltf1Material material then 0%N
    else
      match pbrMetallicRoughness material with
      | Some pbr =>
          match Gltf2Material.baseColorTexture pbr with
          | Some t => match Gltf2Material.texCoord t with Some i => i | None => 0%N end
          | None => 0%N
          end
      | None => 0%N
      end in
  "TEXCOORD_" ++ propertyKey (IdNum texCoordIndex).

(** [protected readMeshPrimitive(primitive, featureTable, pseudoRtcBias)].
    The buffers of the document are read and not written, with one
    exception in the source: [deduplicateVertices] writes the new indices
    into the array of indices it is given, and for a primitive that
    declares its indices that array is a view of the document's buffer.
    The reader is therefore the document as it is when the primitive is
    read; in a reader that does not deduplicate vertices that is the
    document as it was fetched, for every primitive. *)
Definition readMeshPrimitive (r : GltfReader) (primitive : GltfMeshPrimitive.t)
    (featureTable : option (FeatureTable X)) (pseudoRtcBias : option (Vector3d X))
  : Fueled (option (GltfMeshData X)) :=
  let materialName := asString (GltfMeshPrimitive.material primitive) in
  let material :=
    if (0 <? Z.of_nat (String.length materialName))
    then lookup (_materials r) materialName
    else Some emptyMaterial in
  match material with
  | None => Ran (Return None)
  | Some material =>
      let attributes := GltfMeshPrimitive.attributes primitive in
      let hasBakedLighting :=
        negb (isSome (dict_get attributes "NORMAL")) || materialUnlit material in
      displayParams <~ Ran (createDisplayParams r material hasBakedLighting) ;;
      match displayParams with
      | None => Ran (Return None)
      | Some displayParams =>
          let meshMode :=
            match GltfMeshPrimitive.mode primitive with
            | Some m => m
            | None => GltfMeshMode.Triangles
            end in
          match primitiveTypeOf meshMode with
          | None => Ran (Return None)
          | Some primitiveType =>
              let meshPrimitive :=
                Mesh_create sys
                  (mkMeshArgs displayParams featureTable primitiveType (negb (_is3d r))
                     hasBakedLighting (_isVolumeClassifier r)) in
              let mesh := newMeshData meshPrimitive in
              colorIndices <~ Ran (readBufferData16 r (Some attributes) "_COLORINDEX") ;;
              let mesh :=
                match colorIndices, texStepOf material with
                | Some ci, Some texStep =>
                    let (uv, params) := colorIndexParams sys texStep ci in
                    setUVs mesh uv params
                | _, _ => mesh
                end in
              match GltfMeshPrimitive.KHR_draco_mesh_compression primitive with
              | Some draco =>
                  let (ok, filled) := readDracoMeshPrimitive r (primitiveOf mesh) draco in
                  Ran (Return (if ok then Some (setPrimitive mesh filled) else None))
              | None =>
                  (* readBatchTable: nothing in this class *)
                  '(ok, mesh) <~ readVertices r mesh primitive pseudoRtcBias ;;
                  if negb ok then Ran (Return None)
                  else
                    Ran
                      (afterType <-
                         match primitiveType with
                         | PrimitiveMesh =>
                             '(ok, mesh) <- readMeshIndices r mesh primitive ;;
                             if negb ok then Return None
                             else
                               '(ok, mesh) <-
                                 (if negb (ignoreLighting displayParams)
                                  then readNormals sys r mesh (Some attributes) "NORMAL"
                                  else Return (true, mesh)) ;;
                               if negb ok then Return None
                               else
                                 mesh <-
                                   (if negb (isSome (uvs mesh))
                                    then '(_, mesh) <- readUVParams sys r mesh (Some attributes)
                                                         (texCoordName material) ;;
                                         Return mesh
                                    else Return mesh) ;;
                                 if _deduplicateVertices r
                                 then '(ok, mesh) <- deduplicateVertices sys mesh ;;
                                      Return (if ok then Some mesh else None)
                                 else Return (Some mesh)
                         | PrimitivePolyline | PrimitivePoint =>
                             if Mesh_hasPolylines sys (primitiveOf mesh)
                             then
                               '(ok, p) <- readPolylines sys r (primitiveOf mesh) primitive
                                             "indices"
                                             (match primitiveType with
                                              | PrimitivePoint => true
                                              | _ => false
                                              end) ;;
                               Return (if ok then Some (setPrimitive mesh p) else None)
                             else Return (Some mesh)
                         end ;;
                       match afterType with
                       | None => Return None
                       | Some mesh =>
                           if isSome (textureMapping displayParams) && negb (isSome (uvs mesh))
                           then Return None
                           else
                             match GltfMeshPrimitive.CESIUM_primitive_outline primitive with
                             | Some outline =>
                                 data <- readBufferData32 r (Some outline) "indices" ;;
                                 match data with
                                 | Some data =>
                                     Return (Some (setPrimitive mesh
                                               (Mesh_setEdges sys (primitiveOf mesh) data)))
                                 | None => Return (Some mesh)
                                 end
                             | None => Return (Some mesh)
                             end
                       end)
              end
          end
      end
  end.

(** The [for (const primitive of nodeMesh.primitives)] loop of
    [readMeshPrimitives].  The state is the list [meshes] and
    [_computedContentRange], which is extended by the range of every mesh
    that is read. *)
Definition readPrimitiveList (r : GltfReader) (prims : list GltfMeshPrimitive.t)
    (featureTable : option (FeatureTable X))
    (thisTransform : option (Transform X)) (thisBias : option (Vector3d X))
    (acc : list (GltfMeshData X) * option (Range3d X))
  : Fueled (list (GltfMeshData X) * option (Range3d X)) :=
  forEachFueled
    (fun '(meshes, computed) primitive =>
       mesh <~ readMeshPrimitive r primitive featureTable thisBias ;;
       match mesh with
       | Some mesh =>
           let computed' :=
             match computed, pointRange mesh with
             | Some range, Some meshPointRange =>
                 let invTransform :=
                   match thisTransform with
                   | Some t => inverse sys t
                   | None => None
                   end in
                 let meshRange :=
                   match invTransform with
                   | Some inv => multiplyRange sys inv meshPointRange
                   | None => meshPointRange
                   end in
                 Some (extendRange sys range meshRange)
             | _, _ => computed
             end in
           Ran (Return (meshes ++ [mesh], computed'))
       | None => Ran (Return (meshes, computed))
       end)
    prims acc.

(** [private readMeshPrimitives(node, featureTable, thisTransform, thisBias)];
    the second component is [_computedContentRange]. *)
Definition readMeshPrimitives (r : GltfReader) (computedContentRange : option (Range3d X))
    (node : GltfNode) (featureTable : option (FeatureTable X))
    (thisTransform : option (Transform X)) (thisBias : option (Vector3d X))
  : Fueled (list (GltfMeshData X) * option (Range3d X)) :=
  forEachFueled
    (fun acc meshKey =>
       match dict_at (_meshes r) meshKey with
       | Some nodeMesh =>
           match primitives nodeMesh with
           | Some prims => readPrimitiveList r prims featureTable thisTransform thisBias acc
           | None => Ran (Return acc)
           end
       | None => Ran (Return acc)
       end)
    (meshIds node) ([], computedContentRange).

(** [private graphicFromMeshData(gltfMesh, instances)] *)
Definition graphicFromMeshData (r : GltfReader) (gltfMesh : GltfMeshData X)
    (instances : option (InstancedGraphicParams X)) : option (RenderGraphic X) :=
  if negb (isSome (points gltfMesh)) || negb (isSome (pointRange gltfMesh)) then
    Mesh_getGraphics sys (primitive gltfMesh) instances
  else
    let realityMeshPrimitive :=
      if _vertexTableRequired r || isSome instances then None
      else RealityMeshParams_fromGltfMesh sys gltfMesh in
    match (match realityMeshPrimitive with
           | Some p => createRealityMesh sys p
           | None => None
           end) with
    | Some realityMesh => Some realityMesh
    | None => Mesh_getGraphics sys (Mesh_populate sys gltfMesh) instances
    end.

(** ** [class TransformStack]; the top of the stack is the head of the list *)

Definition TransformStack : Type := list (option (Transform X)).

(** [get transform()] *)
Definition TransformStack_transform (s : TransformStack) : option (Transform X) :=
  match s with
  | [] => None
  | top :: _ => top
  end.

(** [get isEmpty()] *)
Definition TransformStack_isEmpty (s : TransformStack) : bool :=
  match s with [] => true | _ => false end.

(** [push(node)] *)
Definition TransformStack_push (s : TransformStack) (node : GltfNode) : TransformStack :=
  let nodeTransform := nodeTransform sys node in
  match TransformStack_transform s with
  | None => nodeTransform :: s
  | Some top =>
      Some (match nodeTransform with
            | Some t => multiplyTransformTransform sys top t
            | None => top
            end) :: s
  end.

(** [pop()] *)
Definition TransformStack_pop (s : TransformStack) : TransformStack := tl s.

(** ** Producing graphics *)

(** What [readGltfAndCreateGraphics] and the node recursion share and
    change: the list of graphics, the transform stack, and the content
    range under computation. *)
Record ReadState : Type := mkReadState {
  renderGraphicList : list (RenderGraphic X);
  transformStack : TransformStack;
  _computedContentRange : option (Range3d X)
}.

(** The graphic [readNodeAndCreateGraphics] makes of the meshes of a node:
    one graphic for one mesh, a list for several. *)
Definition graphicOfMeshes (r : GltfReader) (meshes : list (GltfMeshData X))
    (instances : option (InstancedGraphicParams X)) : option (RenderGraphic X) :=
  match meshes with
  | [] => None
  | [mesh] => graphicFromMeshData r mesh instances
  | _ =>
      let thisList :=
        flat_map (fun mesh =>
                    match graphicFromMeshData r mesh instances with
                    | Some g => [g]
                    | None => []
                    end) meshes in
      match thisList with
      | [] => None
      | _ => Some (createGraphicList sys thisList)
      end
  end.

(** The [for (const meshKey of getGltfNodeMeshIds(node))] loop of
    [readNodeAndCreateGraphics]. *)
Definition readNodeMeshes (r : GltfReader) (st : ReadState) (node : GltfNode)
    (featureTable : option (FeatureTable X))
    (thisTransform : option (Transform X)) (thisBias : option (Vector3d X))
    (instances : option (InstancedGraphicParams X)) : Fueled ReadState :=
  forEachFueled
    (fun st meshKey =>
       match dict_at (_meshes r) meshKey with
       | Some nodeMesh =>
           if isSome (primitives nodeMesh) then
             '(meshes, computed) <~
               readMeshPrimitives r (_computedContentRange st) node featureTable
                 thisTransform thisBias ;;
             let graphics :=
               match graphicOfMeshes r meshes instances with
               | Some renderGraphic =>
                   let branched :=
                     match thisTransform with
                     | Some t =>
                         if negb (isIdentity sys t) then createBranch sys renderGraphic t
                         else renderGraphic
                     | None => renderGraphic
                     end in
                   renderGraphicList st ++ [branched]
               | None => renderGraphicList st
               end in
             Ran (Return (mkReadState graphics (transformStack st) computed))
           else Ran (Return st)
       | None => Ran (Return st)
       end)
    (meshIds node) st.

(** [private readNodeAndCreateGraphics(renderGraphicList, node, featureTable,
    transformStack, instances, pseudoRtcBias)].  Nothing in the method
    bounds the recursion into the children: [stackLimit] is the number of
    nested calls the call stack of the engine has room for, and the call
    that exceeds it throws the [RangeError] of the engine.  The status a
    child returns is dropped, and the children are read without a bias. *)
Fixpoint readNodeAndCreateGraphics (stackLimit : nat) (r : GltfReader) (st : ReadState)
    (node : GltfNode) (featureTable : option (FeatureTable X))
    (instances : option (InstancedGraphicParams X))
    (pseudoRtcBias : option (Vector3d X)) : Fueled (TileReadStatus * ReadState) :=
  match stackLimit with
  | O => Ran (Throw RangeError)
  | S deeper =>
      (* IMPORTANT: Do not return without popping this node from the stack. *)
      let pushed := TransformStack_push (transformStack st) node in
      let thisTransform := TransformStack_transform pushed in
      let thisBias :=
        match pseudoRtcBias with
        | Some bias =>
            match thisTransform with
            | None => Some bias
            | Some t => matrix_multiplyInverse sys t bias
            end
        | None => None
        end in
      st1 <~ readNodeMeshes r
               (mkReadState (renderGraphicList st) pushed (_computedContentRange st))
               node featureTable thisTransform thisBias instances ;;
      st2 <~ match children node with
             | Some ch =>
                 forEachFueled
                   (fun st childId =>
                      match dict_at (_nodes r) childId with
                      | Some child =>
                          '(_, st') <~ readNodeAndCreateGraphics deeper r st child
                                         featureTable instances None ;;
                          Ran (Return st')
                      | None => Ran (Return st)
                      end)
                   ch st1
             | None => Ran (Return st1)
             end ;;
      Ran (Return (Success,
             mkReadState (renderGraphicList st2)
               (TransformStack_pop (transformStack st2)) (_computedContentRange st2)))
  end.

(** [private getTileTransform(transformToRoot, pseudoRtcBias)] *)
Definition getTileTransform (r : GltfReader) (transformToRoot : option (Transform X))
    (pseudoRtcBias : option (Vector3d X)) : option (Transform X) :=
  if isSome (_returnToCenter r) || isSome pseudoRtcBias || _yAxisUp r
     || isSome transformToRoot
  then
    let transform :=
      match _returnToCenter r, pseudoRtcBias with
      | Some c, _ => createTranslation sys c
      | None, Some bias => createTranslationXYZ sys bias
      | None, None => createIdentity sys
      end in
    let transform := if _yAxisUp r then rotateYUp sys transform else transform in
    Some match transformToRoot with
         | Some toRoot => multiplyTransformTransform sys toRoot transform
         | None => transform
         end
  else None.

(** The [for (const nodeKey of this._sceneNodes)] loop of
    [readGltfAndCreateGraphics]: the status last assigned, the state, and
    whether the loop was left by its [return]. *)
Fixpoint readSceneNodes
    (readNode : ReadState -> GltfNode -> Fueled (TileReadStatus * ReadState))
    (nodes : GltfDictionary GltfNode) (sceneNodes : list GltfId)
    (readStatus : TileReadStatus) (st : ReadState)
  : Fueled (TileReadStatus * ReadState * bool) :=
  match sceneNodes with
  | [] => Ran (Return (readStatus, st, false))
  | nodeKey :: rest =>
      match dict_at nodes nodeKey with
      | Some node =>
          '(readStatus', st') <~ readNode st node ;;
          if negb (TileReadStatus_eqb Success readStatus')
          then Ran (Return (readStatus', st', true))
          else readSceneNodes readNode nodes rest readStatus' st'
      | None => readSceneNodes readNode nodes rest readStatus st
      end
  end.

(** The bias [readGltfAndCreateGraphics] reads the nodes with: none when
    the document has a centre to return to, when the first node has a
    matrix, or when the bias is small. *)
Definition effectiveBias (r : GltfReader) (pseudoRtcBias : option (Vector3d X))
  : option (Vector3d X) :=
  if isSome (_returnToCenter r)
     || match dict_at (_nodes r) (IdNum 0) with
        | Some node0 => isSome (matrix node0)
        | None => false
        end
     || match pseudoRtcBias with
        | Some bias => magnitudeBelow1e5 sys bias
        | None => false
        end
  then None else pseudoRtcBias.

(** The loop of [readGltfAndCreateGraphics] over the scene nodes, from an
    empty list of graphics, an empty transform stack and the status
    [InvalidTileData]. *)
Definition readScene (stackLimit : nat) (r : GltfReader)
    (featureTable : option (FeatureTable X)) (contentRange : option (Range3d X))
    (pseudoRtcBias : option (Vector3d X))
    (instances : option (InstancedGraphicParams X))
  : Fueled (TileReadStatus * ReadState * bool) :=
  (* If contentRange was not supplied, we will compute it as we read the meshes. *)
  let computed :=
    match contentRange with
    | None => Some (Range3d_createNull sys)
    | Some _ => None
    end in
  readSceneNodes
    (fun st node =>
       readNodeAndCreateGraphics stackLimit r st node featureTable instances
         (effectiveBias r pseudoRtcBias))
    (_nodes r) (_sceneNodes r) InvalidTileData (mkReadState [] [] computed).

(** The graphic [readGltfAndCreateGraphics] returns for a list of graphics
    that is not empty: the one graphic or a list of them, in a batch when
    there is a feature table, in a branch when the tile has a transform. *)
Definition assembleGraphic (r : GltfReader) (first : RenderGraphic X)
    (others : list (RenderGraphic X)) (featureTable : option (FeatureTable X))
    (contentRange : Range3d X) (transformToRoot : option (Transform X))
    (pseudoRtcBias : option (Vector3d X)) : RenderGraphic X :=
  let renderGraphic :=
    match others with
    | [] => first
    | _ => createGraphicList sys (first :: others)
    end in
  let transform := getTileTransform r transformToRoot pseudoRtcBias in
  let range :=
    match (match transform with Some t => inverse sys t | None => None end) with
    | Some invTransform => multiplyRange sys invTransform contentRange
    | None => contentRange
    end in
  let renderGraphic :=
    match featureTable with
    | Some table => createBatch sys renderGraphic table range
    | None => renderGraphic
    end in
  match transform with
  | Some t => createBranch sys renderGraphic t
  | None => renderGraphic
  end.

(** [protected readGltfAndCreateGraphics(isLeaf, featureTable, contentRange,
    transformToRoot, pseudoRtcBias, instances)] *)
Definition readGltfAndCreateGraphics (stackLimit : nat) (r : GltfReader) (isLeaf : bool)
    (featureTable : option (FeatureTable X)) (contentRange : option (Range3d X))
    (transformToRoot : option (Transform X)) (pseudoRtcBias : option (Vector3d X))
    (instances : option (InstancedGraphicParams X)) : Fueled (GltfReaderResult X) :=
  if _isCanceled r then Ran (Return (mkResult Canceled isLeaf None None))
  else
    '(readStatus, st, returned) <~
      readScene stackLimit r featureTable contentRange pseudoRtcBias instances ;;
    if returned then Ran (Return (mkResult readStatus isLeaf None None))
    else
      match renderGraphicList st with
      | [] => Ran (Return (mkResult InvalidTileData isLeaf None None))
      | first :: others =>
          let contentRange :=
            match contentRange with
            | Some range => range
            | None =>
                match _computedContentRange st with
                | Some range => range
                | None => Range3d_createNull sys
                end
            end in
          Ran (Return (mkResult readStatus isLeaf (Some contentRange)
                         (Some (assembleGraphic r first others featureTable contentRange
                                  transformToRoot (effectiveBias r pseudoRtcBias)))))
      end.

(** [GltfGraphicsReader.read()]: [resolveResources] walks the scene with
    [traverseScene] before any graphic is made, and the exception of the
    walk is the exception of the read.  The document is taken as the
    fetches left it, and [_dracoMeshes] as the decoder filled it;
    [stackLimit] is the depth the call stack has room for when
    [readGltfAndCreateGraphics] is called. *)
Definition read (stackLimit : nat) (r : GltfReader) (isLeaf : bool)
    (featureTable : option (FeatureTable X)) (contentRange : option (Range3d X))
    (transform : option (Transform X)) : Fueled (GltfReaderResult X) :=
  match snd (traverseScene r) with
  | CycleDetected _ _ => Ran (Throw CycleError)
  | TraverseOutOfFuel => OutOfFuel
  | Exhausted _ =>
      readGltfAndCreateGraphics stackLimit r isLeaf featureTable
        contentRange transform None None
  end.

End GltfReaderMethods.

(** ** [class GltfReaderProps]

    [GltfReaderProps.create] works on the document as JSON, before any of
    it is read as the typed dictionaries above. *)

#[local] Unset Elimination Schemes.
Inductive Json : Type :=
| JNull
| JBool (b : bool)
| JNumber (q : Q)
| JString (s : string)
| JArray (items : list Json)
| JObject (fields : list (string * Json)).
#[local] Set Elimination Schemes.

(** [json.name]: a [TypeError] on [null], [undefined] on a value that has
    no such property. *)
Definition getProperty (json : Json) (name : string) : Result (option Json) :=
  match json with
  | JNull => Throw TypeError
  | JObject fields => Return (dict_get fields name)
  | _ => Return None
  end.

(** Modelled from the spec: [JsonUtils] (core-bentley) is not under src.
    [asObject] keeps what the spec calls a dictionary, a JSON object or
    array, and answers [undefined] for anything else; [asArray] keeps an
    array; [asString] is [json.toString()], and [""] for [null] and
    [undefined]. *)
Module JsonUtils.

(** [json.toString()] for a value of a JSON text.  An array joins the
    strings of its elements with commas, [null] giving the empty string; an
    object is ["[object Object]"], unless the text gives it a member called
    [toString]: that member is no function, and the call throws.
    [numberToString] is [Number.prototype.toString]. *)
Fixpoint toString (numberToString : Q -> string) (json : Json) {struct json}
  : Result string :=
  match json with
  | JNull => Return ""
  | JBool b => Return (if b then "true" else "false")
  | JNumber q => Return (numberToString q)
  | JString s => Return s
  | JArray items =>
      (fix join (items : list Json) : Result string :=
         match items with
         | [] => Return ""
         | item :: rest =>
             s <- toString numberToString item ;;
             match rest with
             | [] => Return s
             | _ => t <- join rest ;; Return (s ++ "," ++ t)%string
             end
         end) items
  | JObject fields =>
      if isSome (dict_get fields "toString") then Throw TypeError
      else Return "[object Object]"
  end.

Definition asString (numberToString : Q -> string) (json : option Json) : Result string :=
  match json with
  | None | Some JNull => Return ""
  | Some json => toString numberToString json
  end.

Definition asObject (json : option Json) : option Json :=
  match json with
  | Some (JObject _ as o) | Some (JArray _ as o) => Some o
  | _ => None
  end.

Definition asArray (json : option Json) : option Json :=
  match json with
  | Some (JArray _ as a) => Some a
  | _ => None
  end.

End JsonUtils.

(** Modelled from the spec: [TileFormat.Gltf] (core-common), the bytes
    ["glTF"] read as a little-endian integer. *)
Definition TileFormat_Gltf : Z := 0x46546c67.

(** Modelled from the spec: [class GlbHeader] (core-common) is not under
    src.  What [create] reads of it; a chunk is its offset and its length. *)
Record GlbHeader : Type := mkGlbHeader {
  isValid : bool;
  header_version : Z;
  binaryChunk : option (Z * Z);
  jsonChunk : Z * Z
}.

(** Modelled from the spec: [ByteStream] (core-bentley) is not under src.
    [ByteStream.fromUint8Array(source).readUint32()] reads the first four
    bytes of the source through a [DataView], as a little-endian integer;
    the [DataView] throws a [RangeError] when there are fewer than four. *)
Definition readUint32 (source : Uint8Array) : Result Z :=
  match octets source with
  | b0 :: b1 :: b2 :: b3 :: _ => Return (b0 + 256 * b1 + 65536 * b2 + 16777216 * b3)
  | _ => Throw RangeError
  end.

(** The calls [create] makes outside the file. *)
Record Platform : Type := mkPlatform {
  Number_toString : Q -> string;
      (* [Number.prototype.toString] *)
  newGlbHeader : Uint8Array -> Result GlbHeader;
  chunkOf : Uint8Array -> Z -> Z -> Result Uint8Array;
      (* [new Uint8Array(source.buffer, source.byteOffset + offset, length)] *)
  utf8ToString : Uint8Array -> Result (option string);
  JSON_parse : string -> Result Json
}.

(** [source: Uint8Array | GltfDocument] *)
Inductive GltfSource : Type :=
| SourceBytes (source : Uint8Array)
| SourceDocument (source : Json).

(** The [glTF] object [create] assembles: [scene] is what
    [JsonUtils.asString] made of the property of that name, and each other
    property what [JsonUtils.asObject] or [JsonUtils.asArray] made of
    it. *)
Record GltfDocumentProps : Type := mkDocumentProps {
  props_asset : option Json;
  props_scene : string;
  props_extensions : option Json;
  props_extensionsUsed : option Json;
  props_extensionsRequired : option Json;
  props_accessors : option Json;
  props_buffers : option Json;
  props_bufferViews : option Json;
  props_images : option Json;
  props_materials : option Json;
  props_meshes : option Json;
  props_nodes : option Json;
  props_samplers : option Json;
  props_scenes : option Json;
  props_textures : option Json;
  props_techniques : option Json
}.

Module GltfReaderProps.

Record t : Type := mk {
  version : Z;
  glTF : GltfDocumentProps;
  yAxisUp : bool;
  binaryData : option Uint8Array;
  baseUrl : option string
}.

(** The first part of [create]: the version, the JSON and the binary chunk
    of the source, or [undefined]. *)
Definition parseSource (pf : Platform) (source : GltfSource)
  : Result (option (Z * Json * option Uint8Array)) :=
  match source with
  | SourceBytes source =>
      (* It may be JSON - check for magic indicating glb. *)
      magic <- readUint32 source ;;
      if negb (TileFormat_Gltf =? magic) then
        tryCatch
          (utf8Json <- utf8ToString pf source ;;
           match utf8Json with
           | None | Some EmptyString => Return None
           | Some text =>
               json <- JSON_parse pf text ;;
               Return (Some (2, json, None))
           end)
          None
      else
        header <- newGlbHeader pf source ;;
        if negb (isValid header) then Return None
        else
          binaryData <-
            match binaryChunk header with
            | Some (offset, length) =>
                chunk <- chunkOf pf source offset length ;; Return (Some chunk)
            | None => Return None
            end ;;
          tryCatch
            (jsonBytes <- chunkOf pf source (fst (jsonChunk header)) (snd (jsonChunk header)) ;;
             jsonStr <- utf8ToString pf jsonBytes ;;
             match jsonStr with
             | None => Return None
             | Some text =>
                 json <- JSON_parse pf text ;;
                 Return (Some (header_version header, json, binaryData))
             end)
            None
  | SourceDocument source => Return (Some (2, source, None))
  end.

(** [public static create(source, yAxisUp = false, baseUrl)] *)
Definition create (pf : Platform) (source : GltfSource) (yAxisUp : bool)
    (baseUrl : option string) : Result (option t) :=
  parsed <- parseSource pf source ;;
  match parsed with
  | None => Return None
  | Some (version, json, binaryData) =>
      (* asset is required in glTF 2, optional in glTF 1 *)
      asset <- getProperty json "asset" ;;
      let asset := JsonUtils.asObject asset in
      if (version =? 2) && negb (isSome asset) then Return None
      else
        scene <- getProperty json "scene" ;;
        scene <- JsonUtils.asString (Number_toString pf) scene ;;
        extensions <- getProperty json "extensions" ;;
        extensionsUsed <- getProperty json "extensionsUsed" ;;
        extensionsRequired <- getProperty json "extensionsRequired" ;;
        accessors <- getProperty json "accessors" ;;
        buffers <- getProperty json "buffers" ;;
        bufferViews <- getProperty json "bufferViews" ;;
        images <- getProperty json "images" ;;
        materials <- getProperty json "materials" ;;
        meshes <- getProperty json "meshes" ;;
        nodes <- getProperty json "nodes" ;;
        samplers <- getProperty json "samplers" ;;
        scenes <- getProperty json "scenes" ;;
        textures <- getProperty json "textures" ;;
        techniques <- getProperty json "techniques" ;;
        let glTF :=
          mkDocumentProps asset scene
            (JsonUtils.asObject extensions)
            (JsonUtils.asArray extensionsUsed)
            (JsonUtils.asArray extensionsRequired)
            (JsonUtils.asObject accessors)
            (JsonUtils.asObject buffers)
            (JsonUtils.asObject bufferViews)
            (JsonUtils.asObject images)
            (JsonUtils.asObject materials)
            (JsonUtils.asObject meshes)
            (JsonUtils.asObject nodes)
            (JsonUtils.asObject samplers)
            (JsonUtils.asObject scenes)
            (JsonUtils.asObject textures)
            (JsonUtils.asObject techniques) in
        Return (if isSome (props_meshes glTF)
                then Some (mk version glTF yAxisUp binaryData baseUrl)
                else None)
  end.

End GltfReaderProps.

(** * Properties *)

(** ** Identifiers and sets *)

Lemma GltfId_eqb_eq (a b : GltfId) : GltfId_eqb a b = true <-> a = b.
Proof.
  destruct a as [n|s], b as [m|t]; simpl; split; intro H;
    try discriminate; try congruence.
  - apply N.eqb_eq in H; congruence.
  - injection H as ->; apply N.eqb_refl.
  - apply String.eqb_eq in H; congruence.
  - injection H as ->; apply String.eqb_refl.
Qed.

Lemma Set_has_In (s : IdSet) (id : GltfId) : Set_has s id = true <-> In id s.
Proof.
  unfold Set_has; rewrite existsb_exists; split.
  - intros (x & Hx & E); apply GltfId_eqb_eq in E; now subst.
  - intro H; exists id; split; [assumption | now apply GltfId_eqb_eq].
Qed.

Lemma Set_has_false (s : IdSet) (id : GltfId) : Set_has s id = false <-> ~ In id s.
Proof.
  rewrite <- Set_has_In; destruct (Set_has s id); split; congruence.
Qed.

(** Two numbers, or two strings, with the same property key are the same
    id: a node is read by at most one number and one string. *)
Lemma propertyKey_IdNum_inj (n m : N) :
  propertyKey (IdNum n) = propertyKey (IdNum m) -> n = m.
Proof.
  simpl; intro H.
  apply Unsigned.to_uint_inj.
  assert (E : NilEmpty.uint_of_string (NilEmpty.string_of_uint (N.to_uint n))
              = NilEmpty.uint_of_string (NilEmpty.string_of_uint (N.to_uint m)))
    by now rewrite H.
  rewrite !NilEmpty.usu in E; congruence.
Qed.

Definition isNumber (id : GltfId) : bool :=
  match id with IdNum _ => true | IdStr _ => false end.

Lemma propertyKey_inj_same_kind (a b : GltfId) :
  isNumber a = isNumber b -> propertyKey a = propertyKey b -> a = b.
Proof.
  destruct a, b; simpl; intros K E; try discriminate.
  - f_equal; now apply propertyKey_IdNum_inj.
  - now f_equal.
Qed.

Lemma dict_get_Some_key {T : Type} (d : JsonObject T) (k : string) (v : T) :
  dict_get d k = Some v -> In k (map fst d).
Proof.
  induction d as [|[k' v'] d IH]; simpl; [discriminate|].
  destruct (String.eqb_spec k k') as [->|_]; intro H; [now left | right; auto].
Qed.

(** The names under which a read of a dictionary finds something. *)
Definition propertyNames {T : Type} (d : GltfDictionary T) : list string :=
  map fst (entries d) ++ inheritedNames d.

Lemma lookup_Some_name {T : Type} `{Blank T} (d : GltfDictionary T) (k : string) (v : T) :
  lookup d k = Some v -> In k (propertyNames d).
Proof.
  unfold lookup, propertyNames. intro E. apply in_or_app.
  destruct (dict_get (entries d) k) eqn:Eg.
  - left. eapply dict_get_Some_key; eassumption.
  - right. destruct (existsb (String.eqb k) (inheritedNames d)) eqn:Ei; [|discriminate].
    apply existsb_exists in Ei as (x & Hx & Ex). apply String.eqb_eq in Ex. now subst.
Qed.

Lemma lookup_None_name {T : Type} `{Blank T} (d : GltfDictionary T) (k : string) :
  lookup d k = None <-> ~ In k (propertyNames d).
Proof.
  unfold lookup, propertyNames. split.
  - intros E Hin. destruct (dict_get (entries d) k) eqn:Eg; [discriminate|].
    destruct (existsb (String.eqb k) (inheritedNames d)) eqn:Ei; [discriminate|].
    apply in_app_or in Hin as [Hin|Hin].
    + clear E Ei. induction (entries d) as [|[k' v'] l IH]; [easy|].
      simpl in Eg, Hin. destruct (String.eqb_spec k k') as [->|Hne]; [discriminate|].
      destruct Hin as [->|Hin]; [congruence | auto].
    + assert (Ht : existsb (String.eqb k) (inheritedNames d) = true)
        by (apply existsb_exists; exists k; split; [assumption | apply String.eqb_refl]).
      congruence.
  - intro Hn. destruct (dict_get (entries d) k) eqn:Eg.
    + exfalso. apply Hn, in_or_app. left. eapply dict_get_Some_key; eassumption.
    + destruct (existsb (String.eqb k) (inheritedNames d)) eqn:Ei; [|reflexivity].
      exfalso. apply Hn, in_or_app. right.
      apply existsb_exists in Ei as (x & Hx & Ex). apply String.eqb_eq in Ex. now subst.
Qed.

Section TraversalProperties.

Variable nodes : GltfDictionary GltfNode.

(** An id resolves when a read of [nodes[id]] finds something: a node of
    the document, or what the dictionary inherits under that name. *)
Definition resolves (id : GltfId) : Prop := dict_at nodes id <> None.

(** The sets the traversal builds: no id twice, and every id resolves. *)
Definition traversedSet (t : IdSet) : Prop := NoDup t /\ Forall resolves t.

Lemma filter_split_length {A : Type} (f : A -> bool) (l : list A) :
  (List.length (filter f l) + List.length (filter (fun x => negb (f x)) l)
   = List.length l)%nat.
Proof.
  induction l as [|a l IH]; simpl; [reflexivity|].
  destruct (f a); simpl; lia.
Qed.

Lemma same_kind_bound (k : bool) (t : IdSet) :
  traversedSet t ->
  (List.length (filter (fun id => Bool.eqb (isNumber id) k) t)
   <= List.length (propertyNames nodes))%nat.
Proof.
  intros [ND R].
  set (l := filter _ t).
  rewrite <- (length_map propertyKey l).
  apply NoDup_incl_length.
  - apply NoDup_map_NoDup_ForallPairs.
    + intros a b Ha Hb E. apply filter_In in Ha, Hb.
      apply propertyKey_inj_same_kind; [|assumption].
      destruct Ha as [_ Ha], Hb as [_ Hb].
      apply Bool.eqb_prop in Ha, Hb; congruence.
    + now apply NoDup_filter.
  - intros key Hk. apply in_map_iff in Hk as (id & <- & Hid).
    apply filter_In in Hid as [Hid _].
    rewrite Forall_forall in R. specialize (R id Hid). unfold resolves, dict_at in R.
    destruct (lookup nodes (propertyKey id)) eqn:E; [|congruence].
    eapply lookup_Some_name; eassumption.
Qed.

(** At most two ids read each property, so a set of the traversal has at
    most twice as many members as the dictionary has names. *)
Lemma traversedSet_bound (t : IdSet) :
  traversedSet t -> (List.length t <= 2 * List.length (propertyNames nodes))%nat.
Proof.
  intro W.
  pose proof (same_kind_bound true t W) as Hn.
  pose proof (same_kind_bound false t W) as Hs.
  pose proof (filter_split_length (fun id => Bool.eqb (isNumber id) true) t) as E.
  assert (Eq : filter (fun x => negb (Bool.eqb (isNumber x) true)) t
               = filter (fun id => Bool.eqb (isNumber id) false) t).
  { apply filter_ext; intro a; now destruct (isNumber a). }
  cbv beta in E. rewrite Eq in E. lia.
Qed.


(** The traversal as a derivation: what [traverseNodes] does at an id of
    its list, without the fuel. *)
Inductive Traversal : list GltfId -> IdSet -> list GltfNode -> TraverseEnd -> Prop :=
| Traversal_done t :
    Traversal [] t [] (Exhausted t)
| Traversal_cycle id rest t :
    Set_has t id = true ->
    Traversal (id :: rest) t [] (CycleDetected id t)
| Traversal_missing id rest t ys e :
    Set_has t id = false -> dict_at nodes id = None ->
    Traversal rest t ys e ->
    Traversal (id :: rest) t ys e
| Traversal_leaf id rest t node ys e :
    Set_has t id = false -> dict_at nodes id = Some node ->
    children node = None ->
    Traversal rest (Set_add t id) ys e ->
    Traversal (id :: rest) t (node :: ys) e
| Traversal_children id rest t node ch ys1 t2 ys2 e :
    Set_has t id = false -> dict_at nodes id = Some node ->
    children node = Some ch ->
    Traversal ch (Set_add t id) ys1 (Exhausted t2) ->
    Traversal rest t2 ys2 e ->
    Traversal (id :: rest) t (node :: ys1 ++ ys2) e
| Traversal_children_cycle id rest t node ch ys1 c t2 :
    Set_has t id = false -> dict_at nodes id = Some node ->
    children node = Some ch ->
    Traversal ch (Set_add t id) ys1 (CycleDetected c t2) ->
    Traversal (id :: rest) t (node :: ys1) (CycleDetected c t2).

Lemma traverseNodes_Traversal (fuel : nat) :
  forall ids t ys e,
    traverseNodes fuel ids nodes t = (ys, e) -> e <> TraverseOutOfFuel ->
    Traversal ids t ys e.
Proof.
  induction fuel as [|fuel IHf]; simpl.
  - intros ids t ys e H; injection H as <- <-; congruence.
  - induction ids as [|id rest IH]; simpl; intros t ys e H Hne.
    + injection H as <- <-; constructor.
    + destruct (Set_has t id) eqn:Hh.
      * injection H as <- <-; now constructor.
      * destruct (dict_at nodes id) as [node|] eqn:Hn.
        -- destruct (children node) as [ch|] eqn:Hc.
           ++ destruct (traverseNodes fuel ch nodes (Set_add t id)) as [ys1 e1] eqn:Hr.
              destruct e1 as [t2|c t2|].
              ** destruct (traverseLoop nodes _ rest t2) as [ys2 e2] eqn:Hl.
                 injection H as <- <-.
                 eapply Traversal_children; eauto.
                 all: try (apply IHf; [assumption | discriminate]).
              ** injection H as <- <-.
                 eapply Traversal_children_cycle; eauto.
                 all: try (apply IHf; [assumption | discriminate]).
              ** injection H as <- <-; congruence.
           ++ destruct (traverseLoop nodes _ rest (Set_add t id)) as [ys2 e2] eqn:Hl.
              injection H as <- <-.
              eapply Traversal_leaf; eauto.
        -- eapply Traversal_missing; eauto.
Qed.

(** What a derivation keeps: the set grows at its head by ids that were not
    in it and that resolve, one for each node yielded, in the order of the
    yields. *)
Lemma Traversal_grows ids t ys e :
  Traversal ids t ys e -> traversedSet t ->
  exists new,
    (match e with
     | Exhausted t' | CycleDetected _ t' => t' = new ++ t /\ traversedSet t'
     | TraverseOutOfFuel => False
     end)
    /\ map (dict_at nodes) (rev new) = map Some ys.
Proof.
  induction 1 as [t|id rest t Hh|id rest t ys e Hh Hn _ IH
                 |id rest t node ys e Hh Hn Hc _ IH
                 |id rest t node ch ys1 t2 ys2 e Hh Hn Hc _ IH1 _ IH2
                 |id rest t node ch ys1 c t2 Hh Hn Hc _ IH1]; intro W.
  - exists []; simpl; auto.
  - exists []; simpl; auto.
  - auto.
  - assert (W1 : traversedSet (Set_add t id)).
    { destruct W as [ND R]; split.
      - constructor; [now apply Set_has_false | assumption].
      - constructor; [unfold resolves; congruence | assumption]. }
    destruct (IH W1) as (new & He & Hy).
    exists (new ++ [id]); split.
    + destruct e; try (rewrite <- app_assoc; exact He); exact He.
    + rewrite rev_app_distr; simpl; rewrite Hn, Hy; reflexivity.
  - assert (W1 : traversedSet (Set_add t id)).
    { destruct W as [ND R]; split.
      - constructor; [now apply Set_has_false | assumption].
      - constructor; [unfold resolves; congruence | assumption]. }
    destruct (IH1 W1) as (new1 & [E1 W2] & Hy1).
    destruct (IH2 W2) as (new2 & He & Hy2).
    exists (new2 ++ new1 ++ [id]); split.
    + subst t2. unfold Set_add in He.
      destruct e; try (rewrite <- !app_assoc; exact He); exact He.
    + rewrite !rev_app_distr; simpl. rewrite map_app, Hn, Hy1, Hy2, map_app; reflexivity.
  - assert (W1 : traversedSet (Set_add t id)).
    { destruct W as [ND R]; split.
      - constructor; [now apply Set_has_false | assumption].
      - constructor; [unfold resolves; congruence | assumption]. }
    destruct (IH1 W1) as (new1 & [E1 W2] & Hy1).
    exists (new1 ++ [id]); split.
    + subst t2. rewrite <- app_assoc. split; [reflexivity | exact W2].
    + rewrite rev_app_distr; simpl; rewrite Hn, Hy1; reflexivity.
Qed.

Lemma traversedSet_add (t : IdSet) (id : GltfId) (node : GltfNode) :
  traversedSet t -> Set_has t id = false -> dict_at nodes id = Some node ->
  traversedSet (Set_add t id).
Proof.
  intros [ND R] Hh Hn; split.
  - constructor; [now apply Set_has_false | assumption].
  - constructor; [unfold resolves; congruence | assumption].
Qed.

Lemma Traversal_Exhausted_grows ids t ys t' :
  Traversal ids t ys (Exhausted t') -> traversedSet t ->
  traversedSet t' /\ exists new, t' = new ++ t.
Proof.
  intros H W. destruct (Traversal_grows _ _ _ _ H W) as (new & [E W'] & _).
  split; [assumption | now exists new].
Qed.

(** [later t c x]: the id [c] entered the set [t] after the id [x]. *)
Definition later (t : IdSet) (c x : GltfId) : Prop :=
  exists a b, t = a ++ x :: b /\ In c a.

Lemma later_prefix (p t : IdSet) (c x : GltfId) : later t c x -> later (p ++ t) c x.
Proof.
  intros (a & b & -> & Hc). exists (p ++ a), b; split.
  - now rewrite <- app_assoc.
  - apply in_or_app; now right.
Qed.

Lemma later_In (t : IdSet) (c x : GltfId) : later t c x -> In c t.
Proof.
  intros (a & b & -> & Hc). apply in_or_app; now left.
Qed.

Lemma NoDup_split_unique {A : Type} (x : A) (l1 l2 l1' l2' : list A) :
  NoDup (l1 ++ x :: l2) -> l1 ++ x :: l2 = l1' ++ x :: l2' -> l1 = l1'.
Proof.
  revert l1'; induction l1 as [|a l1 IH]; intros l1' ND E.
  - destruct l1' as [|a' l1']; [reflexivity|].
    simpl in E; injection E as <- E. exfalso.
    inversion ND as [|? ? Hx _]; subst. apply Hx.
    apply in_or_app; right; now left.
  - destruct l1' as [|a' l1'].
    + simpl in E; injection E as -> E. exfalso.
      inversion ND as [|? ? Hx _]; subst. apply Hx.
      apply in_or_app; right; now left.
    + simpl in E; injection E as <- E. f_equal.
      apply IH; [now inversion ND | assumption].
Qed.

Lemma later_trans (t : IdSet) (d c x : GltfId) :
  NoDup t -> later t d c -> later t c x -> later t d x.
Proof.
  intros ND (a' & b' & E' & Hd) (a & b & E & Hc).
  destruct (in_split _ _ Hc) as (a1 & a2 & ->).
  exists ((a1 ++ c :: a2)), b; split; [assumption|].
  assert (a' = a1) as ->.
  { symmetry. apply (NoDup_split_unique c a1 (a2 ++ x :: b) a' b').
    - rewrite E in ND. now rewrite <- app_assoc in ND.
    - rewrite <- E'. rewrite E. now rewrite <- app_assoc. }
  apply in_or_app; now left.
Qed.

Lemma later_irrefl (t : IdSet) (x : GltfId) : NoDup t -> ~ later t x x.
Proof.
  intros ND (a & b & -> & Hx).
  apply NoDup_remove_2 in ND. apply ND. apply in_or_app; now left.
Qed.

(** A traversal that is exhausted has put into the set every id of its
    list that resolves, and after the id of a node every child of the node
    that resolves. *)
Lemma Traversal_closed ids t ys t' :
  Traversal ids t ys (Exhausted t') -> traversedSet t ->
  exists new,
    t' = new ++ t
    /\ (forall id, In id ids -> resolves id -> In id new)
    /\ (forall x n ch c,
          In x new -> dict_at nodes x = Some n -> children n = Some ch ->
          In c ch -> resolves c -> later t' c x).
Proof.
  intro H. remember (Exhausted t') as e eqn:He. revert t' He.
  induction H as [t|id rest t Hh|id rest t ys e Hh Hn H IH
                 |id rest t node ys e Hh Hn Hc H IH
                 |id rest t node ch ys1 t2 ys2 e Hh Hn Hc H1 IH1 H2 IH2
                 |id rest t node ch ys1 c t2 Hh Hn Hc H1 IH1];
    intros t' He W; try discriminate.
  - injection He as <-. exists []; repeat split; simpl; intros; contradiction.
  - destruct (IH t' He W) as (new & E & Hroots & Hord).
    exists new; repeat split; try assumption.
    intros id0 [<-|Hin] Hr; [unfold resolves in Hr; congruence | auto].
  - pose proof (traversedSet_add t id node W Hh Hn) as W1.
    destruct (IH t' He W1) as (new & E & Hroots & Hord).
    exists (new ++ [id]); repeat split.
    + rewrite <- app_assoc; exact E.
    + intros id0 [<-|Hin] Hr; apply in_or_app; [right; now left | left; auto].
    + intros x n ch c Hx Hxn Hch Hcin Hr.
      apply in_app_or in Hx as [Hx|[<-|[]]]; [eauto|].
      congruence.
  - pose proof (traversedSet_add t id node W Hh Hn) as W1.
    destruct (Traversal_Exhausted_grows _ _ _ _ H1 W1) as [W2 _].
    destruct (IH1 t2 eq_refl W1) as (new1 & E1 & Hroots1 & Hord1).
    destruct (IH2 t' He W2) as (new2 & E2 & Hroots2 & Hord2).
    exists (new2 ++ new1 ++ [id]); repeat split.
    + rewrite E2, E1. unfold Set_add. now rewrite <- !app_assoc.
    + intros id0 [<-|Hin] Hr.
      * apply in_or_app; right; apply in_or_app; right; now left.
      * apply in_or_app; left; auto.
    + intros x n ch0 c0 Hx Hxn Hch Hcin Hr.
      apply in_app_or in Hx as [Hx|Hx]; [eauto|].
      apply in_app_or in Hx as [Hx|[<-|[]]].
      * rewrite E2. apply later_prefix. eauto.
      * assert (n = node) as -> by congruence.
        assert (ch0 = ch) as -> by congruence.
        exists (new2 ++ new1), t; split.
        -- rewrite E2, E1. unfold Set_add. now rewrite <- app_assoc.
        -- apply in_or_app; right; auto.
Qed.

(** A child that resolves is an edge of the node graph. *)
Definition edge (x y : GltfId) : Prop :=
  exists n ch, dict_at nodes x = Some n /\ children n = Some ch /\ In y ch /\ resolves y.

(** The ids a traversal from [ids] can reach. *)
Inductive reachable (ids : list GltfId) : GltfId -> Prop :=
| reachable_root id : In id ids -> resolves id -> reachable ids id
| reachable_child x y : reachable ids x -> edge x y -> reachable ids y.

(** [x] lies on a cycle of the graph. *)
Definition onCycle (x : GltfId) : Prop := clos_trans GltfId edge x x.

Lemma Traversal_no_reachable_cycle ids ys t' x :
  Traversal ids [] ys (Exhausted t') -> reachable ids x -> ~ onCycle x.
Proof.
  intros H Hreach Hcyc.
  assert (W0 : traversedSet []) by (split; constructor).
  destruct (Traversal_Exhausted_grows _ _ _ _ H W0) as [[ND _] _].
  destruct (Traversal_closed _ _ _ _ H W0) as (new & E & Hroots & Hord).
  rewrite app_nil_r in E; subst new.
  assert (Hedge : forall a b, In a t' -> edge a b -> later t' b a).
  { intros a b Ha (n & ch & Hn & Hc & Hb & Hr). eapply Hord; eassumption. }
  assert (Hin : forall y, reachable ids y -> In y t').
  { induction 1 as [id Hid Hr|a b _ IH He]; [auto|].
    eapply later_In, Hedge; eauto. }
  assert (Hpath : forall a b, clos_trans GltfId edge a b -> In a t' -> later t' b a).
  { induction 1 as [a b He|a b c _ IH1 _ IH2]; intro Ha; [auto|].
    specialize (IH1 Ha).
    eapply later_trans; [assumption | apply IH2; eapply later_In; eassumption | assumption]. }
  exact (later_irrefl t' x ND (Hpath x x Hcyc (Hin x Hreach))).
Qed.

(** The fuel is enough: with more fuel than ids the set can still take,
    the traversal ends by itself. *)
Lemma traverseNodes_enough_fuel (fuel : nat) :
  forall ids t,
    traversedSet t -> (2 * List.length (propertyNames nodes) < fuel + List.length t)%nat ->
    snd (traverseNodes fuel ids nodes t) <> TraverseOutOfFuel.
Proof.
  induction fuel as [|fuel IHf].
  - intros ids t W Hlt. pose proof (traversedSet_bound t W). lia.
  - simpl. induction ids as [|id rest IH]; simpl; intros t W Hlt; [discriminate|].
    destruct (Set_has t id) eqn:Hh; [discriminate|].
    destruct (dict_at nodes id) as [node|] eqn:Hn; [|auto].
    pose proof (traversedSet_add t id node W Hh Hn) as W1.
    destruct (children node) as [ch|] eqn:Hc.
    + assert (Hrec := IHf ch (Set_add t id) W1).
      destruct (traverseNodes fuel ch nodes (Set_add t id)) as [ys1 e1] eqn:Hr.
      simpl in Hrec.
      destruct e1 as [t2|c t2|]; simpl.
      * assert (HT : Traversal ch (Set_add t id) ys1 (Exhausted t2))
          by (eapply traverseNodes_Traversal; [eassumption | discriminate]).
        destruct (Traversal_Exhausted_grows _ _ _ _ HT W1) as [W2 (new & E)].
        assert (Hlen : (List.length t <= List.length t2)%nat).
        { rewrite E, length_app. unfold Set_add; simpl; lia. }
        specialize (IH t2 W2).
        destruct (traverseLoop nodes _ rest t2) as [ys2 e2]; simpl in *.
        apply IH; lia.
      * discriminate.
      * apply Hrec. unfold Set_add; simpl; lia.
    + specialize (IH (Set_add t id) W1).
      destruct (traverseLoop nodes _ rest (Set_add t id)) as [ys2 e2]; simpl in *.
      apply IH. unfold Set_add; simpl; lia.
Qed.

Definition resolvesb (id : GltfId) : bool := isSome (dict_at nodes id).

Definition childrenOf (node : GltfNode) : list GltfId :=
  match children node with
  | Some ch => ch
  | None => []
  end.

(** The ids a traversal meets: those of its list and the children of the
    nodes it yields.  Those that resolve are, each once, what an exhausted
    traversal has added to the set. *)
Lemma Traversal_met_once ids t ys t' :
  Traversal ids t ys (Exhausted t') ->
  exists new,
    t' = new ++ t
    /\ Permutation (filter resolvesb (ids ++ flat_map childrenOf ys)) new.
Proof.
  intro H. remember (Exhausted t') as e eqn:He. revert t' He.
  induction H as [t|id rest t Hh|id rest t ys e Hh Hn H IH
                 |id rest t node ys e Hh Hn Hc H IH
                 |id rest t node ch ys1 t2 ys2 e Hh Hn Hc H1 IH1 H2 IH2
                 |id rest t node ch ys1 c t2 Hh Hn Hc H1 IH1];
    intros t' He; try discriminate.
  - injection He as <-. exists []; split; [reflexivity | constructor].
  - destruct (IH t' He) as (new & E & P). exists new; split; [assumption|].
    simpl. unfold resolvesb at 1. now rewrite Hn.
  - destruct (IH t' He) as (new & E & P). exists (new ++ [id]); split.
    + now rewrite <- app_assoc.
    + simpl. unfold resolvesb at 1, childrenOf at 1. rewrite Hn, Hc; simpl.
      etransitivity; [apply perm_skip, P | apply Permutation_cons_append].
  - destruct (IH1 t2 eq_refl) as (new1 & E1 & P1).
    destruct (IH2 t' He) as (new2 & E2 & P2).
    exists (new2 ++ new1 ++ [id]); split.
    + rewrite E2, E1. unfold Set_add. now rewrite <- !app_assoc.
    + simpl. unfold resolvesb at 1, childrenOf at 1. rewrite Hn, Hc; simpl.
      rewrite flat_map_app, !filter_app in *.
      set (A := filter resolvesb rest) in *.
      set (B := filter resolvesb ch) in *.
      set (C := filter resolvesb (flat_map childrenOf ys1)) in *.
      set (D := filter resolvesb (flat_map childrenOf ys2)) in *.
      rewrite (app_assoc new2 new1 [id]).
      etransitivity; [|apply Permutation_cons_append].
      apply perm_skip.
      transitivity ((A ++ D) ++ (B ++ C)); [|now apply Permutation_app].
      rewrite <- (app_assoc A D), (app_assoc B C D).
      apply Permutation_app_head, Permutation_app_comm.
Qed.

Lemma Traversal_cycle_member ids t ys c t' :
  Traversal ids t ys (CycleDetected c t') -> In c t'.
Proof.
  intro H. remember (CycleDetected c t') as e eqn:He. revert He.
  induction H; intro He; try discriminate; auto.
  injection He as <- <-. now apply Set_has_In.
Qed.

End TraversalProperties.

Arguments Traversal_no_reachable_cycle {nodes ids ys t' x}.

(** ** What [GltfReader.traverseNodes] does with a node it meets twice *)

Section TraverseNodesOfReader.

Variable r : GltfReader.

Let nodes := _nodes r.

Lemma empty_traversedSet : traversedSet nodes [].
Proof. split; constructor. Qed.

Lemma GltfReader_traverseNodes_terminates (nodeIds : list GltfId) :
  snd (GltfReader_traverseNodes r nodeIds) <> TraverseOutOfFuel.
Proof.
  unfold GltfReader_traverseNodes.
  apply traverseNodes_enough_fuel; [apply empty_traversedSet|].
  unfold traverseFuel, propertyNames; rewrite length_app, length_map; simpl; lia.
Qed.

Lemma GltfReader_traverseNodes_Traversal (nodeIds : list GltfId) :
  Traversal nodes nodeIds []
    (fst (GltfReader_traverseNodes r nodeIds)) (snd (GltfReader_traverseNodes r nodeIds)).
Proof.
  apply traverseNodes_Traversal with (fuel := traverseFuel nodes).
  - unfold GltfReader_traverseNodes. now destruct (traverseNodes _ _ _ _).
  - apply GltfReader_traverseNodes_terminates.
Qed.

End TraverseNodesOfReader.

(** A reader over a document that has nothing but nodes and one scene. *)
Definition documentOfNodes (nodes : JsonObject GltfNode) (sceneNodes : list GltfId)
  : GltfDocument.t :=
  GltfDocument.mk "0" (Some (jsonObject [("0", mkScene (Some sceneNodes))]))
    (Some (jsonObject nodes)) None None None None None None None.

Definition readerOfDocument (glTF : GltfDocument.t) : GltfReader :=
  mkReader glTF 2 true false false false true false [].

Definition nodeWithChildren (ch : option (list GltfId)) : GltfNode :=
  mkNode ch [] None None None None.

(** The scenario of the specification: node 0 has the child 1, and node 1
    is a root of the scene as well. *)
Definition sharedNodeReader : GltfReader :=
  readerOfDocument
    (documentOfNodes
       [("0", nodeWithChildren (Some [IdNum 1])); ("1", nodeWithChildren None)]
       [IdNum 0; IdNum 1]).

(** The same two nodes in a document without a scene: the scene nodes are
    then the keys of [nodes], the strings ["0"] and ["1"], and the child of
    node 0 is the number [1]. *)
Definition sharedNodeByKeyReader : GltfReader :=
  readerOfDocument
    (GltfDocument.mk "" None
       (Some (jsonObject
                [("0", nodeWithChildren (Some [IdNum 1])); ("1", nodeWithChildren None)]))
       None None None None None None None).



(** ** What ends the recursions over the node graph *)

Lemma dict_get_In {T : Type} (d : JsonObject T) (k : string) (v : T) :
  dict_get d k = Some v -> In (k, v) d.
Proof.
  induction d as [|[k' v'] d IH]; simpl; [discriminate|].
  destruct (String.eqb_spec k k') as [->|_]; intro H.
  - injection H as ->. now left.
  - right; auto.
Qed.

(** What a read of a dictionary finds is a member of it or the blank value
    of what it inherits. *)
Lemma lookup_entry_or_blank {T : Type} `{Blank T} (d : GltfDictionary T) (k : string) (v : T) :
  lookup d k = Some v -> In (k, v) (entries d) \/ v = blank.
Proof.
  unfold lookup. destruct (dict_get (entries d) k) eqn:E.
  - intro H0; injection H0 as ->. left. now apply dict_get_In.
  - destruct (existsb _ _); [|discriminate]. intro H0; injection H0 as <-. now right.
Qed.

Lemma forEachFueled_runs {A S : Type} (step : S -> A -> Fueled S) (l : list A) :
  (forall a s, In a l -> step s a <> OutOfFuel) ->
  forall s, forEachFueled step l s <> OutOfFuel.
Proof.
  induction l as [|a l IH]; simpl; intros Hstep s; [discriminate|].
  pose proof (Hstep a s (or_introl eq_refl)) as Ha.
  destruct (step s a) as [[s'|e]|]; simpl; [|discriminate|congruence].
  apply IH. intros; apply Hstep; now right.
Qed.

(** No buffer view of the document has a negative [byteStride]. *)
Definition strideNotNegative (bufferView : GltfBufferViewProps.t) : Prop :=
  match GltfBufferViewProps.byteStride bufferView with
  | Some s => 0 <= s
  | None => True
  end.

Definition noNegativeStride (r : GltfReader) : Prop :=
  Forall (fun kv => strideNotNegative (snd kv)) (entries (_bufferViews r)).

Section ReadTermination.

Context {X : ExternalTypes} (sys : Collaborators X) (r : GltfReader).

Hypothesis strides : noNegativeStride r.

Lemma getBufferView_stride_positive json accessorName view :
  getBufferView r json accessorName = Return (Some view) ->
  Qle_bool (GltfBufferView.stride view) 0 = false.
Proof.
  unfold getBufferView, getBufferView_try.
  destruct json as [json|]; [|discriminate].
  destruct (if String.eqb _ "" then None else _) as [accessor|]; [|discriminate].
  destruct (GltfAccessor.bufferView accessor) as [bv|]; [|discriminate].
  destruct (dict_at (_bufferViews r) bv) as [bufferView|] eqn:Ebv; [|discriminate].
  destruct (GltfBufferViewProps.buffer bufferView) as [bufferId|]; [|discriminate].
  destruct (match dict_at (_buffers r) bufferId with
            | Some b => GltfBuffer.resolvedBuffer b
            | None => None
            end) as [bufferData|]; [|discriminate].
  destruct (dataSizeOf (GltfAccessor.componentType accessor)) as [dataSize|] eqn:Es;
    [|discriminate].
  cbn [tryCatch]. intro H. injection H as <-. cbn [GltfBufferView.stride].
  assert (Hsize : 0 < dataSize).
  { unfold dataSizeOf in Es.
    repeat match type of Es with
           | (if ?c then _ else _) = _ => destruct c
           end; try discriminate; injection Es as <-; lia. }
  assert (Hstride : strideNotNegative bufferView).
  { apply lookup_entry_or_blank in Ebv as [Hin| ->]; [|exact I].
    unfold noNegativeStride in strides. rewrite Forall_forall in strides.
    exact (strides _ Hin). }
  assert (Hpos : 0 < byteStrideOf bufferView
                       (componentCountOf (GltfAccessor.type accessor)) dataSize).
  { unfold byteStrideOf, strideNotNegative, truthyZ in *.
    destruct (GltfBufferViewProps.byteStride bufferView) as [s|].
    - destruct (Z.eqb_spec s 0) as [->|Hne]; cbn [negb].
      + unfold componentCountOf. repeat destruct (String.eqb _ _); lia.
      + lia.
    - unfold componentCountOf. repeat destruct (String.eqb _ _); lia. }
  unfold Qle_bool. cbn [Qnum Qden]. apply Z.leb_gt. lia.
Qed.

Lemma readVertices_ends mesh primitive pseudoRtcBias :
  readVertices sys r mesh primitive pseudoRtcBias <> OutOfFuel.
Proof.
  unfold readVertices.
  destruct (getBufferView r _ "POSITION") as [[view|]|e] eqn:Ev; cbn [bindFueled];
    try discriminate.
  pose proof (getBufferView_stride_positive _ _ _ Ev) as Hs.
  destruct (GltfDataType.Float =? GltfBufferView.type view).
  - destruct (GltfBufferView.toBufferData view GltfDataType.Float) as [[buffer|]|e];
      cbn [bindFueled]; try discriminate.
    unfold rangeLoopEnds. rewrite Hs.
    destruct (elementsOf (GltfBufferData.buffer buffer)); discriminate.
  - destruct (negb _); [discriminate|].
    destruct (match GltfAccessor.WEB3D_quantized_attributes _ with
              | Some q => decodedMin q | None => None end); [|discriminate].
    destruct (match GltfAccessor.WEB3D_quantized_attributes _ with
              | Some q => decodedMax q | None => None end); [|discriminate].
    destruct (GltfBufferView.toBufferData view GltfDataType.UnsignedShort)
      as [[[[ | | | ] ?]|]|e]; cbn [bindFueled]; discriminate.
Qed.

Lemma readMeshPrimitive_ends primitive featureTable pseudoRtcBias :
  readMeshPrimitive sys r primitive featureTable pseudoRtcBias <> OutOfFuel.
Proof.
  unfold readMeshPrimitive.
  destruct (if 0 <? _ then _ else _) as [material|]; [|discriminate].
  destruct (createDisplayParams sys r material _) as [[displayParams|]|e];
    cbn [bindFueled]; try discriminate.
  destruct (primitiveTypeOf _) as [primitiveType|]; [|discriminate].
  destruct (readBufferData16 r _ "_COLORINDEX") as [colorIndices|e];
    cbn [bindFueled]; try discriminate.
  destruct (GltfMeshPrimitive.KHR_draco_mesh_compression primitive) as [draco|].
  - destruct (readDracoMeshPrimitive sys r _ draco); discriminate.
  - match goal with
    | |- context [readVertices sys r ?m primitive pseudoRtcBias] =>
        pose proof (readVertices_ends m primitive pseudoRtcBias) as Hv;
        destruct (readVertices sys r m primitive pseudoRtcBias) as [[[ok mesh']|e]|]
    end; cbn [bindFueled]; try discriminate; [|congruence].
    destruct (negb ok); discriminate.
Qed.

Lemma readPrimitiveList_ends prims featureTable thisTransform thisBias acc :
  readPrimitiveList sys r prims featureTable thisTransform thisBias acc <> OutOfFuel.
Proof.
  unfold readPrimitiveList. apply forEachFueled_runs.
  intros primitive [meshes computed] _.
  pose proof (readMeshPrimitive_ends primitive featureTable thisBias) as Hp.
  destruct (readMeshPrimitive sys r primitive featureTable thisBias) as [[[mesh|]|e]|];
    cbn [bindFueled]; try discriminate. congruence.
Qed.

Lemma readMeshPrimitives_ends computed node featureTable thisTransform thisBias :
  readMeshPrimitives sys r computed node featureTable thisTransform thisBias <> OutOfFuel.
Proof.
  unfold readMeshPrimitives. apply forEachFueled_runs.
  intros meshKey acc _.
  destruct (dict_at (_meshes r) meshKey) as [nodeMesh|]; [|discriminate].
  destruct (primitives nodeMesh); [|discriminate].
  apply readPrimitiveList_ends.
Qed.

Lemma readNodeMeshes_ends st node featureTable thisTransform thisBias instances :
  readNodeMeshes sys r st node featureTable thisTransform thisBias instances <> OutOfFuel.
Proof.
  unfold readNodeMeshes. apply forEachFueled_runs.
  intros meshKey st0 _.
  destruct (dict_at (_meshes r) meshKey) as [nodeMesh|]; [|discriminate].
  destruct (isSome (primitives nodeMesh)); [|discriminate].
  pose proof (readMeshPrimitives_ends (_computedContentRange st0) node featureTable
                thisTransform thisBias) as Hm.
  destruct (readMeshPrimitives sys r _ node featureTable thisTransform thisBias)
    as [[[meshes computed]|e]|]; cbn [bindFueled]; try discriminate. congruence.
Qed.

(** Without a negative stride every call of the node recursion ends,
    whatever the depth the call stack allows. *)
Lemma readNodeAndCreateGraphics_ends (stackLimit : nat) :
  forall st node featureTable instances pseudoRtcBias,
    readNodeAndCreateGraphics sys stackLimit r st node featureTable instances pseudoRtcBias
    <> OutOfFuel.
Proof.
  induction stackLimit as [|n IH]; intros st node featureTable instances pseudoRtcBias;
    [discriminate|].
  cbn [readNodeAndCreateGraphics].
  match goal with
  | |- context [readNodeMeshes sys r ?s node featureTable ?t ?b instances] =>
      pose proof (readNodeMeshes_ends s node featureTable t b instances) as Hm;
      destruct (readNodeMeshes sys r s node featureTable t b instances) as [[st1|e]|]
  end; cbn [bindFueled]; try discriminate; [|congruence].
  destruct (children node) as [ch|]; cbn [bindFueled]; [|discriminate].
  match goal with
  | |- context [forEachFueled ?step ch st1] =>
      assert (Hrun : forEachFueled step ch st1 <> OutOfFuel)
  end.
  { apply forEachFueled_runs. intros id s _.
    destruct (dict_at (_nodes r) id) as [child|]; [|discriminate].
    pose proof (IH s child featureTable instances None) as Hc.
    destruct (readNodeAndCreateGraphics sys n r s child featureTable instances None)
      as [[[status st']|e]|]; cbn [bindFueled]; try discriminate. congruence. }
  destruct (forEachFueled _ ch st1) as [[st2|e]|]; cbn [bindFueled];
    try discriminate. congruence.
Qed.

Lemma readSceneNodes_runs
    (readNode : @ReadState X -> GltfNode -> Fueled (TileReadStatus * @ReadState X))
    (nodes : GltfDictionary GltfNode) (sceneNodes : list GltfId) :
  (forall id node st, In id sceneNodes -> dict_at nodes id = Some node ->
                      readNode st node <> OutOfFuel) ->
  forall readStatus st,
    readSceneNodes readNode nodes sceneNodes readStatus st <> OutOfFuel.
Proof.
  induction sceneNodes as [|id rest IH]; simpl; intros Hread readStatus st; [discriminate|].
  destruct (dict_at nodes id) as [node|] eqn:Hn.
  - pose proof (Hread id node st (or_introl eq_refl) Hn) as Hr.
    destruct (readNode st node) as [[[status st']|e]|]; simpl; [|discriminate|congruence].
    destruct status; simpl; try discriminate.
    apply IH. intros; eapply Hread; eauto.
  - apply IH. intros; eapply Hread; eauto.
Qed.

(** [read] ends on every document without a negative stride: the walk of
    [resolveResources] ends, and so does every call of the node
    recursion. *)
Lemma read_terminates stackLimit isLeaf featureTable contentRange transform :
  read sys stackLimit r isLeaf featureTable contentRange transform <> OutOfFuel.
Proof.
  unfold read, traverseScene.
  pose proof (GltfReader_traverseNodes_terminates r (_sceneNodes r)) as Hfuel.
  destruct (snd (GltfReader_traverseNodes r (_sceneNodes r))) as [t'|c t'|];
    [|discriminate|congruence].
  unfold readGltfAndCreateGraphics.
  destruct (_isCanceled r); [discriminate|].
  unfold readScene.
  match goal with
  | |- context [readSceneNodes ?f ?n ?ids ?s0 ?st0] =>
      assert (Hrun : readSceneNodes f n ids s0 st0 <> OutOfFuel);
      [apply readSceneNodes_runs|];
      [|destruct (readSceneNodes f n ids s0 st0) as [[[[status st] returned]|e]|]]
  end.
  - intros id node st _ _. apply readNodeAndCreateGraphics_ends.
  - simpl. destruct returned; [discriminate|].
    destruct (renderGraphicList st); discriminate.
  - discriminate.
  - congruence.
Qed.

End ReadTermination.

(** ** A renderer to compute with

    Collaborators that keep of each graphic only how it was put together;
    they serve where a property is checked on a concrete document. *)

#[local] Unset Elimination Schemes.
Inductive SymbolicGraphic : Type :=
| PrimitiveGraphic
| GraphicList (graphics : list SymbolicGraphic)
| GraphicBranch (g : SymbolicGraphic)
| GraphicBatch (g : SymbolicGraphic).
#[local] Set Elimination Schemes.

Definition symbolicTypes : ExternalTypes :=
  mkExternalTypes SymbolicGraphic unit unit unit unit unit unit unit unit unit unit unit unit.

Definition symbolicSystem : Collaborators symbolicTypes :=
  @mkCollaborators symbolicTypes
    (fun _ => None) (fun _ _ => tt) (fun _ => true) (fun _ => Some tt) (fun _ _ => tt)
    (fun _ _ => Some tt) (fun _ => true) (fun _ => tt) (fun _ => tt) tt (fun _ => tt)
    tt (fun _ _ => tt) (fun _ _ => tt) (fun _ _ => tt) (fun _ _ => tt) (fun _ => tt)
    (fun _ _ x y z =>
       (match x with Some v => v | None => 0 end,
        match y with Some v => v | None => 0 end,
        match z with Some v => v | None => 0 end))
    GraphicList (fun g _ => GraphicBranch g) (fun g _ _ => GraphicBatch g)
    (fun _ => None) (fun _ => None) (fun _ _ => None) (fun _ => false)
    (fun _ => tt) (fun _ => false) (fun _ _ => Some PrimitiveGraphic) (fun _ => tt)
    (fun _ _ => tt) (fun _ _ => tt)
    (fun _ _ _ => Return None) (fun _ _ => ([], tt))
    (fun _ mesh _ _ => Return (true, mesh)) (fun _ mesh _ _ => Return (true, mesh))
    (fun mesh => Return (true, mesh)) (fun _ mesh _ _ _ => Return (true, mesh)).

Definition emptyReadState : @ReadState symbolicTypes := mkReadState [] [] None.

(** A node that is its own child. *)
Definition selfLoopNode : GltfNode := nodeWithChildren (Some [IdNum 0]).

Definition selfLoopReader : GltfReader :=
  readerOfDocument (documentOfNodes [("0", selfLoopNode)] [IdNum 0]).

(** Nodes 1 and 2 are each the child of the other, and the scene has the
    childless node 0 alone. *)
Definition unreachableCycleReader : GltfReader :=
  readerOfDocument
    (documentOfNodes
       [("0", nodeWithChildren None);
        ("1", nodeWithChildren (Some [IdNum 2]));
        ("2", nodeWithChildren (Some [IdNum 1]))]
       [IdNum 0]).

(** One node with one mesh of one primitive; its positions are three
    floats, read through a buffer view whose [byteStride] is [-4]. *)
Definition negativeStrideReader : GltfReader :=
  readerOfDocument
    (GltfDocument.mk "0"
       (Some (jsonObject [("0", mkScene (Some [IdNum 0]))]))
       (Some (jsonObject [("0", mkNode None [IdNum 0] None None None None)]))
       (Some (jsonObject
                [("0", mkMesh (Some [GltfMeshPrimitive.mk [("POSITION", IdNum 0)]
                                       None None None None None]))]))
       (Some (jsonObject
                [("0", GltfAccessor.mk (Some (IdNum 0)) None GltfDataType.Float 1 "VEC3"
                         None)]))
       (Some (jsonObject
                [("0", GltfBufferViewProps.mk (Some (IdNum 0)) None None (Some (-4)))]))
       (Some (jsonObject
                [("0", GltfBuffer.mk None
                         (Some (mkUint8Array 0 [0; 0; 0; 0; 0; 0; 0; 0; 0; 0; 0; 0;
                                                0; 0; 0; 0])))]))
       None None None).


Section CyclesAndTermination.

Context {X : ExternalTypes} (sys : Collaborators X).

(** A cycle of the node graph can be reached from the id. *)
Definition leadsToCycle (nodes : GltfDictionary GltfNode) (x : GltfId) : Prop :=
  exists c, clos_refl_trans GltfId (edge nodes) x c /\ onCycle nodes c.

(** Calls of the node recursion can be nested [depth] deep under the call
    for the node. *)
Fixpoint nests (nodes : GltfDictionary GltfNode) (depth : nat) (node : GltfNode) : Prop :=
  match depth with
  | O => True
  | S depth' =>
      exists ch id child,
        children node = Some ch /\ In id ch /\ dict_at nodes id = Some child
        /\ nests nodes depth' child
  end.

Lemma leadsToCycle_step (nodes : GltfDictionary GltfNode) (x : GltfId) :
  leadsToCycle nodes x -> exists y, edge nodes x y /\ leadsToCycle nodes y.
Proof.
  intros (c & Hxc & Hcyc). apply clos_rt_rt1n in Hxc.
  destruct Hxc as [|y z Hxy Hyz].
  - pose proof Hcyc as Hc. apply clos_trans_t1n in Hc.
    inversion Hc as [y He|y z He Hrest]; subst.
    + exists x; split; [assumption|]. exists x; split; [apply rt_refl | assumption].
    + exists y; split; [assumption|]. exists x; split; [|assumption].
      apply clos_t_clos_rt. now apply clos_t1n_trans.
  - exists y; split; [assumption|]. exists z; split; [|assumption].
    now apply clos_rt1n_rt.
Qed.

Lemma leadsToCycle_nests (nodes : GltfDictionary GltfNode) (depth : nat) :
  forall x node,
    leadsToCycle nodes x -> dict_at nodes x = Some node -> nests nodes depth node.
Proof.
  induction depth as [|d IH]; intros x node Hx Hn; [exact I|].
  destruct (leadsToCycle_step nodes x Hx) as (y & (n & ch & Hn' & Hch & Hin & Hr) & Hy).
  assert (n = node) as -> by congruence.
  unfold resolves in Hr. destruct (dict_at nodes y) as [child|] eqn:Ey; [|congruence].
  exists ch, y, child. repeat split; try assumption. eapply IH; eassumption.
Qed.

(** A loop does not come to its end when one of its steps never does. *)
Lemma forEachFueled_blocked {A S : Type} (step : S -> A -> Fueled S) (l : list A) (a : A) :
  In a l -> (forall s s', step s a <> Ran (Return s')) ->
  forall s s', forEachFueled step l s <> Ran (Return s').
Proof.
  induction l as [|b l IH]; [contradiction|]. intros Hin Hblock s s'. simpl.
  destruct Hin as [->|Hin].
  - pose proof (Hblock s) as Hb.
    destruct (step s a) as [[s1|e]|]; cbn [bindFueled]; try discriminate.
    exfalso. now apply (Hb s1).
  - destruct (step s b) as [[s1|e]|]; cbn [bindFueled]; try discriminate.
    now apply IH.
Qed.

(** The recursion returns no status when calls can be nested under it as
    deep as the call stack allows. *)
Lemma readNodeAndCreateGraphics_overflows (r : GltfReader) (stackLimit : nat) :
  forall node st featureTable instances pseudoRtcBias status st',
    nests (_nodes r) stackLimit node ->
    readNodeAndCreateGraphics sys stackLimit r st node featureTable instances pseudoRtcBias
    <> Ran (Return (status, st')).
Proof.
  induction stackLimit as [|n IH];
    intros node st featureTable instances pseudoRtcBias status st' Hnest; [discriminate|].
  destruct Hnest as (ch & id & child & Hch & Hin & Hchild & Hnest).
  cbn [readNodeAndCreateGraphics].
  destruct (readNodeMeshes sys r _ node featureTable _ _ instances) as [[st1|e]|];
    cbn [bindFueled]; try discriminate.
  rewrite Hch.
  match goal with
  | |- context [forEachFueled ?step ch st1] =>
      pose proof (forEachFueled_blocked step ch id Hin) as Hblocked
  end.
  match type of Hblocked with
  | ?P -> _ => assert (Hstep : P)
  end.
  { intros s s'. rewrite Hchild.
    pose proof (fun status st2 =>
                  IH child s featureTable instances None status st2 Hnest) as Hc.
    destruct (readNodeAndCreateGraphics sys n r s child featureTable instances None)
      as [[[status1 st2]|e]|]; cbn [bindFueled]; try discriminate.
    exfalso. now apply (Hc status1 st2). }
  specialize (Hblocked Hstep st1).
  destruct (forEachFueled _ ch st1) as [[st2|e]|]; cbn [bindFueled]; try discriminate.
  exfalso. now apply (Hblocked st2).
Qed.


End CyclesAndTermination.

(** ** Conversion of buffer data *)

(** The component types a consumer asks for: [readBufferData8], [16], [32]
    and [Float]. *)
Definition requestedTypes : list GltfDataType.t :=
  [GltfDataType.UnsignedByte; GltfDataType.UnsignedShort;
   GltfDataType.UInt32; GltfDataType.Float].

(** The component type whose typed array a [GltfDataBuffer] is. *)
Definition storedAs (b : GltfDataBuffer) : GltfDataType.t :=
  match b with
  | Uint8Elements _ => GltfDataType.UnsignedByte
  | Uint16Elements _ => GltfDataType.UnsignedShort
  | Uint32Elements _ => GltfDataType.UInt32
  | Float32Elements _ => GltfDataType.Float
  end.

(** A request for fewer bytes a component than the data is stored in. *)
Definition narrowing (actualType expectedType : GltfDataType.t) : Prop :=
  exists stored requested,
    dataSizeOf actualType = Some stored
    /\ dataSizeOf expectedType = Some requested
    /\ requested < stored.

(** Case analysis on the tests of a component type against the constants
    of [GltfDataType]. *)
Ltac type_cases :=
  unfold GltfDataType.UnsignedByte, GltfDataType.UnsignedShort,
    GltfDataType.UInt32, GltfDataType.Float in *;
  repeat match goal with
         | H : context [Z.eqb ?a ?b] |- _ => destruct (Z.eqb_spec a b)
         | |- context [Z.eqb ?a ?b] => destruct (Z.eqb_spec a b)
         end;
  simpl in *;
  repeat match goal with
         | H : Some _ = Some _ |- _ => injection H as H
         end;
  subst; try discriminate; try lia.

Lemma createDataBuffer_storedAs bytes actualType b :
  GltfBufferData.createDataBuffer bytes actualType = Return (Some b) ->
  storedAs b = actualType.
Proof.
  unfold GltfBufferData.createDataBuffer, typedArrayOver.
  destruct (Z.eqb_spec actualType GltfDataType.UnsignedByte) as [->|_];
    [intro H; injection H as <-; reflexivity|].
  destruct (Z.eqb_spec actualType GltfDataType.UnsignedShort) as [->|_];
    [destruct (_ =? 0); intro H; [injection H as <-; reflexivity | discriminate]|].
  destruct (Z.eqb_spec actualType GltfDataType.UInt32) as [->|_];
    [destruct (_ =? 0); intro H; [injection H as <-; reflexivity | discriminate]|].
  destruct (Z.eqb_spec actualType GltfDataType.Float) as [->|_];
    [destruct (_ =? 0); intro H; [injection H as <-; reflexivity | discriminate]|].
  discriminate.
Qed.



(** ** Resolution of buffer views *)

Section BufferViewResolution.

Variable r : GltfReader.

(** The lookups of [getBufferView], one after the other. *)
Definition accessorNamed (json : option (JsonObject GltfId)) (accessorName : string)
  : option GltfAccessor.t :=
  match json with
  | Some json =>
      match dict_get json accessorName with
      | Some id =>
          if String.eqb (propertyKey id) "" then None
          else lookup (_accessors r) (propertyKey id)
      | None => None
      end
  | None => None
  end.

Definition bufferViewOf (accessor : GltfAccessor.t) : option GltfBufferViewProps.t :=
  match GltfAccessor.bufferView accessor with
  | Some id => dict_at (_bufferViews r) id
  | None => None
  end.

Definition resolvedBufferOf (bufferView : GltfBufferViewProps.t) : option Uint8Array :=
  match GltfBufferViewProps.buffer bufferView with
  | Some id =>
      match dict_at (_buffers r) id with
      | Some buffer => GltfBuffer.resolvedBuffer buffer
      | None => None
      end
  | None => None
  end.

(** An offset that is left out counts as [0]. *)
Definition orZero (v : option Z) : Z :=
  match v with
  | Some z => z
  | None => 0
  end.

(** The stride in bytes: the [byteStride] of the buffer view when it is
    there and is not [0], and the size of a tightly packed element
    otherwise. *)
Definition strideInBytes (bufferView : GltfBufferViewProps.t) (accessor : GltfAccessor.t)
    (dataSize : Z) : Z :=
  match GltfBufferViewProps.byteStride bufferView with
  | Some 0 | None => componentCountOf (GltfAccessor.type accessor) * dataSize
  | Some s => s
  end.

Lemma byteStrideOf_strideInBytes bufferView accessor dataSize :
  byteStrideOf bufferView (componentCountOf (GltfAccessor.type accessor)) dataSize
  = strideInBytes bufferView accessor dataSize.
Proof.
  unfold byteStrideOf, strideInBytes, truthyZ.
  destruct (GltfBufferViewProps.byteStride bufferView) as [[|p|p]|]; reflexivity.
Qed.

Lemma offsetOf_orZero bufferView accessor :
  offsetOf bufferView accessor
  = orZero (GltfBufferViewProps.byteOffset bufferView)
    + orZero (GltfAccessor.byteOffset accessor).
Proof.
  unfold offsetOf, truthyZ, orZero.
  destruct (GltfBufferViewProps.byteOffset bufferView) as [o1|],
           (GltfAccessor.byteOffset accessor) as [o2|]; simpl;
    repeat match goal with
           | |- context [?z =? 0] => destruct (Z.eqb_spec z 0); subst; simpl
           end; reflexivity.
Qed.

(** [subarray] and [slice] show the same bytes. *)
Lemma subarray_slice_octets a first last :
  octets (subarray a first last) = octets (slice a first last).
Proof. reflexivity. Qed.

(** The view [getBufferView] returns once its lookups have succeeded. *)
Lemma getBufferView_try_resolved json accessorName accessor bufferView bufferData dataSize :
  accessorNamed json accessorName = Some accessor ->
  bufferViewOf accessor = Some bufferView ->
  resolvedBufferOf bufferView = Some bufferData ->
  dataSizeOf (GltfAccessor.componentType accessor) = Some dataSize ->
  exists view,
    getBufferView_try r json accessorName = Return (Some view)
    /\ GltfBufferView.count view = GltfAccessor.count accessor
    /\ GltfBufferView.type view = GltfAccessor.componentType accessor
    /\ GltfBufferView.accessor view = accessor
    /\ GltfBufferView.stride view
       = (strideInBytes bufferView accessor dataSize # Z.to_pos dataSize)
    /\ octets (GltfBufferView.data view)
       = bytesBetween bufferData
           (relativeIndex (byteLength bufferData)
              (orZero (GltfBufferViewProps.byteOffset bufferView)
               + orZero (GltfAccessor.byteOffset accessor)))
           (relativeIndex (byteLength bufferData)
              (orZero (GltfBufferViewProps.byteOffset bufferView)
               + orZero (GltfAccessor.byteOffset accessor)
               + strideInBytes bufferView accessor dataSize
                 * Z.of_N (GltfAccessor.count accessor))).
Proof.
  intros Ha Hbv Hbuf Hsize.
  unfold getBufferView_try, accessorNamed, asString in *.
  destruct json as [json|]; [|discriminate].
  destruct (dict_get json accessorName) as [id|]; [|discriminate].
  destruct (String.eqb (propertyKey id) ""); [discriminate|].
  rewrite Ha. unfold bufferViewOf in Hbv.
  destruct (GltfAccessor.bufferView accessor) as [bv|]; [|discriminate].
  rewrite Hbv. unfold resolvedBufferOf in Hbuf.
  destruct (GltfBufferViewProps.buffer bufferView) as [b|]; [|discriminate].
  destruct (dict_at (_buffers r) b) as [buffer|]; [|discriminate].
  rewrite Hbuf, Hsize.
  rewrite byteStrideOf_strideInBytes, offsetOf_orZero.
  eexists; split; [reflexivity|].
  repeat split.
  destruct (0 =? Z.rem _ dataSize); reflexivity.
Qed.

End BufferViewResolution.

Section BufferViewFailures.

Variable r : GltfReader.

Lemma getBufferView_never_throws json accessorName :
  exists view, getBufferView r json accessorName = Return view.
Proof.
  unfold getBufferView, tryCatch.
  destruct (getBufferView_try r json accessorName) as [view|e]; eauto.
Qed.

Lemma getBufferView_no_accessor json accessorName :
  accessorNamed r json accessorName = None ->
  getBufferView r json accessorName = Return None.
Proof.
  unfold getBufferView, getBufferView_try, accessorNamed, asString.
  destruct json as [json|]; [|reflexivity].
  destruct (dict_get json accessorName) as [id|]; simpl.
  - destruct (String.eqb (propertyKey id) ""); [reflexivity|]. now intros ->.
  - reflexivity.
Qed.

Lemma getBufferView_unresolved json accessorName accessor :
  accessorNamed r json accessorName = Some accessor ->
  (bufferViewOf r accessor = None
   \/ exists bufferView,
        bufferViewOf r accessor = Some bufferView
        /\ (resolvedBufferOf r bufferView = None
            \/ dataSizeOf (GltfAccessor.componentType accessor) = None)) ->
  getBufferView r json accessorName = Return None.
Proof.
  intros Ha Hfail.
  unfold getBufferView, getBufferView_try, accessorNamed, asString in *.
  destruct json as [json|]; [|discriminate].
  destruct (dict_get json accessorName) as [id|]; [|discriminate].
  destruct (String.eqb (propertyKey id) ""); [discriminate|].
  rewrite Ha. unfold bufferViewOf, resolvedBufferOf in Hfail.
  destruct (GltfAccessor.bufferView accessor) as [bv|].
  - destruct (dict_at (_bufferViews r) bv) as [bufferView|].
    + destruct Hfail as [Hfail|(bufferView' & E & Hfail)]; [discriminate|].
      injection E as <-.
      destruct (GltfBufferViewProps.buffer bufferView) as [b|]; [|reflexivity].
      destruct (dict_at (_buffers r) b) as [buffer|]; [|reflexivity].
      destruct (GltfBuffer.resolvedBuffer buffer) as [bufferData|]; [|reflexivity].
      destruct Hfail as [Hfail|Hfail]; [discriminate|]. now rewrite Hfail.
    + reflexivity.
  - reflexivity.
Qed.

End BufferViewFailures.

(** A document with one buffer of four bytes, a buffer view that starts a
    hundred bytes into it, and an accessor of one unsigned byte. *)
Definition outOfRangeReader : GltfReader :=
  readerOfDocument
    (GltfDocument.mk "" None None None
       (Some (jsonObject [("0", GltfAccessor.mk (Some (IdNum 0)) None GltfDataType.UnsignedByte 1
                      "SCALAR" None)]))
       (Some (jsonObject [("0", GltfBufferViewProps.mk (Some (IdNum 0)) None (Some 100) None)]))
       (Some (jsonObject [("0", GltfBuffer.mk None (Some (mkUint8Array 0 [10; 20; 30; 40])))]))
       None None None).

(** The same with a buffer of three bytes read as unsigned shorts from
    offset four. *)
Definition misalignedReader : GltfReader :=
  readerOfDocument
    (GltfDocument.mk "" None None None
       (Some (jsonObject [("0", GltfAccessor.mk (Some (IdNum 0)) None GltfDataType.UnsignedShort 1
                      "SCALAR" None)]))
       (Some (jsonObject [("0", GltfBufferViewProps.mk (Some (IdNum 0)) None (Some 4) None)]))
       (Some (jsonObject [("0", GltfBuffer.mk None (Some (mkUint8Array 0 [10; 20; 30])))]))
       None None None).

(** C4, as stated, fails for an offset out of range: [subarray] clamps the
    range to the buffer, nothing is thrown, and [getBufferView] returns a
    view of no bytes that still counts one element.  Where the clamped view
    starts at an odd byte, reading it as shorts throws in [readBufferData],
    outside the [try] of [getBufferView]. *)
Lemma getBufferView_clamps_out_of_range_offset :
  getBufferView outOfRangeReader (Some [("POSITION", IdNum 0)]) "POSITION"
  = Return (Some (GltfBufferView.mk (mkUint8Array 4 []) 1 GltfDataType.UnsignedByte
                    (GltfAccessor.mk (Some (IdNum 0)) None GltfDataType.UnsignedByte 1
                       "SCALAR" None)
                    (1 # 1)))
  /\ readBufferData16 misalignedReader (Some [("indices", IdNum 0)]) "indices"
     = Throw RangeError.
Proof. split; reflexivity. Qed.

(** C4 (amended): [getBufferView] never throws.  It returns [undefined]
    when the accessor, the buffer view or the resolved buffer is missing and
    when the component type is not a supported one.  An offset out of range
    is no failure: once the lookups have succeeded a view is returned
    whatever the offsets are, over the requested byte range clamped to the
    buffer. *)
Theorem getBufferView_swallows_lookup_failures
    (r : GltfReader) (json : option (JsonObject GltfId)) (accessorName : string) :
  (exists view, getBufferView r json accessorName = Return view)
  /\ (accessorNamed r json accessorName = None ->
      getBufferView r json accessorName = Return None)
  /\ (forall accessor,
        accessorNamed r json accessorName = Some accessor ->
        (bufferViewOf r accessor = None ->
         getBufferView r json accessorName = Return None)
        /\ (forall bufferView,
              bufferViewOf r accessor = Some bufferView ->
              (resolvedBufferOf r bufferView = None ->
               getBufferView r json accessorName = Return None)
              /\ (dataSizeOf (GltfAccessor.componentType accessor) = None ->
                  getBufferView r json accessorName = Return None)
              /\ (forall bufferData dataSize,
                    resolvedBufferOf r bufferView = Some bufferData ->
                    dataSizeOf (GltfAccessor.componentType accessor) = Some dataSize ->
                    exists view,
                      getBufferView r json accessorName = Return (Some view)
                      /\ octets (GltfBufferView.data view)
                         = bytesBetween bufferData
                             (relativeIndex (byteLength bufferData)
                                (orZero (GltfBufferViewProps.byteOffset bufferView)
                                 + orZero (GltfAccessor.byteOffset accessor)))
                             (relativeIndex (byteLength bufferData)
                                (orZero (GltfBufferViewProps.byteOffset bufferView)
                                 + orZero (GltfAccessor.byteOffset accessor)
                                 + strideInBytes bufferView accessor dataSize
                                   * Z.of_N (GltfAccessor.count accessor)))))).
Proof.
  split; [apply getBufferView_never_throws|].
  split; [apply getBufferView_no_accessor|].
  intros accessor Ha. split.
  - intro Hbv. eapply getBufferView_unresolved; eauto.
  - intros bufferView Hbv. split; [|split].
    + intro Hbuf. eapply getBufferView_unresolved; eauto.
    + intro Hsize. eapply getBufferView_unresolved; eauto 6.
    + intros bufferData dataSize Hbuf Hsize.
      destruct (getBufferView_try_resolved r json accessorName accessor bufferView
                  bufferData dataSize Ha Hbv Hbuf Hsize)
        as (view & Htry & _ & _ & _ & _ & Hoctets).
      exists view. split; [|exact Hoctets].
      unfold getBufferView. now rewrite Htry.
Qed.

(** ** Stride, offset and length of a resolved view *)

Lemma bytesBetween_in_range (a : Uint8Array) (offset length : Z) :
  0 <= offset -> 0 <= length -> offset + length <= byteLength a ->
  bytesBetween a (relativeIndex (byteLength a) offset)
    (relativeIndex (byteLength a) (offset + length))
  = firstn (Z.to_nat length) (skipn (Z.to_nat offset) (octets a))
  /\ Z.of_nat (List.length
                 (firstn (Z.to_nat length) (skipn (Z.to_nat offset) (octets a))))
     = length.
Proof.
  intros Ho Hl Hfit. unfold bytesBetween, relativeIndex, byteLength in *.
  destruct (Z.ltb_spec offset 0); [lia|].
  destruct (Z.ltb_spec (offset + length) 0); [lia|].
  rewrite !Z.min_l by lia.
  replace (offset + length - offset) with length by lia.
  split; [reflexivity|].
  rewrite length_firstn, length_skipn. lia.
Qed.

Lemma dataSizeOf_values (type : GltfDataType.t) (dataSize : Z) :
  dataSizeOf type = Some dataSize -> dataSize = 1 \/ dataSize = 2 \/ dataSize = 4.
Proof.
  unfold dataSizeOf.
  repeat match goal with
         | |- context [Z.eqb ?a ?b] => destruct (Z.eqb a b)
         end; intro H; try discriminate; injection H as <-; auto.
Qed.

(** A document with one buffer of four bytes, a buffer view that declares
    [byteStride: 0], and an accessor of two float [VEC3] elements. *)
Definition zeroStrideReader : GltfReader :=
  readerOfDocument
    (GltfDocument.mk "" None None None
       (Some (jsonObject [("0", GltfAccessor.mk (Some (IdNum 0)) None GltfDataType.Float 2
                      "VEC3" None)]))
       (Some (jsonObject [("0", GltfBufferViewProps.mk (Some (IdNum 0)) None None (Some 0))]))
       (Some (jsonObject [("0", GltfBuffer.mk None (Some (mkUint8Array 0 [0; 0; 128; 63])))]))
       None None None).

(** C5, as stated, fails twice on one view: a [byteStride] that is there
    but is [0] is passed over for the tightly packed stride (twelve bytes,
    three elements), and the view returned holds the four bytes the buffer
    has, not stride times count. *)
Lemma getBufferView_zero_stride_and_short_buffer :
  exists view,
    getBufferView zeroStrideReader (Some [("POSITION", IdNum 0)]) "POSITION"
    = Return (Some view)
    /\ GltfBufferView.stride view = (12 # 4)
    /\ GltfBufferView.count view = 2%N
    /\ GltfBufferView.byteLength view = 4.
Proof. eexists; repeat split. Qed.

(** C5 (amended): for an accessor that resolves, the byte stride is the
    [byteStride] of the buffer view when it is there and is not [0], and
    otherwise the arity of the accessor (3 for [VEC3], 2 for [VEC2], 1 for
    anything else) times the size of a component (1, 2 or 4 bytes); the view
    records it in elements.  The byte offset is the sum of the two
    [byteOffset]s, one left out counting as [0].  The bytes of the view are
    those of the buffer between the offset and the offset plus stride times
    count, both read as [subarray] reads its arguments.  Where neither the
    offset nor the stride is negative and offset plus stride times count
    does not exceed the buffer, these are stride times count bytes, from
    the offset on. *)
Theorem getBufferView_stride_offset_length
    (r : GltfReader) (json : option (JsonObject GltfId)) (accessorName : string)
    (accessor : GltfAccessor.t) (bufferView : GltfBufferViewProps.t)
    (bufferData : Uint8Array) (dataSize : Z) :
  accessorNamed r json accessorName = Some accessor ->
  bufferViewOf r accessor = Some bufferView ->
  resolvedBufferOf r bufferView = Some bufferData ->
  dataSizeOf (GltfAccessor.componentType accessor) = Some dataSize ->
  let byteStride :=
    match GltfBufferViewProps.byteStride bufferView with
    | Some 0 | None => componentCountOf (GltfAccessor.type accessor) * dataSize
    | Some s => s
    end in
  let offset :=
    orZero (GltfBufferViewProps.byteOffset bufferView)
    + orZero (GltfAccessor.byteOffset accessor) in
  let length := byteStride * Z.of_N (GltfAccessor.count accessor) in
  exists view,
    getBufferView r json accessorName = Return (Some view)
    /\ (GltfBufferView.stride view * inject_Z dataSize == inject_Z byteStride)%Q
    /\ GltfBufferView.count view = GltfAccessor.count accessor
    /\ octets (GltfBufferView.data view)
       = bytesBetween bufferData
           (relativeIndex (byteLength bufferData) offset)
           (relativeIndex (byteLength bufferData) (offset + length))
    /\ (0 <= offset -> 0 <= byteStride -> offset + length <= byteLength bufferData ->
        GltfBufferView.byteLength view = length
        /\ octets (GltfBufferView.data view)
           = firstn (Z.to_nat length) (skipn (Z.to_nat offset) (octets bufferData)))
    /\ componentCountOf "VEC3" = 3 /\ componentCountOf "VEC2" = 2
    /\ componentCountOf "SCALAR" = 1
    /\ dataSizeOf GltfDataType.UnsignedByte = Some 1
    /\ dataSizeOf GltfDataType.UnsignedShort = Some 2
    /\ dataSizeOf GltfDataType.UInt32 = Some 4
    /\ dataSizeOf GltfDataType.Float = Some 4.
Proof.
  intros Ha Hbv Hbuf Hsize byteStride offset length.
  destruct (getBufferView_try_resolved r json accessorName accessor bufferView
              bufferData dataSize Ha Hbv Hbuf Hsize)
    as (view & Htry & Hcount & _ & _ & Hstride & Hoctets).
  fold (strideInBytes bufferView accessor dataSize) in byteStride.
  exists view. split; [unfold getBufferView; now rewrite Htry|].
  split.
  { rewrite Hstride. subst byteStride.
    destruct (dataSizeOf_values _ _ Hsize) as [-> | [-> | ->]];
      unfold Qeq; simpl; lia. }
  split; [assumption|].
  split; [exact Hoctets|].
  split; [|repeat split].
  intros Ho Hs Hfit.
  assert (Hlen : 0 <= length).
  { subst length. apply Z.mul_nonneg_nonneg; [assumption | lia]. }
  destruct (bytesBetween_in_range bufferData offset length Ho Hlen Hfit) as [E L].
  unfold GltfBufferView.byteLength. rewrite Hoctets.
  fold offset. fold byteStride. fold length. rewrite E. split; [exact L | reflexivity].
Qed.

(** Two points of three unsigned shorts, two bytes into a buffer of
    fourteen. *)
Definition packedShortsAccessor : GltfAccessor.t :=
  GltfAccessor.mk (Some (IdNum 0)) None GltfDataType.UnsignedShort 2 "VEC3" None.

Definition packedShortsView : GltfBufferViewProps.t :=
  GltfBufferViewProps.mk (Some (IdNum 0)) None (Some 2) None.

Definition packedShortsBuffer : Uint8Array :=
  mkUint8Array 0 [255; 255; 1; 0; 2; 0; 3; 0; 4; 0; 5; 0; 6; 0].

Definition packedShortsReader : GltfReader :=
  readerOfDocument
    (GltfDocument.mk "" None None None
       (Some (jsonObject [("0", packedShortsAccessor)]))
       (Some (jsonObject [("0", packedShortsView)]))
       (Some (jsonObject [("0", GltfBuffer.mk None (Some packedShortsBuffer))]))
       None None None).

Lemma getBufferView_packed_shorts :
  exists view,
    getBufferView packedShortsReader (Some [("POSITION", IdNum 0)]) "POSITION"
    = Return (Some view)
    /\ (GltfBufferView.stride view * inject_Z 2 == inject_Z (3 * 2))%Q
    /\ GltfBufferView.byteLength view = 3 * 2 * 2
    /\ octets (GltfBufferView.data view) = [1; 0; 2; 0; 3; 0; 4; 0; 5; 0; 6; 0].
Proof.
  destruct (getBufferView_stride_offset_length packedShortsReader
              (Some [("POSITION", IdNum 0)]) "POSITION"
              packedShortsAccessor packedShortsView packedShortsBuffer 2
              eq_refl eq_refl eq_refl eq_refl)
    as (view & Hview & Hstride & _ & _ & Hin & _).
  exists view. split; [exact Hview|]. split; [exact Hstride|].
  apply Hin; simpl; unfold byteLength; simpl; lia.
Defined.

(** ** Indices of a primitive that declares none *)

Section ManufacturedIndices.

Context {X : ExternalTypes} (sys : Collaborators X) (r : GltfReader).

(** Without an index accessor [readMeshIndices] looks at the length of
    [mesh.points] alone. *)
Lemma readMeshIndices_without_accessor (mesh : GltfMeshData X)
    (json : GltfMeshPrimitive.t) (pts : list Z) :
  GltfMeshPrimitive.indices json = None ->
  points mesh = Some pts ->
  readMeshIndices r mesh json
  = Return (if 0 =? Z.rem (Z.of_nat (List.length pts)) 3
            then (true, setIndices mesh (sequentialIndices (List.length pts)))
            else (false, mesh)).
Proof.
  intros Hi Hp. unfold readMeshIndices. rewrite Hi, Hp. cbn [isSome].
  now destruct (0 =? Z.rem (Z.of_nat (List.length pts)) 3).
Qed.

Lemma flat_map_triples_length {A B : Type} (f : A -> list B) (l : list A) :
  (forall a, List.length (f a) = 3%nat) ->
  List.length (flat_map f l) = (3 * List.length l)%nat.
Proof.
  intro Hf. induction l as [|a l IH]; simpl; [reflexivity|].
  rewrite length_app, Hf, IH. lia.
Qed.

(** [mesh.points] holds the coordinates: after [readVertices] has read
    float positions it is three times as long as there are points. *)
Lemma readVertices_float_points (mesh mesh' : GltfMeshData X)
    (primitive : GltfMeshPrimitive.t) (pseudoRtcBias : option (Vector3d X))
    (view : GltfBufferView.t) :
  getBufferView r (Some (GltfMeshPrimitive.attributes primitive)) "POSITION"
  = Return (Some view) ->
  GltfBufferView.type view = GltfDataType.Float ->
  readVertices sys r mesh primitive pseudoRtcBias = Ran (Return (true, mesh')) ->
  exists pts,
    points mesh' = Some pts
    /\ List.length pts = (3 * N.to_nat (GltfBufferView.count view))%nat.
Proof.
  intros Hview Htype. unfold readVertices. rewrite Hview. cbn [bindFueled].
  rewrite Htype, Z.eqb_refl.
  unfold GltfBufferView.toBufferData, GltfBufferData.create.
  rewrite Htype, Z.eqb_refl. cbn [negb andb].
  destruct (GltfBufferData.createDataBuffer (GltfBufferView.data view) GltfDataType.Float)
    as [[b|]|e]; cbn [bind bindFueled option_map]; try discriminate.
  destruct (negb (rangeLoopEnds _ _)); [discriminate|].
  intro H; injection H as <-. cbn [setPoints points GltfBufferData.count].
  eexists; split; [reflexivity|].
  rewrite flat_map_triples_length, length_seq; [reflexivity|].
  intro i. now destruct (quantizePosition sys _ _ _ _ _) as [[x y] z].
Qed.

(** So the triangles of float positions that come without indices always
    get indices, three for each point, whatever the number of points. *)
Lemma readMeshIndices_after_float_positions (mesh mesh' : GltfMeshData X)
    (primitive : GltfMeshPrimitive.t) (pseudoRtcBias : option (Vector3d X))
    (view : GltfBufferView.t) :
  getBufferView r (Some (GltfMeshPrimitive.attributes primitive)) "POSITION"
  = Return (Some view) ->
  GltfBufferView.type view = GltfDataType.Float ->
  readVertices sys r mesh primitive pseudoRtcBias = Ran (Return (true, mesh')) ->
  GltfMeshPrimitive.indices primitive = None ->
  readMeshIndices r mesh' primitive
  = Return (true, setIndices mesh'
                    (sequentialIndices (3 * N.to_nat (GltfBufferView.count view)))).
Proof.
  intros Hview Htype Hread Hi.
  destruct (readVertices_float_points _ _ _ _ _ Hview Htype Hread) as (pts & Hp & Hlen).
  rewrite (readMeshIndices_without_accessor mesh' primitive pts Hi Hp), Hlen.
  replace (Z.rem (Z.of_nat (3 * N.to_nat (GltfBufferView.count view))) 3) with 0;
    [reflexivity|].
  rewrite Nat2Z.inj_mul, Z.mul_comm. symmetry. apply Z.rem_mul. lia.
Qed.

End ManufacturedIndices.

(** Four float positions, each the point (1, 1, 1), and a triangle
    primitive over them that declares no indices. *)
Definition fourPointsReader : GltfReader :=
  readerOfDocument
    (GltfDocument.mk "" None None None
       (Some (jsonObject [("0", GltfAccessor.mk (Some (IdNum 0)) None GltfDataType.Float 4
                      "VEC3" None)]))
       (Some (jsonObject [("0", GltfBufferViewProps.mk (Some (IdNum 0)) None None None)]))
       (Some (jsonObject [("0", GltfBuffer.mk None
                      (Some (mkUint8Array 0
                               (List.concat (List.repeat [0; 0; 128; 63] 12)))))]))
       None None None).

Definition fourPointsPrimitive : GltfMeshPrimitive.t :=
  GltfMeshPrimitive.mk [("POSITION", IdNum 0)] None None None None None.

(** C6 on four points: the claim has the read fail, four not being
    divisible by three; the code reads the twelve coordinates as the number
    of points and makes twelve indices for the four points. *)
Lemma readMeshIndices_counts_coordinates :
  exists mesh,
    readMeshPrimitive symbolicSystem fourPointsReader fourPointsPrimitive None None
    = Ran (Return (Some mesh))
    /\ option_map (@List.length Z) (points mesh) = Some 12%nat
    /\ indices mesh = Some (Uint8Elements [0; 1; 2; 3; 4; 5; 6; 7; 8; 9; 10; 11]).
Proof. eexists; repeat split. Qed.

(** The width is not the smallest that holds the indices either: 255
    sequential indices fit in bytes and are given shorts. *)
Lemma sequentialIndices_255_not_narrowest :
  storedAs (sequentialIndices 255) = GltfDataType.UnsignedShort
  /\ Forall (fun i => 0 <= i < 256) (elementsOf (sequentialIndices 255)).
Proof.
  split; [reflexivity|].
  apply Forall_forall. intros i Hi.
  change (elementsOf (sequentialIndices 255))
    with (map (fun i => Z.of_nat i mod 65536) (seq 0 255)) in Hi.
  apply in_map_iff in Hi as (n & <- & Hn). apply in_seq in Hn.
  rewrite Z.mod_small; lia.
Qed.

(** ** A primitive whose position cannot be resolved *)

Lemma getBufferView_view_type (r : GltfReader) json accessorName view :
  getBufferView r json accessorName = Return (Some view) ->
  exists accessor,
    accessorNamed r json accessorName = Some accessor
    /\ GltfBufferView.type view = GltfAccessor.componentType accessor.
Proof.
  unfold getBufferView, tryCatch, getBufferView_try, accessorNamed, asString.
  destruct json as [json|]; [|discriminate].
  destruct (dict_get json accessorName) as [id|]; [|simpl; discriminate].
  destruct (String.eqb (propertyKey id) ""); [discriminate|].
  destruct (lookup (_accessors r) (propertyKey id)) as [accessor|]; [|discriminate].
  destruct (GltfAccessor.bufferView accessor) as [bv|]; [|discriminate].
  destruct (dict_at (_bufferViews r) bv) as [bufferView|]; [|discriminate].
  destruct (GltfBufferViewProps.buffer bufferView) as [b|]; [|discriminate].
  destruct (dict_at (_buffers r) b) as [buffer|]; [|discriminate].
  destruct (GltfBuffer.resolvedBuffer buffer) as [bufferData|]; [|discriminate].
  destruct (dataSizeOf (GltfAccessor.componentType accessor)) as [dataSize|];
    [|discriminate].
  intro H; injection H as <-. exists accessor; split; reflexivity.
Qed.

(** The material [readMeshPrimitive] reads a primitive with: the material
    it names, or [{ }] when it names none. *)
Definition materialOf (r : GltfReader) (primitive : GltfMeshPrimitive.t)
  : option GltfMaterial :=
  let materialName := asString (GltfMeshPrimitive.material primitive) in
  if (0 <? Z.of_nat (String.length materialName))
  then lookup (_materials r) materialName
  else Some emptyMaterial.

(** The position of a primitive cannot be resolved: no accessor is named
    by [POSITION], or its components are neither floats nor unsigned
    shorts. *)
Definition positionUnresolved (r : GltfReader) (primitive : GltfMeshPrimitive.t) : Prop :=
  match accessorNamed r (Some (GltfMeshPrimitive.attributes primitive)) "POSITION" with
  | None => True
  | Some accessor =>
      GltfAccessor.componentType accessor <> GltfDataType.Float
      /\ GltfAccessor.componentType accessor <> GltfDataType.UnsignedShort
  end.

Section UnresolvedPosition.

Context {X : ExternalTypes} (sys : Collaborators X) (r : GltfReader).

Lemma readVertices_unresolved (mesh : GltfMeshData X) (primitive : GltfMeshPrimitive.t)
    (pseudoRtcBias : option (Vector3d X)) :
  positionUnresolved r primitive ->
  readVertices sys r mesh primitive pseudoRtcBias = Ran (Return (false, mesh)).
Proof.
  intro Hun. unfold readVertices.
  destruct (getBufferView_never_throws r
              (Some (GltfMeshPrimitive.attributes primitive)) "POSITION") as (view & Hv).
  rewrite Hv. cbn [bindFueled]. destruct view as [view|]; [|reflexivity].
  destruct (getBufferView_view_type _ _ _ _ Hv) as (accessor & Ha & Ht).
  unfold positionUnresolved in Hun. rewrite Ha in Hun. destruct Hun as [Hf Hs].
  rewrite Ht.
  rewrite (proj2 (Z.eqb_neq GltfDataType.Float _)) by congruence.
  rewrite (proj2 (Z.eqb_neq GltfDataType.UnsignedShort _)) by congruence.
  reflexivity.
Qed.

(** What [readMeshPrimitive] comes to when [readVertices] answers [false]
    and the primitive is not draco-compressed: nothing, unless a step before
    [readVertices] throws. *)
Lemma readMeshPrimitive_unresolved (primitive : GltfMeshPrimitive.t)
    (featureTable : option (FeatureTable X)) (pseudoRtcBias : option (Vector3d X)) :
  positionUnresolved r primitive ->
  GltfMeshPrimitive.KHR_draco_mesh_compression primitive = None ->
  readMeshPrimitive sys r primitive featureTable pseudoRtcBias = Ran (Return None)
  \/ exists e,
       readMeshPrimitive sys r primitive featureTable pseudoRtcBias = Ran (Throw e)
       /\ ((exists material,
              materialOf r primitive = Some material
              /\ findTextureMappingFor sys r material
                   (isMaterialTransparent (_glTF r) material) = Throw e)
           \/ readBufferData16 r (Some (GltfMeshPrimitive.attributes primitive))
                "_COLORINDEX" = Throw e).
Proof.
  intros Hun Hdraco. unfold readMeshPrimitive, materialOf.
  destruct (if 0 <? Z.of_nat (String.length (asString (GltfMeshPrimitive.material primitive)))
            then lookup (_materials r) (asString (GltfMeshPrimitive.material primitive))
            else Some emptyMaterial) as [material|]; [|now left].
  unfold createDisplayParams.
  destruct (findTextureMappingFor sys r material (isMaterialTransparent (_glTF r) material))
    as [tm|e] eqn:Htm; cbn [bind bindFueled];
    [|right; exists e; split; [reflexivity | left; eauto]].
  destruct (primitiveTypeOf _) as [primitiveType|]; [|now left].
  destruct (readBufferData16 r (Some (GltfMeshPrimitive.attributes primitive)) "_COLORINDEX")
    as [ci|e] eqn:Hci; cbn [bindFueled];
    [|right; exists e; split; [reflexivity | now right]].
  rewrite Hdraco, readVertices_unresolved by assumption.
  now left.
Qed.

(** A primitive that is read as nothing leaves the meshes and the content
    range of its node as they would be without it. *)
Lemma readPrimitiveList_dropped (primitive : GltfMeshPrimitive.t)
    (featureTable : option (FeatureTable X))
    (thisTransform : option (Transform X)) (thisBias : option (Vector3d X)) :
  readMeshPrimitive sys r primitive featureTable thisBias = Ran (Return None) ->
  forall before after acc,
    readPrimitiveList sys r (before ++ primitive :: after) featureTable thisTransform
      thisBias acc
    = readPrimitiveList sys r (before ++ after) featureTable thisTransform thisBias acc.
Proof.
  intros Hnone before after. unfold readPrimitiveList.
  induction before as [|p before IH]; intros [meshes computed]; simpl.
  - rewrite Hnone. reflexivity.
  - destruct (readMeshPrimitive sys r p featureTable thisBias) as [[[mesh|]|e]|];
      cbn [bindFueled]; auto.
Qed.

(** C7 (amended): for a primitive whose position cannot be resolved,
    [readVertices] answers [false] without throwing; if the primitive is not
    draco-compressed, [readMeshPrimitive] returns nothing, unless one of the
    two steps that come before [readVertices] throws, and then
    [readMeshPrimitive] throws what that step has thrown: the texture lookup
    of its material (the renderer's, and [extractTextureId], which reads
    [techniques[ext.technique].uniforms] of a technique the document need
    not have), or the read of its colour indices (a [RangeError] for a view
    clamped to an odd offset); and a primitive that is read as nothing adds
    no mesh to the meshes of its node.  (The positions of a draco-compressed
    primitive come from the decoded mesh, not from the accessor.) *)
Theorem unresolved_position_drops_primitive (primitive : GltfMeshPrimitive.t)
    (featureTable : option (FeatureTable X)) (pseudoRtcBias : option (Vector3d X)) :
  positionUnresolved r primitive ->
  (forall mesh,
     readVertices sys r mesh primitive pseudoRtcBias = Ran (Return (false, mesh)))
  /\ (GltfMeshPrimitive.KHR_draco_mesh_compression primitive = None ->
      readMeshPrimitive sys r primitive featureTable pseudoRtcBias = Ran (Return None)
      \/ exists e,
           readMeshPrimitive sys r primitive featureTable pseudoRtcBias = Ran (Throw e)
           /\ ((exists material,
                  materialOf r primitive = Some material
                  /\ findTextureMappingFor sys r material
                       (isMaterialTransparent (_glTF r) material) = Throw e)
               \/ readBufferData16 r (Some (GltfMeshPrimitive.attributes primitive))
                    "_COLORINDEX" = Throw e))
  /\ (readMeshPrimitive sys r primitive featureTable pseudoRtcBias = Ran (Return None) ->
      forall thisTransform before after acc,
        readPrimitiveList sys r (before ++ primitive :: after) featureTable
          thisTransform pseudoRtcBias acc
        = readPrimitiveList sys r (before ++ after) featureTable thisTransform
            pseudoRtcBias acc).
Proof.
  intro Hun. split; [|split].
  - intro mesh. now apply readVertices_unresolved.
  - intro Hdraco. now apply readMeshPrimitive_unresolved.
  - intros Hnone thisTransform. now apply readPrimitiveList_dropped.
Qed.

End UnresolvedPosition.

(** The one mesh data of the symbolic renderer before anything is read
    into it. *)
Definition blankMeshData : GltfMeshData symbolicTypes := @newMeshData symbolicTypes tt.

(** A primitive that names no [POSITION] accessor. *)
Definition noPositionPrimitive : GltfMeshPrimitive.t :=
  GltfMeshPrimitive.mk [] None None None None None.

Lemma readVertices_without_position_accessor :
  positionUnresolved fourPointsReader noPositionPrimitive
  /\ readVertices symbolicSystem fourPointsReader blankMeshData noPositionPrimitive None
     = Ran (Return (false, blankMeshData))
  /\ readMeshPrimitive symbolicSystem fourPointsReader noPositionPrimitive None None
     = Ran (Return None).
Proof.
  assert (Hun : positionUnresolved fourPointsReader noPositionPrimitive) by exact I.
  destruct (unresolved_position_drops_primitive symbolicSystem fourPointsReader
              noPositionPrimitive None None Hun) as (Hv & Hp & _).
  split; [exact Hun|]. split; [apply Hv|].
  destruct (Hp eq_refl) as [Hnone|(e & Hthrow & _)]; [exact Hnone | discriminate Hthrow].
Defined.

(** A draco-compressed triangle whose primitive names no [POSITION]
    accessor: the extension names the buffer view of the compressed
    bytes. *)
Definition dracoExtension : DracoMeshCompression := mkDracoMeshCompression 7 (IdNum 0).

Definition dracoPrimitive : GltfMeshPrimitive.t :=
  GltfMeshPrimitive.mk [] None None None (Some dracoExtension) None.

(** The mesh the decoder makes of the compressed bytes. *)
Definition dracoTriangle : DracoMesh :=
  mkDracoMesh "triangle-list" (Some [0; 1; 2])
    (Some [0; 0; 0; 1; 0; 0; 0; 1; 0]%Q) None None None None.

(** The buffer view of the compressed bytes and their resolved buffer. *)
Definition dracoBufferViews : option (GltfDictionary GltfBufferViewProps.t) :=
  Some (jsonObject [("0", GltfBufferViewProps.mk (Some (IdNum 0)) (Some 4) None None)]).

Definition dracoBuffers : option (GltfDictionary GltfBuffer.t) :=
  Some (jsonObject [("0", GltfBuffer.mk None (Some (mkUint8Array 0 [68; 82; 65; 67])))]).

(** The reader of the document before its resources are resolved: one
    node, its mesh of the one draco primitive, and the buffer view and the
    resolved buffer of the compressed bytes. *)
Definition dracoDocumentReader : GltfReader :=
  readerOfDocument
    (GltfDocument.mk "0" (Some (jsonObject [("0", mkScene (Some [IdNum 0]))]))
       (Some (jsonObject [("0", mkNode None [IdNum 0] None None None None)]))
       (Some (jsonObject [("0", mkMesh (Some [dracoPrimitive]))]))
       None dracoBufferViews dracoBuffers None None None).

(** [DracoLoader.parse] on bytes that are the encoding of the triangle;
    the decoder is not under src, and what the bytes are does not count
    here. *)
Definition triangleLoader (bytes : Uint8Array) : option DracoMesh := Some dracoTriangle.

(** The reader after [resolveResources]. *)
Definition dracoReader : GltfReader := resolveDracoMeshes triangleLoader dracoDocumentReader.

(** A primitive without [POSITION] whose colour indices are read through
    the accessor of [misalignedReader]: unsigned shorts from offset four of
    a buffer of three bytes. *)
Definition colorIndexPrimitive : GltfMeshPrimitive.t :=
  GltfMeshPrimitive.mk [("_COLORINDEX", IdNum 0)] None None None None None.

(** C7, as stated, fails in two ways.  A draco-compressed primitive names
    no [POSITION] accessor, and once [resolveResources] has decoded its
    bytes it is read as a mesh all the same, which [read] hands to the
    renderer.  And a primitive without position does throw when its colour
    indices, which are read before its vertices, lie in a view that
    [subarray] has clamped to an odd offset. *)
Lemma unresolved_position_read_as_mesh_or_thrown :
  (dracoExtensionsOf dracoDocumentReader = [dracoExtension]
   /\ _dracoMeshes dracoReader = [(7%nat, dracoTriangle)]
   /\ positionUnresolved dracoReader dracoPrimitive
   /\ readMeshPrimitive symbolicSystem dracoReader dracoPrimitive None None
      = Ran (Return (Some blankMeshData))
   /\ read symbolicSystem 2 dracoReader true None None None
      = Ran (Return (@mkResult symbolicTypes Success true (Some tt) (Some PrimitiveGraphic))))
  /\ (positionUnresolved misalignedReader colorIndexPrimitive
      /\ GltfMeshPrimitive.KHR_draco_mesh_compression colorIndexPrimitive = None
      /\ readMeshPrimitive symbolicSystem misalignedReader colorIndexPrimitive None None
         = Ran (Throw RangeError)).
Proof. repeat split. Qed.

(** ** The status of a read *)

Section ReadStatus.

Context {X : ExternalTypes} (sys : Collaborators X) (r : GltfReader).

Lemma readNodeAndCreateGraphics_Success stackLimit st node featureTable instances bias
    status st' :
  readNodeAndCreateGraphics sys stackLimit r st node featureTable instances bias
  = Ran (Return (status, st')) ->
  status = Success.
Proof.
  destruct stackLimit as [|stackLimit]; [discriminate|]. simpl.
  destruct (readNodeMeshes sys r _ node featureTable _ _ instances) as [[st1|e]|];
    cbn [bindFueled]; try discriminate.
  match goal with
  | |- context [bindFueled ?c _] => destruct c as [[st2|e]|]
  end; cbn [bindFueled]; try discriminate.
  intro H; now injection H as <- _.
Qed.

(** The loop over the scene nodes is never left by its [return]; its status
    is [Success] as soon as one node was read, and where no node was read
    the state is the one it started from. *)
Lemma readSceneNodes_status
    (readNode : @ReadState X -> GltfNode -> Fueled (TileReadStatus * @ReadState X))
    (nodes : GltfDictionary GltfNode) :
  (forall st node status st',
     readNode st node = Ran (Return (status, st')) -> status = Success) ->
  forall sceneNodes status0 st0 status st returned,
    readSceneNodes readNode nodes sceneNodes status0 st0
    = Ran (Return (status, st, returned)) ->
    returned = false /\ (status = Success \/ (status = status0 /\ st = st0)).
Proof.
  intro Hok. induction sceneNodes as [|id rest IH]; simpl;
    intros status0 st0 status st returned H.
  - injection H as <- <- <-. auto.
  - destruct (dict_at nodes id) as [node|]; [|eauto].
    destruct (readNode st0 node) as [[[status1 st1]|e]|] eqn:Hr;
      cbn [bindFueled] in H; try discriminate.
    rewrite (Hok _ _ _ _ Hr) in H. simpl in H.
    destruct (IH _ _ _ _ _ H) as [Hret [Hs|[Hs _]]]; auto.
Qed.

Lemma readScene_status stackLimit featureTable contentRange bias instances status st
    returned :
  readScene sys stackLimit r featureTable contentRange bias instances
  = Ran (Return (status, st, returned)) ->
  returned = false /\ (renderGraphicList st <> [] -> status = Success).
Proof.
  intro H. unfold readScene in H.
  apply readSceneNodes_status in H.
  - destruct H as [Hret [Hs|[_ ->]]]; split; auto. simpl; congruence.
  - intros st1 node status1 st1'. apply readNodeAndCreateGraphics_Success.
Qed.

(** C8 (amended): a read that is not canceled and in which the reading of
    the scene nodes returns comes to [InvalidTileData], without a graphic,
    exactly when no graphic at all was produced, and to [Success]
    otherwise, whatever primitives were read as nothing on the way; the
    graphic it then returns is made of all the graphics produced, in their
    order: the one graphic, or the list of them, in a batch when there is a
    feature table, in a branch when the tile has a transform, and with it
    the content range given or computed.  An exception thrown while a node
    is read is the outcome of the read, whatever graphics were produced
    before it, and so is a loop that never ends. *)
Theorem read_fails_only_without_graphics (stackLimit : nat) (isLeaf : bool)
    (featureTable : option (FeatureTable X)) (contentRange : option (Range3d X))
    (transformToRoot : option (Transform X)) (pseudoRtcBias : option (Vector3d X))
    (instances : option (InstancedGraphicParams X)) :
  _isCanceled r = false ->
  match readScene sys stackLimit r featureTable contentRange pseudoRtcBias instances with
  | Ran (Return (status, st, returned)) =>
      match renderGraphicList st with
      | [] =>
          readGltfAndCreateGraphics sys stackLimit r isLeaf featureTable contentRange
            transformToRoot pseudoRtcBias instances
          = Ran (Return (mkResult InvalidTileData isLeaf None None))
      | first :: others =>
          let range :=
            match contentRange, _computedContentRange st with
            | Some given, _ => given
            | None, Some computed => computed
            | None, None => Range3d_createNull sys
            end in
          let produced :=
            match others with
            | [] => first
            | _ => createGraphicList sys (renderGraphicList st)
            end in
          let transform :=
            getTileTransform sys r transformToRoot (effectiveBias sys r pseudoRtcBias) in
          let batchRange :=
            match transform with
            | Some t =>
                match inverse sys t with
                | Some invTransform => multiplyRange sys invTransform range
                | None => range
                end
            | None => range
            end in
          let batched :=
            match featureTable with
            | Some table => createBatch sys produced table batchRange
            | None => produced
            end in
          readGltfAndCreateGraphics sys stackLimit r isLeaf featureTable contentRange
            transformToRoot pseudoRtcBias instances
          = Ran (Return (mkResult Success isLeaf (Some range)
                           (Some match transform with
                                 | Some t => createBranch sys batched t
                                 | None => batched
                                 end)))
      end
  | Ran (Throw e) =>
      readGltfAndCreateGraphics sys stackLimit r isLeaf featureTable contentRange
        transformToRoot pseudoRtcBias instances
      = Ran (Throw e)
  | OutOfFuel =>
      readGltfAndCreateGraphics sys stackLimit r isLeaf featureTable contentRange
        transformToRoot pseudoRtcBias instances
      = OutOfFuel
  end
  /\ (forall result,
        read sys stackLimit r isLeaf featureTable contentRange transformToRoot
        = Ran (Return result) ->
        readGltfAndCreateGraphics sys stackLimit r isLeaf featureTable contentRange
          transformToRoot None None
        = Ran (Return result)
        /\ (readStatus result = InvalidTileData /\ graphic result = None
            \/ readStatus result = Success /\ graphic result <> None)).
Proof.
  intro Hrun.
  assert (Hcases : forall bias inst,
            match readScene sys stackLimit r featureTable contentRange bias inst with
            | Ran (Return (status, st, returned)) =>
                returned = false
                /\ (renderGraphicList st <> [] -> status = Success)
            | _ => True
            end).
  { intros bias inst.
    destruct (readScene sys stackLimit r featureTable contentRange bias inst)
      as [[[[status st] returned]|e]|] eqn:Hscene; [|exact I..].
    exact (readScene_status _ _ _ _ _ _ _ _ Hscene). }
  split.
  - specialize (Hcases pseudoRtcBias instances).
    unfold readGltfAndCreateGraphics. rewrite Hrun.
    destruct (readScene sys stackLimit r featureTable contentRange pseudoRtcBias instances)
      as [[[[status st] returned]|e]|]; cbn [bindFueled]; try reflexivity.
    destruct Hcases as [-> Hstatus].
    destruct (renderGraphicList st) as [|first others] eqn:Hlist; [reflexivity|].
    rewrite Hstatus by discriminate. cbv zeta. unfold assembleGraphic.
    destruct contentRange as [given|]; [|destruct (_computedContentRange st)];
      destruct (getTileTransform sys r transformToRoot _); reflexivity.
  - intros result Hread. unfold read in Hread.
    destruct (snd (traverseScene r)); try discriminate.
    split; [exact Hread|].
    specialize (Hcases None None).
    unfold readGltfAndCreateGraphics in Hread. rewrite Hrun in Hread.
    destruct (readScene sys stackLimit r featureTable contentRange None None)
      as [[[[status st] returned]|e]|]; cbn [bindFueled] in Hread; try discriminate.
    destruct Hcases as [-> Hstatus].
    destruct (renderGraphicList st) as [|first others].
    + injection Hread as <-. left. split; reflexivity.
    + rewrite Hstatus in Hread by discriminate.
      injection Hread as <-. right. split; [reflexivity | discriminate].
Qed.

End ReadStatus.

(** Four float points in a triangle primitive without indices, and beside
    it, in the same mesh, a primitive that names no position. *)
Definition twoPrimitivesReader : GltfReader :=
  readerOfDocument
    (GltfDocument.mk "0" (Some (jsonObject [("0", mkScene (Some [IdNum 0]))]))
       (Some (jsonObject [("0", mkNode None [IdNum 0] None None None None)]))
       (Some (jsonObject [("0", mkMesh (Some [noPositionPrimitive; fourPointsPrimitive]))]))
       (GltfDocument.accessors (_glTF fourPointsReader))
       (GltfDocument.bufferViews (_glTF fourPointsReader))
       (GltfDocument.buffers (_glTF fourPointsReader))
       None None None).

(** A reader of the same mesh with the one primitive that is dropped. *)
Definition droppedPrimitiveReader : GltfReader :=
  readerOfDocument
    (GltfDocument.mk "0" (Some (jsonObject [("0", mkScene (Some [IdNum 0]))]))
       (Some (jsonObject [("0", mkNode None [IdNum 0] None None None None)]))
       (Some (jsonObject [("0", mkMesh (Some [noPositionPrimitive]))]))
       None None None None None None).

Lemma read_succeeds_with_a_dropped_primitive :
  _isCanceled twoPrimitivesReader = false
  /\ readGltfAndCreateGraphics symbolicSystem 1 twoPrimitivesReader true None None None
       None None
     = Ran (Return (@mkResult symbolicTypes Success true (Some tt) (Some PrimitiveGraphic)))
  /\ readGltfAndCreateGraphics symbolicSystem 1 droppedPrimitiveReader true None None None
       None None
     = Ran (Return (@mkResult symbolicTypes InvalidTileData true None None)).
Proof.
  split; [reflexivity|]. split.
  - destruct (read_fails_only_without_graphics symbolicSystem twoPrimitivesReader
                1%nat true None None None None None eq_refl) as [H _].
    exact H.
  - destruct (read_fails_only_without_graphics symbolicSystem droppedPrimitiveReader
                1%nat true None None None None None eq_refl) as [H _].
    exact H.
Defined.

(** The four float points, and beside them in the same mesh a primitive
    over the same points whose indices are one unsigned short at offset
    four of a buffer of three bytes. *)
Definition misalignedIndexPrimitive : GltfMeshPrimitive.t :=
  GltfMeshPrimitive.mk [("POSITION", IdNum 0)] (Some (IdNum 1)) None None None None.

Definition goodAndBadReader : GltfReader :=
  readerOfDocument
    (GltfDocument.mk "0" (Some (jsonObject [("0", mkScene (Some [IdNum 0]))]))
       (Some (jsonObject [("0", mkNode None [IdNum 0] None None None None)]))
       (Some (jsonObject
                [("0", mkMesh (Some [fourPointsPrimitive; misalignedIndexPrimitive]))]))
       (Some (jsonObject
                [("0", GltfAccessor.mk (Some (IdNum 0)) None GltfDataType.Float 4 "VEC3"
                         None);
                 ("1", GltfAccessor.mk (Some (IdNum 1)) None GltfDataType.UnsignedShort 1
                         "SCALAR" None)]))
       (Some (jsonObject
                [("0", GltfBufferViewProps.mk (Some (IdNum 0)) None None None);
                 ("1", GltfBufferViewProps.mk (Some (IdNum 1)) None (Some 4) None)]))
       (Some (jsonObject
                [("0", GltfBuffer.mk None
                         (Some (mkUint8Array 0
                                  (List.concat (List.repeat [0; 0; 128; 63] 12)))));
                 ("1", GltfBuffer.mk None (Some (mkUint8Array 0 [10; 20; 30])))]))
       None None None).

(** C8, as stated, fails where the reading of a primitive throws: the
    first primitive of the mesh is read as a mesh of usable geometry, the
    second is not dropped but throws the [RangeError] of a typed array at
    an odd offset, and the read neither succeeds with the graphic of the
    first nor returns a status: it throws. *)
Lemma read_throws_beside_usable_geometry :
  _isCanceled goodAndBadReader = false
  /\ (exists mesh,
        readMeshPrimitive symbolicSystem goodAndBadReader fourPointsPrimitive None None
        = Ran (Return (Some mesh))
        /\ graphicFromMeshData symbolicSystem goodAndBadReader mesh None
           = Some PrimitiveGraphic)
  /\ readMeshPrimitive symbolicSystem goodAndBadReader misalignedIndexPrimitive None None
     = Ran (Throw RangeError)
  /\ forall stackLimit,
       read symbolicSystem (S stackLimit) goodAndBadReader true None None None
       = Ran (Throw RangeError).
Proof.
  split; [reflexivity|]. split; [eexists; split; reflexivity|].
  split; [reflexivity|]. intro stackLimit. reflexivity.
Qed.

(** ** The colour of a material *)

(** The number a JSON text gives for [n] tenths: the double nearest to
    it. *)
Definition tenths (n : Z) : number := SFdiv 53 1024 (Number.ofZ n) (Number.ofZ 10).

(** A material that names a technique and has a base colour factor, the
    red [[1, 0, 0, 0.8]]. *)
Definition techniqueWithBaseColor : GltfMaterial :=
  mkMaterial None (Some (IdStr "technique0")) None
    (Some (Gltf2Material.mkPbr
             (Some [Number.ofZ 1; Number.ofZ 0; Number.ofZ 0; tenths 8]) None))
    None None None None.

(** C9, as stated, fails for a material that the type guard takes for a
    legacy one and that has no legacy colour: its base colour factor, which
    the precedence of the claim would choose, is not looked at, and the
    colour is white. *)
Lemma colorFromMaterial_legacy_without_color_is_white :
  isGltf1Material techniqueWithBaseColor = true
  /\ legacyColor techniqueWithBaseColor = None
  /\ colorByPrecedence techniqueWithBaseColor = ColorDef.mk 255 0 0 50
  /\ colorFromMaterial techniqueWithBaseColor true = ColorDef.white.
Proof. repeat split. Qed.

(** C9 (amended): the base colour of a material is the colour of the first
    source that is there, among the sources of its kind: for a material
    with a [technique] or with [values] the legacy colour [values.color]
    alone; for any other material the uniform colour [u_color] of the
    techniques extension, then the base colour factor; and it is opaque
    white when none of them is there.  The colour of a source has for red,
    green and blue the first three numbers times 255, and for transparency
    one minus the fourth, times 255, each product computed in doubles and
    truncated to a byte.  This is the precedence of the three sources
    unless the material has a [technique] or [values] without a legacy
    colour.  For a material that is not transparent the transparency is
    set to zero, the red, green and blue unchanged; it is the colour
    [createDisplayParams] gives the primitive, with the transparency
    [isMaterialTransparent] finds. *)
Theorem colorFromMaterial_precedence (material : GltfMaterial) (isTransparent : bool) :
  let sources :=
    if isGltf1Material material then [legacyColor material]
    else [techniqueColor material; pbrColor material] in
  let channel (v : number) := ColorDef.toUint8 (Number.mul v (Number.ofZ 255)) in
  let chosen :=
    match firstPresent sources with
    | Some values =>
        ColorDef.mk (channel (operand values 0)) (channel (operand values 1))
          (channel (operand values 2))
          (channel (Number.sub (Number.ofZ 1) (operand values 3)))
    | None => ColorDef.mk 255 255 255 0
    end in
  colorFromMaterial material isTransparent
  = (if isTransparent then chosen
     else ColorDef.mk (ColorDef.red chosen) (ColorDef.green chosen) (ColorDef.blue chosen) 0)
  /\ ColorDef.isOpaque (colorFromMaterial material false) = true
  /\ (isGltf1Material material = false \/ legacyColor material <> None
      \/ (techniqueColor material = None /\ pbrColor material = None) ->
      colorFromMaterial material true = colorByPrecedence material)
  /\ (forall (X : ExternalTypes) (sys : Collaborators X) (r : GltfReader)
             (hasBakedLighting : bool) (displayParams : DisplayParams X),
        createDisplayParams sys r material hasBakedLighting = Return (Some displayParams) ->
        fillColor displayParams
        = colorFromMaterial material (isMaterialTransparent (_glTF r) material)).
Proof.
  cbv zeta.
  assert (Hchoice : forall t,
            colorFromMaterial material t
            = (let chosen :=
                 match firstPresent
                         (if isGltf1Material material then [legacyColor material]
                          else [techniqueColor material; pbrColor material]) with
                 | Some values => colorFromJson values
                 | None => ColorDef.white
                 end in
               if t then chosen
               else ColorDef.mk (ColorDef.red chosen) (ColorDef.green chosen)
                      (ColorDef.blue chosen) 0)).
  { intro t. unfold colorFromMaterial.
    destruct (isGltf1Material material); simpl.
    - destruct (legacyColor material); destruct t; reflexivity.
    - destruct (techniqueColor material); [destruct t; reflexivity|].
      destruct (pbrColor material); destruct t; reflexivity. }
  split; [apply Hchoice|]. split; [now rewrite Hchoice|]. split.
  - intro H. rewrite Hchoice. unfold colorByPrecedence. cbv zeta.
    destruct (isGltf1Material material) eqn:Hguard; simpl.
    + destruct (legacyColor material); [reflexivity|].
      destruct H as [H|[H|[-> ->]]]; [discriminate | congruence | reflexivity].
    + replace (legacyColor material) with (@None (list number)); [reflexivity|].
      unfold isGltf1Material in Hguard. unfold legacyColor.
      destruct (technique material), (values material); try discriminate. reflexivity.
  - intros X sys r hasBakedLighting displayParams. unfold createDisplayParams.
    destruct (findTextureMappingFor sys r material _) as [tm|e]; cbn [bind]; [|discriminate].
    intro H; injection H as <-. reflexivity.
Qed.
(** ** The properties a reader is made from *)

(** [json.name] for a value that is not [null]. *)
Definition propertyOf (json : Json) (name : string) : option Json :=
  match json with
  | JObject fields => dict_get fields name
  | _ => None
  end.

(** The meshes dictionary of a document: the JSON object or array under
    the key [meshes]. *)
Definition documentMeshes (json : Json) : option Json :=
  JsonUtils.asObject (propertyOf json "meshes").

(** The asset [create] asks of a document of version 2. *)
Definition assetMissing (version : Z) (json : Json) : bool :=
  (version =? 2) && negb (isSome (JsonUtils.asObject (propertyOf json "asset"))).

Lemma getProperty_not_null (json : Json) (name : string) :
  json <> JNull ->
  getProperty json name = Return (propertyOf json name).
Proof. destruct json; intro H; try reflexivity. congruence. Qed.

Lemma Json_eq_null (json : Json) : json = JNull \/ json <> JNull.
Proof. destruct json; [now left | right; discriminate..]. Qed.

(** [create] once the source has parsed to a value that is not [null]. *)
Lemma create_after_parse (pf : Platform) (source : GltfSource) (yAxisUp : bool)
    (baseUrl : option string) (version : Z) (json : Json)
    (binaryData : option Uint8Array) :
  GltfReaderProps.parseSource pf source = Return (Some (version, json, binaryData)) ->
  json <> JNull ->
  exists glTF : string -> GltfDocumentProps,
    (forall scene,
       props_meshes (glTF scene) = documentMeshes json
       /\ props_scene (glTF scene) = scene)
    /\ GltfReaderProps.create pf source yAxisUp baseUrl
       = if assetMissing version json then Return None
         else
           scene <- JsonUtils.asString (Number_toString pf) (propertyOf json "scene") ;;
           Return (if isSome (documentMeshes json)
                   then Some (GltfReaderProps.mk version (glTF scene) yAxisUp
                                binaryData baseUrl)
                   else None).
Proof.
  intros Hparse Hnull. unfold GltfReaderProps.create. rewrite Hparse. cbn [bind].
  rewrite !(getProperty_not_null json) by assumption. cbn [bind].
  eexists (fun scene => mkDocumentProps _ scene _ _ _ _ _ _ _ _ _ _ _ _ _ _).
  split; [intro scene; split; reflexivity|].
  unfold assetMissing. destruct (_ && _); reflexivity.
Qed.

(** The text [null] as the bytes of a source. *)
Definition nullText : Uint8Array := mkUint8Array 0 [110; 117; 108; 108].

(** A platform for sources of JSON text: it finds no binary container in
    any bytes, decodes bytes as ASCII, and of the texts it knows the one
    text [null], which it parses as [JSON.parse] does. *)
Definition jsonOnlyPlatform : Platform :=
  mkPlatform (fun _ => "0") (fun _ => Throw RangeError) (fun _ _ _ => Throw RangeError)
    (fun source =>
       Return (Some (string_of_list_ascii
                       (map (fun b => ascii_of_nat (Z.to_nat b)) (octets source)))))
    (fun text => if String.eqb text "null" then Return JNull else Throw SyntaxError).

(** A document with an asset and no meshes, whose [scene] is an object with
    a member called [toString]. *)
Definition sceneObjectDocument : Json :=
  JObject [("asset", JObject [("version", JString "2.0")]);
           ("scene", JObject [("toString", JNumber 1)])].

(** C10, as stated, fails for the text [null]: it parses, to a document
    that defines no meshes dictionary, and [create] does not return
    [undefined] but throws, at [json.asset]; the parsed document [null]
    does the same.  It fails as well for a document without meshes whose
    [scene] is an object with a member called [toString]: [create] makes a
    string of the scene before it looks at the meshes, and that throws. *)
Lemma create_throws_for_null_and_for_scene_object :
  GltfReaderProps.parseSource jsonOnlyPlatform (SourceBytes nullText)
  = Return (Some (2, JNull, None))
  /\ documentMeshes JNull = None
  /\ GltfReaderProps.create jsonOnlyPlatform (SourceBytes nullText) false None
     = Throw TypeError
  /\ GltfReaderProps.create jsonOnlyPlatform (SourceDocument JNull) false None
     = Throw TypeError
  /\ documentMeshes sceneObjectDocument = None
  /\ GltfReaderProps.create jsonOnlyPlatform (SourceDocument sceneObjectDocument) false None
     = Throw TypeError.
Proof. repeat split. Qed.

(** C10 (amended): whatever the source (a binary container, JSON bytes or a
    document), once it has parsed to a JSON value: for the value [null]
    [GltfReaderProps.create] throws a [TypeError]; for any other value
    without a meshes dictionary it returns [undefined], unless the document
    has the asset its version asks for and a [scene] whose [toString] throws,
    and then it throws that; and the properties it does return always hold
    the meshes dictionary of the document. *)
Theorem create_requires_meshes (pf : Platform) (source : GltfSource) (yAxisUp : bool)
    (baseUrl : option string) (version : Z) (json : Json)
    (binaryData : option Uint8Array) :
  GltfReaderProps.parseSource pf source = Return (Some (version, json, binaryData)) ->
  (json = JNull ->
   GltfReaderProps.create pf source yAxisUp baseUrl = Throw TypeError)
  /\ (json <> JNull ->
      documentMeshes json = None ->
      match JsonUtils.asString (Number_toString pf) (propertyOf json "scene") with
      | Return _ => GltfReaderProps.create pf source yAxisUp baseUrl = Return None
      | Throw e =>
          GltfReaderProps.create pf source yAxisUp baseUrl
          = if assetMissing version json then Return None else Throw e
      end)
  /\ (forall props,
        GltfReaderProps.create pf source yAxisUp baseUrl = Return (Some props) ->
        props_meshes (GltfReaderProps.glTF props) = documentMeshes json
        /\ documentMeshes json <> None).
Proof.
  intro Hparse. split; [|split].
  - intros ->. unfold GltfReaderProps.create. rewrite Hparse. reflexivity.
  - intros Hnull Hnone.
    destruct (create_after_parse pf source yAxisUp baseUrl version json binaryData
                Hparse Hnull) as (glTF & _ & ->).
    rewrite Hnone.
    destruct (JsonUtils.asString _ _); destruct (assetMissing version json); reflexivity.
  - intros props Hp.
    destruct (Json_eq_null json) as [->|Hnull].
    + unfold GltfReaderProps.create in Hp. rewrite Hparse in Hp. discriminate.
    + destruct (create_after_parse pf source yAxisUp baseUrl version json binaryData
                  Hparse Hnull) as (glTF & Hg & H).
      rewrite H in Hp. destruct (assetMissing version json); [discriminate|].
      destruct (JsonUtils.asString _ _) as [scene|e]; cbn [bind] in Hp; [|discriminate].
      destruct (documentMeshes json) eqn:Hmesh; simpl in Hp; [|discriminate].
      injection Hp as <-. simpl. rewrite (proj1 (Hg scene)).
      split; [reflexivity | discriminate].
Qed.

(** A document with an asset and nothing else. *)
Definition assetOnlyDocument : Json := JObject [("asset", JObject [("version", JString "2.0")])].

Lemma create_rejects_document_without_meshes :
  documentMeshes assetOnlyDocument = None
  /\ GltfReaderProps.create jsonOnlyPlatform (SourceDocument assetOnlyDocument) false None
     = Return None.
Proof.
  split; [reflexivity|].
  destruct (create_requires_meshes jsonOnlyPlatform (SourceDocument assetOnlyDocument)
              false None 2 assetOnlyDocument None eq_refl) as (_ & Hnone & _).
  apply Hnone; [discriminate | reflexivity].
Defined.

(** * Further properties of the reader

    The functions of GltfReader.ts that the properties above leave out,
    and what the code of each shows. *)

(** ** The transform stack and the list of graphics *)

Lemma forEach_related {A S : Type} (R : S -> S -> Prop) (step : S -> A -> Result S)
    (l : list A) :
  (forall s, R s s) ->
  (forall s1 s2 s3, R s1 s2 -> R s2 s3 -> R s1 s3) ->
  (forall s a s', In a l -> step s a = Return s' -> R s s') ->
  forall s s', forEach step l s = Return s' -> R s s'.
Proof.
  intros Hrefl Htrans. induction l as [|a l IH]; simpl; intros Hstep s s' H.
  - injection H as <-. apply Hrefl.
  - destruct (step s a) as [s1|e] eqn:E; cbn [bind] in H; [|discriminate].
    apply (Htrans s s1 s'); [apply (Hstep s a s1); [now left | exact E]|].
    apply IH; [|exact H]. intros s2 b s2' Hb. apply Hstep. now right.
Qed.

Lemma forEachFueled_related {A S : Type} (R : S -> S -> Prop) (step : S -> A -> Fueled S)
    (l : list A) :
  (forall s, R s s) ->
  (forall s1 s2 s3, R s1 s2 -> R s2 s3 -> R s1 s3) ->
  (forall s a s', In a l -> step s a = Ran (Return s') -> R s s') ->
  forall s s', forEachFueled step l s = Ran (Return s') -> R s s'.
Proof.
  intros Hrefl Htrans. induction l as [|a l IH]; simpl; intros Hstep s s' H.
  - injection H as <-. apply Hrefl.
  - destruct (step s a) as [[s1|e]|] eqn:E; cbn [bindFueled] in H; try discriminate.
    apply (Htrans s s1 s'); [apply (Hstep s a s1); [now left | exact E]|].
    apply IH; [|exact H]. intros s2 b s2' Hb. apply Hstep. now right.
Qed.

Section StackDiscipline.

Context {X : ExternalTypes} (sys : Collaborators X) (r : GltfReader).

(** The second state has the transform stack of the first, and its list of
    graphics begins with the list of the first. *)
Definition onlyAddsGraphics (st st' : @ReadState X) : Prop :=
  transformStack st' = transformStack st
  /\ exists added, renderGraphicList st' = renderGraphicList st ++ added.

Lemma onlyAddsGraphics_refl (st : @ReadState X) : onlyAddsGraphics st st.
Proof. split; [reflexivity|]. exists []. now rewrite app_nil_r. Qed.

Lemma onlyAddsGraphics_trans (s1 s2 s3 : @ReadState X) :
  onlyAddsGraphics s1 s2 -> onlyAddsGraphics s2 s3 -> onlyAddsGraphics s1 s3.
Proof.
  intros [E1 [a1 L1]] [E2 [a2 L2]]. split; [congruence|].
  exists (a1 ++ a2). now rewrite L2, L1, app_assoc.
Qed.

Lemma TransformStack_pop_push (s : TransformStack) (node : GltfNode) :
  TransformStack_pop (TransformStack_push sys s node) = s.
Proof. unfold TransformStack_push. now destruct (TransformStack_transform s). Qed.

Lemma readNodeMeshes_onlyAddsGraphics st node featureTable thisTransform thisBias
    instances st' :
  readNodeMeshes sys r st node featureTable thisTransform thisBias instances
  = Ran (Return st') ->
  onlyAddsGraphics st st'.
Proof.
  unfold readNodeMeshes.
  apply forEachFueled_related;
    [exact onlyAddsGraphics_refl | exact onlyAddsGraphics_trans|].
  intros s meshKey s' _ H.
  destruct (dict_at (_meshes r) meshKey) as [nodeMesh|];
    [|injection H as <-; apply onlyAddsGraphics_refl].
  destruct (isSome (primitives nodeMesh));
    [|injection H as <-; apply onlyAddsGraphics_refl].
  destruct (readMeshPrimitives sys r _ node featureTable thisTransform thisBias)
    as [[[meshes computed]|e]|]; cbn [bindFueled] in H; try discriminate.
  injection H as <-. split; [reflexivity|]. cbn [renderGraphicList].
  destruct (graphicOfMeshes sys r meshes instances); [eauto|].
  exists []. now rewrite app_nil_r.
Qed.

Lemma readNodeAndCreateGraphics_onlyAddsGraphics (stackLimit : nat) :
  forall st node featureTable instances bias status st',
    readNodeAndCreateGraphics sys stackLimit r st node featureTable instances bias
    = Ran (Return (status, st')) ->
    onlyAddsGraphics st st'.
Proof.
  induction stackLimit as [|fuel IH];
    intros st node featureTable instances bias status st' H; [discriminate|].
  simpl in H.
  destruct (readNodeMeshes sys r _ node featureTable _ _ instances) as [[st1|e]|] eqn:E1;
    cbn [bindFueled] in H; try discriminate.
  apply readNodeMeshes_onlyAddsGraphics in E1. destruct E1 as [S1 [a1 L1]].
  cbn [transformStack renderGraphicList] in S1, L1.
  assert (Hch : forall st2,
             match children node with
             | Some ch =>
                 forEachFueled
                   (fun st childId =>
                      match dict_at (_nodes r) childId with
                      | Some child =>
                          '(_, st') <~ readNodeAndCreateGraphics sys fuel r st child
                                         featureTable instances None ;;
                          Ran (Return st')
                      | None => Ran (Return st)
                      end) ch st1
             | None => Ran (Return st1)
             end = Ran (Return st2) ->
             onlyAddsGraphics st1 st2).
  { intros st2 H2. destruct (children node) as [ch|];
      [|injection H2 as <-; apply onlyAddsGraphics_refl].
    revert H2. apply forEachFueled_related;
      [exact onlyAddsGraphics_refl | exact onlyAddsGraphics_trans|].
    intros s childId s' _ Hs.
    destruct (dict_at (_nodes r) childId) as [child|];
      [|injection Hs as <-; apply onlyAddsGraphics_refl].
    destruct (readNodeAndCreateGraphics sys fuel r s child featureTable instances None)
      as [[[status1 s1]|e]|] eqn:E; cbn [bindFueled] in Hs; try discriminate.
    injection Hs as <-. eapply IH; eauto. }
  match type of H with
  | context [bindFueled ?c _] => destruct c as [[st2|e]|]
  end; cbn [bindFueled] in H; try discriminate.
  destruct (Hch st2 eq_refl) as [S2 [a2 L2]].
  injection H as _ <-. split; cbn [transformStack renderGraphicList].
  - rewrite S2, S1. apply TransformStack_pop_push.
  - exists (a1 ++ a2). now rewrite L2, L1, app_assoc.
Qed.

Lemma readSceneNodes_related (R : @ReadState X -> @ReadState X -> Prop)
    (readNode : @ReadState X -> GltfNode -> Fueled (TileReadStatus * @ReadState X))
    (nodes : GltfDictionary GltfNode) :
  (forall s, R s s) ->
  (forall s1 s2 s3, R s1 s2 -> R s2 s3 -> R s1 s3) ->
  (forall st node status st', readNode st node = Ran (Return (status, st')) -> R st st') ->
  forall sceneNodes status0 st0 status st returned,
    readSceneNodes readNode nodes sceneNodes status0 st0
    = Ran (Return (status, st, returned)) ->
    R st0 st.
Proof.
  intros Hrefl Htrans Hnode.
  induction sceneNodes as [|id rest IH]; simpl; intros status0 st0 status st returned H.
  - injection H as _ <- _. apply Hrefl.
  - destruct (dict_at nodes id) as [node|]; [|eauto].
    destruct (readNode st0 node) as [[[status1 st1]|e]|] eqn:Hr;
      cbn [bindFueled] in H; try discriminate.
    apply Hnode in Hr.
    destruct status1; simpl in H;
      [eapply Htrans; [exact Hr|]; eapply IH; eauto | |];
      injection H as _ <- _; exact Hr.
Qed.

(** The node recursion keeps the transform stack balanced: a node that was
    read leaves the stack as it found it, whatever its sub-tree holds, and
    takes no graphic away from the list, to which it only appends.  So the
    stack is empty again, as [readGltfAndCreateGraphics] asserts, each time
    the loop over the scene nodes comes to its next node, and at its end. *)
Theorem readNodeAndCreateGraphics_balances_stack
    (stackLimit : nat) (st : @ReadState X) (node : GltfNode)
    (featureTable : option (FeatureTable X))
    (instances : option (InstancedGraphicParams X)) (bias : option (Vector3d X))
    (status : TileReadStatus) (st' : @ReadState X) :
  readNodeAndCreateGraphics sys stackLimit r st node featureTable instances bias
  = Ran (Return (status, st')) ->
  transformStack st' = transformStack st
  /\ (exists added, renderGraphicList st' = renderGraphicList st ++ added)
  /\ (forall contentRange status1 st1 returned,
        readScene sys stackLimit r featureTable contentRange bias instances
        = Ran (Return (status1, st1, returned)) ->
        TransformStack_isEmpty (transformStack st1) = true).
Proof.
  intro H. apply readNodeAndCreateGraphics_onlyAddsGraphics in H.
  destruct H as [Hs Hl]. split; [exact Hs|]. split; [exact Hl|].
  intros contentRange status1 st1 returned H. unfold readScene in H.
  apply (readSceneNodes_related onlyAddsGraphics) in H.
  - destruct H as [-> _]. reflexivity.
  - exact onlyAddsGraphics_refl.
  - exact onlyAddsGraphics_trans.
  - intros s n status2 s'. apply readNodeAndCreateGraphics_onlyAddsGraphics.
Qed.

End StackDiscipline.

(** A node with a mesh and a child that has the same mesh, read onto a
    stack that holds a transform already. *)
Definition nestedNodesReader : GltfReader :=
  resolveDracoMeshes triangleLoader
    (readerOfDocument
       (GltfDocument.mk "0" (Some (jsonObject [("0", mkScene (Some [IdNum 0]))]))
          (Some (jsonObject [("0", mkNode (Some [IdNum 1]) [IdNum 0] None None None None);
                 ("1", mkNode None [IdNum 0] None None None None)]))
          (Some (jsonObject [("0", mkMesh (Some [dracoPrimitive]))]))
          None dracoBufferViews dracoBuffers None None None)).

Lemma readNodeAndCreateGraphics_nested_nodes :
  let node := mkNode (Some [IdNum 1]) [IdNum 0] None None None None in
  let st := @mkReadState symbolicTypes [PrimitiveGraphic] [Some tt] None in
  let st' :=
    @mkReadState symbolicTypes [PrimitiveGraphic; PrimitiveGraphic; PrimitiveGraphic]
      [Some tt] None in
  readNodeAndCreateGraphics symbolicSystem 2 nestedNodesReader st node None None None
  = Ran (Return (Success, st'))
  /\ transformStack st' = transformStack st
  /\ (exists added, renderGraphicList st' = renderGraphicList st ++ added)
  /\ (forall contentRange status1 st1 returned,
        readScene symbolicSystem 2 nestedNodesReader None contentRange None None
        = Ran (Return (status1, st1, returned)) ->
        TransformStack_isEmpty (transformStack st1) = true).
Proof.
  cbv zeta. split; [reflexivity|].
  exact (readNodeAndCreateGraphics_balances_stack symbolicSystem nestedNodesReader 2
           (@mkReadState symbolicTypes [PrimitiveGraphic] [Some tt] None)
           (mkNode (Some [IdNum 1]) [IdNum 0] None None None None) None None None
           Success _ eq_refl).
Defined.

(** ** The graphics of a node with several meshes *)

Section NodeMeshes.

Context {X : ExternalTypes} (sys : Collaborators X) (r : GltfReader).

(** [this._meshes[meshKey]?.primitives] is there. *)
Definition hasPrimitives (meshKey : GltfId) : bool :=
  match dict_at (_meshes r) meshKey with
  | Some nodeMesh => isSome (primitives nodeMesh)
  | None => false
  end.

(** What one turn of the loop over the mesh ids of a node pushes onto the
    list of graphics, given the meshes [readMeshPrimitives] returned. *)
Definition graphicsPushed (meshes : list (GltfMeshData X))
    (thisTransform : option (Transform X))
    (instances : option (InstancedGraphicParams X)) : list (RenderGraphic X) :=
  match graphicOfMeshes sys r meshes instances with
  | Some renderGraphic =>
      [match thisTransform with
       | Some t =>
           if negb (isIdentity sys t) then createBranch sys renderGraphic t
           else renderGraphic
       | None => renderGraphic
       end]
  | None => []
  end.

(** Two runs agree on what they produce apart from the content range. *)
Definition sameMeshes
    (a b : Fueled (list (GltfMeshData X) * option (Range3d X))) : Prop :=
  match a, b with
  | Ran (Return (m1, _)), Ran (Return (m2, _)) => m1 = m2
  | Ran (Throw e1), Ran (Throw e2) => e1 = e2
  | OutOfFuel, OutOfFuel => True
  | _, _ => False
  end.

Lemma readPrimitiveList_sameMeshes featureTable thisTransform thisBias prims :
  forall meshes c1 c2,
    sameMeshes
      (readPrimitiveList sys r prims featureTable thisTransform thisBias (meshes, c1))
      (readPrimitiveList sys r prims featureTable thisTransform thisBias (meshes, c2)).
Proof.
  unfold readPrimitiveList.
  induction prims as [|p prims IH]; intros meshes c1 c2; simpl; [reflexivity|].
  destruct (readMeshPrimitive sys r p featureTable thisBias) as [[[mesh|]|e]|];
    cbn [bindFueled]; [apply IH | apply IH | reflexivity | exact I].
Qed.

Lemma readMeshPrimitives_sameMeshes node featureTable thisTransform thisBias c1 c2 :
  sameMeshes
    (readMeshPrimitives sys r c1 node featureTable thisTransform thisBias)
    (readMeshPrimitives sys r c2 node featureTable thisTransform thisBias).
Proof.
  unfold readMeshPrimitives. generalize (@nil (GltfMeshData X)) as meshes.
  revert c1 c2.
  induction (meshIds node) as [|key keys IH]; intros c1 c2 meshes; simpl; [reflexivity|].
  destruct (dict_at (_meshes r) key) as [nodeMesh|]; cbn [bindFueled]; [|apply IH].
  destruct (primitives nodeMesh) as [prims|]; cbn [bindFueled]; [|apply IH].
  pose proof (readPrimitiveList_sameMeshes featureTable thisTransform thisBias prims
                meshes c1 c2) as H.
  destruct (readPrimitiveList sys r prims featureTable thisTransform thisBias (meshes, c1))
    as [[[m1 c1']|e1]|];
    destruct (readPrimitiveList sys r prims featureTable thisTransform thisBias (meshes, c2))
      as [[[m2 c2']|e2]|]; simpl in H; try contradiction; cbn [bindFueled].
  - subst m2. apply IH.
  - exact H.
  - exact I.
Qed.

Lemma concat_repeat_S {A : Type} (l : list A) (k : nat) :
  List.concat (List.repeat l (S k)) = l ++ List.concat (List.repeat l k).
Proof. reflexivity. Qed.

(** The loop of [readNodeAndCreateGraphics] over the mesh ids of a node
    reads, for each mesh that has primitives, the primitives of every mesh
    of the node, and pushes the graphic made of them all: in a reader that
    does not deduplicate vertices (so that no read writes into the buffers
    of the document, and a primitive is read the same each time), a node
    with [k] such meshes adds [k] times the same graphic, each holding the
    primitives of the [k] meshes. *)
Theorem readNodeMeshes_repeats_node_graphic
    (st st' : @ReadState X) (node : GltfNode) (featureTable : option (FeatureTable X))
    (thisTransform : option (Transform X)) (thisBias : option (Vector3d X))
    (instances : option (InstancedGraphicParams X)) :
  _deduplicateVertices r = false ->
  readNodeMeshes sys r st node featureTable thisTransform thisBias instances
  = Ran (Return st') ->
  let k := List.length (filter hasPrimitives (meshIds node)) in
  (k = 0%nat /\ st' = st)
  \/ exists meshes computed,
       readMeshPrimitives sys r (_computedContentRange st) node featureTable
         thisTransform thisBias = Ran (Return (meshes, computed))
       /\ renderGraphicList st'
          = renderGraphicList st
            ++ List.concat (List.repeat (graphicsPushed meshes thisTransform instances) k).
Proof.
  intros _. unfold readNodeMeshes. cbv zeta.
  set (step := fun (st0 : @ReadState X) meshKey => _).
  revert st. induction (meshIds node) as [|key keys IH]; intros st H; simpl in H.
  - left. split; [reflexivity|]. now injection H.
  - destruct (step st key) as [[st1|e]|] eqn:E1; cbn [bindFueled] in H; try discriminate.
    specialize (IH st1 H). subst step. cbv beta in E1. simpl filter.
    destruct (hasPrimitives key) eqn:Hk; unfold hasPrimitives in Hk;
      (destruct (dict_at (_meshes r) key) as [nodeMesh|];
       [destruct (isSome (primitives nodeMesh))|]); try discriminate Hk;
      try (injection E1 as <-; exact IH).
    destruct (readMeshPrimitives sys r (_computedContentRange st) node featureTable
                thisTransform thisBias) as [[[meshes computed]|e]|] eqn:Em;
      cbn [bindFueled] in E1; try discriminate.
    right. exists meshes, computed. split; [reflexivity|].
    assert (L1 : renderGraphicList st1
                 = renderGraphicList st ++ graphicsPushed meshes thisTransform instances).
    { injection E1 as <-. cbn [renderGraphicList]. unfold graphicsPushed.
      destruct (graphicOfMeshes sys r meshes instances);
        [reflexivity | now rewrite app_nil_r]. }
    cbn [List.length]. rewrite concat_repeat_S.
    destruct IH as [[K ->]|(meshes2 & computed2 & Em2 & L2)].
    + rewrite K, L1. simpl. now rewrite app_nil_r.
    + pose proof (readMeshPrimitives_sameMeshes node featureTable thisTransform thisBias
                    (_computedContentRange st) (_computedContentRange st1)) as Hs.
      rewrite Em, Em2 in Hs. simpl in Hs. subst meshes2.
      now rewrite L2, L1, app_assoc.
Qed.

End NodeMeshes.

(** A glTF 1 node with two meshes of one primitive each. *)
Definition twoMeshesReader : GltfReader :=
  resolveDracoMeshes triangleLoader
    (mkReader
       (GltfDocument.mk "scene"
          (Some (jsonObject [("scene", mkScene (Some [IdStr "node"]))]))
          (Some (jsonObject
                   [("node", mkNode None [IdStr "a"; IdStr "b"] None None None None)]))
          (Some (jsonObject [("a", mkMesh (Some [dracoPrimitive]));
                             ("b", mkMesh (Some [dracoPrimitive]))]))
          None dracoBufferViews dracoBuffers None None None)
       1 true false false false true false []).

Lemma readNodeMeshes_two_meshes :
  let node := mkNode None [IdStr "a"; IdStr "b"] None None None None in
  let both := GraphicList [PrimitiveGraphic; PrimitiveGraphic] in
  _deduplicateVertices twoMeshesReader = false
  /\ readNodeMeshes symbolicSystem twoMeshesReader emptyReadState node None None None None
     = Ran (Return (@mkReadState symbolicTypes [both; both] [] None))
  /\ List.length (filter (hasPrimitives twoMeshesReader) (meshIds node)) = 2%nat
  /\ graphicsPushed symbolicSystem twoMeshesReader [blankMeshData; blankMeshData] None None
     = [both].
Proof.
  cbv zeta. split; [reflexivity|]. split; [reflexivity|]. split; [reflexivity|].
  destruct (readNodeMeshes_repeats_node_graphic symbolicSystem twoMeshesReader
              emptyReadState (@mkReadState symbolicTypes _ [] None)
              (mkNode None [IdStr "a"; IdStr "b"] None None None None)
              None None None None eq_refl eq_refl)
    as [[K _]|(meshes & computed & Em & _)].
  - discriminate K.
  - injection Em as <- _. reflexivity.
Defined.

(** ** The meshes of a node: [readMeshPrimitives] *)

Section MeshesOfNode.

Context {X : ExternalTypes} (sys : Collaborators X) (r : GltfReader).

(** The primitives of the meshes of a node, in the order of the mesh ids
    and, within a mesh, of the document. *)
Definition nodePrimitives (node : GltfNode) : list GltfMeshPrimitive.t :=
  flat_map (fun meshKey =>
              match dict_at (_meshes r) meshKey with
              | Some nodeMesh =>
                  match primitives nodeMesh with
                  | Some prims => prims
                  | None => []
                  end
              | None => []
              end)
           (meshIds node).

(** The mesh data a primitive is read as, if any. *)
Definition meshRead (featureTable : option (FeatureTable X))
    (thisBias : option (Vector3d X)) (primitive : GltfMeshPrimitive.t)
  : list (GltfMeshData X) :=
  match readMeshPrimitive sys r primitive featureTable thisBias with
  | Ran (Return (Some mesh)) => [mesh]
  | _ => []
  end.

(** The content range under computation, extended by the ranges of some
    meshes. *)
Definition extendedBy (thisTransform : option (Transform X))
    (computed : option (Range3d X)) (meshes : list (GltfMeshData X))
  : option (Range3d X) :=
  fold_left
    (fun computed mesh =>
       match computed, pointRange mesh with
       | Some range, Some meshPointRange =>
           Some (extendRange sys range
                   match (match thisTransform with
                          | Some t => inverse sys t
                          | None => None
                          end) with
                   | Some inv => multiplyRange sys inv meshPointRange
                   | None => meshPointRange
                   end)
       | _, _ => computed
       end)
    meshes computed.

Lemma readPrimitiveList_meshRead featureTable thisTransform thisBias prims :
  forall meshes computed meshes' computed',
    readPrimitiveList sys r prims featureTable thisTransform thisBias (meshes, computed)
    = Ran (Return (meshes', computed')) ->
    meshes' = meshes ++ flat_map (meshRead featureTable thisBias) prims
    /\ computed'
       = extendedBy thisTransform computed (flat_map (meshRead featureTable thisBias) prims).
Proof.
  unfold readPrimitiveList.
  induction prims as [|p prims IH]; intros meshes computed meshes' computed' H;
    cbn [forEachFueled flat_map] in *.
  - injection H as <- <-. now rewrite app_nil_r.
  - unfold meshRead at 1 3.
    destruct (readMeshPrimitive sys r p featureTable thisBias) as [[[mesh|]|e]|];
      cbn [bindFueled] in H; [| |discriminate..].
    + destruct (IH _ _ _ _ H) as [-> ->]. cbn [app]. split; [now rewrite <- app_assoc|].
      reflexivity.
    + exact (IH _ _ _ _ H).
Qed.

Lemma extendedBy_app thisTransform computed (a b : list (GltfMeshData X)) :
  extendedBy thisTransform computed (a ++ b)
  = extendedBy thisTransform (extendedBy thisTransform computed a) b.
Proof. unfold extendedBy. apply fold_left_app. Qed.

(** [readMeshPrimitives] returns the primitives of the node that were read
    as a mesh, in order, and nothing else: a mesh id that names no mesh, a
    mesh without primitives and a primitive that is read as nothing leave
    no trace.  The content range under computation is extended by the
    range of each mesh returned that has one; when a content range was
    supplied to the read, none is computed. *)
Theorem readMeshPrimitives_returns_the_primitives_read
    (computed computed' : option (Range3d X)) (node : GltfNode)
    (featureTable : option (FeatureTable X)) (thisTransform : option (Transform X))
    (thisBias : option (Vector3d X)) (meshes : list (GltfMeshData X)) :
  readMeshPrimitives sys r computed node featureTable thisTransform thisBias
  = Ran (Return (meshes, computed')) ->
  meshes = flat_map (meshRead featureTable thisBias) (nodePrimitives node)
  /\ computed' = extendedBy thisTransform computed meshes
  /\ (computed = None -> computed' = None)
  /\ (List.length meshes <= List.length (nodePrimitives node))%nat.
Proof.
  unfold readMeshPrimitives, nodePrimitives.
  assert (Hgen : forall keys acc0 c0 ms c,
             forEachFueled
               (fun acc meshKey =>
                  match dict_at (_meshes r) meshKey with
                  | Some nodeMesh =>
                      match primitives nodeMesh with
                      | Some prims =>
                          readPrimitiveList sys r prims featureTable thisTransform
                            thisBias acc
                      | None => Ran (Return acc)
                      end
                  | None => Ran (Return acc)
                  end) keys (acc0, c0) = Ran (Return (ms, c)) ->
             let read :=
               flat_map (meshRead featureTable thisBias)
                 (flat_map (fun meshKey =>
                              match dict_at (_meshes r) meshKey with
                              | Some nodeMesh =>
                                  match primitives nodeMesh with
                                  | Some prims => prims
                                  | None => []
                                  end
                              | None => []
                              end) keys) in
             ms = acc0 ++ read /\ c = extendedBy thisTransform c0 read).
  { induction keys as [|key keys IH]; intros acc0 c0 ms c H;
      cbn [forEachFueled flat_map] in *.
    - injection H as <- <-. now rewrite app_nil_r.
    - destruct (dict_at (_meshes r) key) as [nodeMesh|]; cbn [bindFueled] in H;
        [|exact (IH _ _ _ _ H)].
      destruct (primitives nodeMesh) as [prims|]; cbn [bindFueled] in H;
        [|exact (IH _ _ _ _ H)].
      destruct (readPrimitiveList sys r prims featureTable thisTransform thisBias (acc0, c0))
        as [[[ms1 c1]|e]|] eqn:E; cbn [bindFueled] in H; try discriminate.
      apply readPrimitiveList_meshRead in E. destruct E as [-> ->].
      destruct (IH _ _ _ _ H) as [-> ->]. cbv zeta.
      rewrite flat_map_app, extendedBy_app, <- app_assoc. now split. }
  intro H. destruct (Hgen _ _ _ _ _ H) as [Hm Hc]. cbn [app] in Hm.
  rewrite <- Hm in Hc. split; [exact Hm|]. split; [exact Hc|]. split.
  - intros ->. rewrite Hc. clear. induction meshes as [|m ms IH]; [reflexivity|exact IH].
  - rewrite Hm. clear.
    induction (flat_map _ (meshIds node)) as [|p ps IH]; [reflexivity|].
    cbn [flat_map List.length]. rewrite length_app. unfold meshRead at 1.
    destruct (readMeshPrimitive sys r p featureTable thisBias) as [[[mesh|]|e]|];
      cbn [List.length]; lia.
Qed.

End MeshesOfNode.

Lemma readMeshPrimitives_one_of_two :
  let node := mkNode None [IdNum 0; IdNum 9] None None None None in
  nodePrimitives twoPrimitivesReader node = [noPositionPrimitive; fourPointsPrimitive]
  /\ meshRead symbolicSystem twoPrimitivesReader None None noPositionPrimitive = []
  /\ exists mesh,
       meshRead symbolicSystem twoPrimitivesReader None None fourPointsPrimitive = [mesh]
       /\ readMeshPrimitives symbolicSystem twoPrimitivesReader (Some tt) node None None None
          = Ran (Return ([mesh], Some tt)).
Proof.
  cbv zeta. split; [reflexivity|]. split; [reflexivity|].
  destruct (readMeshPrimitives symbolicSystem twoPrimitivesReader (Some tt)
              (mkNode None [IdNum 0; IdNum 9] None None None None) None None None)
    as [[[meshes computed]|e]|] eqn:E; [|discriminate E..].
  destruct (readMeshPrimitives_returns_the_primitives_read symbolicSystem
              twoPrimitivesReader _ _ _ _ _ _ _ E) as (Hm & Hc & _).
  subst computed. subst meshes. eexists. split; reflexivity.
Defined.

(** ** Ids that name no node, and ids of two types *)

Section UnresolvedIds.

Variable nodes : GltfDictionary GltfNode.

(** The set a traversal ends with holds ids of nodes only. *)
Definition endsWithNodeIds (e : TraverseEnd) : Prop :=
  match e with
  | Exhausted t | CycleDetected _ t => Forall (resolves nodes) t
  | TraverseOutOfFuel => True
  end.

Lemma unresolved_not_traversed (t : IdSet) (id : GltfId) :
  Forall (resolves nodes) t -> dict_at nodes id = None -> Set_has t id = false.
Proof.
  intros Ht Hid. apply Set_has_false. intro Hin.
  rewrite Forall_forall in Ht. exact (Ht id Hin Hid).
Qed.

Lemma traverseLoop_skips_unresolved
    (recurse : list GltfId -> IdSet -> list GltfNode * TraverseEnd) :
  (forall ch t, Forall (resolves nodes) t -> endsWithNodeIds (snd (recurse ch t))) ->
  forall ids t,
    Forall (resolves nodes) t ->
    traverseLoop nodes recurse (filter (resolvesb nodes) ids) t
    = traverseLoop nodes recurse ids t
    /\ endsWithNodeIds (snd (traverseLoop nodes recurse ids t)).
Proof.
  intro Hrec. induction ids as [|id rest IH]; intros t Ht; [now split|].
  cbn [filter]. unfold resolvesb at 1.
  destruct (dict_at nodes id) as [node|] eqn:Hid; cbn [isSome].
  - cbn [traverseLoop]. rewrite Hid.
    destruct (Set_has t id) eqn:Hhas; [now split|].
    assert (Ht1 : Forall (resolves nodes) (Set_add t id)).
    { constructor; [unfold resolves; congruence | exact Ht]. }
    destruct (children node) as [ch|].
    + specialize (Hrec ch _ Ht1).
      destruct (recurse ch (Set_add t id)) as [ys1 [t2|c t2|]]; cbn [snd] in Hrec;
        [|now split|now split].
      destruct (IH t2 Hrec) as [E HF]. rewrite E.
      now destruct (traverseLoop nodes recurse rest t2).
    + destruct (IH _ Ht1) as [E HF]. rewrite E.
      now destruct (traverseLoop nodes recurse rest (Set_add t id)).
  - destruct (IH t Ht) as [E HF]. rewrite E. cbn [traverseLoop].
    now rewrite (unresolved_not_traversed t id Ht Hid), Hid.
Qed.

Lemma traverseNodes_skips_unresolved (fuel : nat) :
  forall ids t,
    Forall (resolves nodes) t ->
    traverseNodes fuel (filter (resolvesb nodes) ids) nodes t = traverseNodes fuel ids nodes t
    /\ endsWithNodeIds (snd (traverseNodes fuel ids nodes t)).
Proof.
  induction fuel as [|fuel IH]; intros ids t Ht; [now split|].
  cbn [traverseNodes]. apply traverseLoop_skips_unresolved; [|exact Ht].
  intros ch t1 Ht1. apply IH. exact Ht1.
Qed.

Lemma filter_none_resolves (ids : list GltfId) :
  (forall id, In id ids -> dict_at nodes id = None) -> filter (resolvesb nodes) ids = [].
Proof.
  induction ids as [|id rest IH]; intro H; [reflexivity|].
  cbn [filter]. unfold resolvesb at 1. rewrite (H id (or_introl eq_refl)). cbn [isSome].
  apply IH. intros x Hx. apply H. now right.
Qed.

End UnresolvedIds.

Lemma GltfReader_traverseNodes_filter (r : GltfReader) (nodeIds : list GltfId) :
  GltfReader_traverseNodes r (filter (resolvesb (_nodes r)) nodeIds)
  = GltfReader_traverseNodes r nodeIds.
Proof.
  unfold GltfReader_traverseNodes.
  apply (traverseNodes_skips_unresolved (_nodes r) (traverseFuel (_nodes r)) nodeIds []
           (Forall_nil _)).
Qed.

Lemma GltfReader_traverseNodes_none_resolves (r : GltfReader) (nodeIds : list GltfId) :
  (forall id, In id nodeIds -> dict_at (_nodes r) id = None) ->
  GltfReader_traverseNodes r nodeIds = ([], Exhausted []).
Proof.
  intro Hnone. rewrite <- GltfReader_traverseNodes_filter.
  now rewrite (filter_none_resolves _ _ Hnone).
Qed.

(** An id that names no node is passed over: it is no error, however often
    it comes, it never enters the visited set, and the traversal is the
    traversal of the list without it.  A list none of whose ids names a
    node yields nothing and ends well. *)
Theorem traverseNodes_passes_over_unresolved_ids (r : GltfReader) (nodeIds : list GltfId) :
  GltfReader_traverseNodes r nodeIds
  = GltfReader_traverseNodes r (filter (resolvesb (_nodes r)) nodeIds)
  /\ endsWithNodeIds (_nodes r) (snd (GltfReader_traverseNodes r nodeIds))
  /\ ((forall id, In id nodeIds -> dict_at (_nodes r) id = None) ->
      GltfReader_traverseNodes r nodeIds = ([], Exhausted [])).
Proof.
  split; [now rewrite GltfReader_traverseNodes_filter|].
  split; [|apply GltfReader_traverseNodes_none_resolves].
  unfold GltfReader_traverseNodes.
  apply (traverseNodes_skips_unresolved (_nodes r) (traverseFuel (_nodes r)) nodeIds []
           (Forall_nil _)).
Qed.

(** The visited set tells a number from the string that reads the same
    property: a node that is named once by its index and once by the key
    the index is written as is met twice, and yielded twice, with no
    failure.  (The keys [Object.keys] lists are strings; the children of a
    glTF 2 node are numbers.) *)
Theorem traverseNodes_tells_ids_apart_by_type (r : GltfReader) (n : N) (node : GltfNode) :
  dict_at (_nodes r) (IdNum n) = Some node ->
  children node = None ->
  GltfReader_traverseNodes r [IdNum n; IdStr (propertyKey (IdNum n))]
  = ([node; node], Exhausted [IdStr (propertyKey (IdNum n)); IdNum n]).
Proof.
  intros Hn Hch. unfold GltfReader_traverseNodes, traverseFuel.
  cbn [traverseNodes traverseLoop Set_has existsb]. rewrite Hn, Hch.
  cbn [Set_add Set_has existsb GltfId_eqb orb].
  unfold dict_at in *. cbn [propertyKey] in *. rewrite Hn, Hch. reflexivity.
Qed.

(** A document without a scene: its scene nodes are the keys ["0"] and
    ["1"]. *)
Definition noSceneReader : GltfReader :=
  readerOfDocument
    (GltfDocument.mk "" None
       (Some (jsonObject [("0", nodeWithChildren None); ("1", nodeWithChildren None)]))
       None None None None None None None).

Lemma traverseNodes_index_and_key :
  dict_at (_nodes noSceneReader) (IdNum 1) = Some (nodeWithChildren None)
  /\ _sceneNodes noSceneReader = [IdStr "0"; IdStr "1"]
  /\ GltfReader_traverseNodes noSceneReader [IdNum 1; IdStr "1"]
     = ([nodeWithChildren None; nodeWithChildren None], Exhausted [IdStr "1"; IdNum 1]).
Proof.
  split; [reflexivity|]. split; [reflexivity|].
  exact (traverseNodes_tells_ids_apart_by_type noSceneReader 1 (nodeWithChildren None)
           eq_refl eq_refl).
Defined.

(** ** A scene without nodes *)

Section EmptyScene.

Context {X : ExternalTypes} (sys : Collaborators X) (r : GltfReader).

Lemma readSceneNodes_none_resolves
    (readNode : @ReadState X -> GltfNode -> Fueled (TileReadStatus * @ReadState X))
    (sceneNodes : list GltfId) (readStatus : TileReadStatus) (st : @ReadState X) :
  (forall id, In id sceneNodes -> dict_at (_nodes r) id = None) ->
  readSceneNodes readNode (_nodes r) sceneNodes readStatus st
  = Ran (Return (readStatus, st, false)).
Proof.
  induction sceneNodes as [|id rest IH]; intro H; [reflexivity|].
  cbn [readSceneNodes]. rewrite (H id (or_introl eq_refl)).
  apply IH. intros x Hx. apply H. now right.
Qed.

(** A read whose scene names no node of the document (the scene lists no
    node, or ids that are not in [nodes], or there is no scene and no node)
    is a read of invalid tile data, whatever meshes the document holds: it
    throws nothing and makes no graphic. *)
Theorem read_without_scene_nodes_is_invalid (stackLimit : nat) (isLeaf : bool)
    (featureTable : option (FeatureTable X)) (contentRange : option (Range3d X))
    (transform : option (Transform X)) :
  (forall id, In id (_sceneNodes r) -> dict_at (_nodes r) id = None) ->
  _isCanceled r = false ->
  read sys stackLimit r isLeaf featureTable contentRange transform
  = Ran (Return (mkResult InvalidTileData isLeaf None None)).
Proof.
  intros Hnone Hrun. unfold read, traverseScene.
  rewrite (GltfReader_traverseNodes_none_resolves r (_sceneNodes r) Hnone). cbn [snd].
  unfold readGltfAndCreateGraphics, readScene. rewrite Hrun.
  rewrite (readSceneNodes_none_resolves _ _ _ _ Hnone). reflexivity.
Qed.

End EmptyScene.

(** A document with a mesh and a scene that lists no node. *)
Definition emptySceneReader : GltfReader :=
  readerOfDocument
    (GltfDocument.mk "0" (Some (jsonObject [("0", mkScene (Some []))]))
       (Some (jsonObject [("0", mkNode None [IdNum 0] None None None None)]))
       (Some (jsonObject [("0", mkMesh (Some [fourPointsPrimitive]))]))
       (GltfDocument.accessors (_glTF fourPointsReader))
       (GltfDocument.bufferViews (_glTF fourPointsReader))
       (GltfDocument.buffers (_glTF fourPointsReader))
       None None None).

Lemma read_scene_that_lists_no_node :
  _sceneNodes emptySceneReader = []
  /\ read symbolicSystem 0 emptySceneReader true None None None
     = Ran (Return (@mkResult symbolicTypes InvalidTileData true None None)).
Proof.
  split; [reflexivity|].
  apply (read_without_scene_nodes_is_invalid symbolicSystem emptySceneReader);
    [intros id []|reflexivity].
Defined.

(** ** Primitives that are read as nothing *)

Section DroppedPrimitives.

Context {X : ExternalTypes} (sys : Collaborators X) (r : GltfReader).

(** A primitive that names a material the document does not have is read
    as nothing: nothing is thrown, no collaborator is asked, and the
    primitive leaves no trace in the meshes of its node.  (A primitive that
    names no material at all is read with the material [{ }].) *)
Theorem readMeshPrimitive_unknown_material (primitive : GltfMeshPrimitive.t)
    (featureTable : option (FeatureTable X)) (pseudoRtcBias : option (Vector3d X))
    (id : GltfId) :
  GltfMeshPrimitive.material primitive = Some id ->
  propertyKey id <> "" ->
  dict_at (_materials r) id = None ->
  readMeshPrimitive sys r primitive featureTable pseudoRtcBias = Ran (Return None)
  /\ (forall thisTransform before after acc,
        readPrimitiveList sys r (before ++ primitive :: after) featureTable
          thisTransform pseudoRtcBias acc
        = readPrimitiveList sys r (before ++ after) featureTable thisTransform
            pseudoRtcBias acc).
Proof.
  intros Hm Hkey Hnone.
  assert (Hdrop : readMeshPrimitive sys r primitive featureTable pseudoRtcBias
                  = Ran (Return None)).
  { unfold readMeshPrimitive, asString. rewrite Hm.
    destruct (propertyKey id) as [|c s] eqn:Ek; [congruence|].
    replace (0 <? Z.of_nat (String.length (String c s))) with true
      by (symmetry; apply Z.ltb_lt; cbn [String.length]; lia).
    unfold dict_at in Hnone. rewrite Ek in Hnone. now rewrite Hnone. }
  split; [exact Hdrop|].
  intro thisTransform. now apply readPrimitiveList_dropped.
Qed.

(** A primitive whose mode is none of points, lines and triangles (a line
    strip, a triangle strip or fan, a number that is no mode) is read as
    nothing, once the display parameters of its material were made; it is
    dropped before any of its attributes is looked at.  The branch is
    [assert(false); return undefined;]: this is the function as it runs
    where assertions are not enabled, the [assert] doing nothing there. *)
Theorem readMeshPrimitive_unsupported_mode (primitive : GltfMeshPrimitive.t)
    (featureTable : option (FeatureTable X)) (pseudoRtcBias : option (Vector3d X))
    (meshMode : Z) :
  GltfMeshPrimitive.mode primitive = Some meshMode ->
  meshMode <> GltfMeshMode.Points ->
  meshMode <> GltfMeshMode.Lines ->
  meshMode <> GltfMeshMode.Triangles ->
  readMeshPrimitive sys r primitive featureTable pseudoRtcBias = Ran (Return None)
  \/ exists e material,
       readMeshPrimitive sys r primitive featureTable pseudoRtcBias = Ran (Throw e)
       /\ findTextureMappingFor sys r material
            (isMaterialTransparent (_glTF r) material) = Throw e.
Proof.
  intros Hmode Hp Hl Ht. unfold readMeshPrimitive.
  destruct (if 0 <? Z.of_nat (String.length (asString (GltfMeshPrimitive.material primitive)))
            then lookup (_materials r) (asString (GltfMeshPrimitive.material primitive))
            else Some emptyMaterial) as [material|]; [|now left].
  unfold createDisplayParams.
  destruct (findTextureMappingFor sys r material (isMaterialTransparent (_glTF r) material))
    as [tm|e] eqn:Htm; cbn [bind bindFueled];
    [|right; exists e, material; split; [reflexivity | exact Htm]].
  rewrite Hmode. unfold primitiveTypeOf.
  destruct (Z.eqb_spec meshMode GltfMeshMode.Lines); [contradiction|].
  destruct (Z.eqb_spec meshMode GltfMeshMode.Points); [contradiction|].
  destruct (Z.eqb_spec meshMode GltfMeshMode.Triangles); [contradiction|].
  now left.
Qed.

(** The component type of an index accessor is none of the three unsigned
    integer types. *)
Definition indicesNotUnsigned (json : GltfMeshPrimitive.t) : Prop :=
  match accessorNamed r (primitiveJson json) "indices" with
  | None => True
  | Some accessor =>
      GltfAccessor.componentType accessor <> GltfDataType.UnsignedByte
      /\ GltfAccessor.componentType accessor <> GltfDataType.UnsignedShort
      /\ GltfAccessor.componentType accessor <> GltfDataType.UInt32
  end.

Lemma readBufferData_not_unsigned json accessorName expectedType :
  match accessorNamed r json accessorName with
  | None => True
  | Some accessor =>
      GltfAccessor.componentType accessor <> GltfDataType.UnsignedByte
      /\ GltfAccessor.componentType accessor <> GltfDataType.UnsignedShort
      /\ GltfAccessor.componentType accessor <> GltfDataType.UInt32
  end ->
  expectedType = GltfDataType.UnsignedShort \/ expectedType = GltfDataType.UInt32 ->
  readBufferData r json accessorName expectedType = Return None.
Proof.
  intros Hun Hexp. unfold readBufferData.
  destruct (getBufferView_never_throws r json accessorName) as [view Hv]. rewrite Hv.
  cbn [bind]. destruct view as [view|]; [|reflexivity].
  destruct (getBufferView_view_type r json accessorName view Hv) as (accessor & Ha & Ht).
  rewrite Ha in Hun. destruct Hun as (H8 & H16 & H32). rewrite <- Ht in H8, H16, H32.
  unfold GltfBufferView.toBufferData, GltfBufferData.create, GltfBufferData.refusesMismatch.
  destruct Hexp as [-> | ->]; type_cases; reflexivity.
Qed.

(** A primitive that declares indices which cannot be read as unsigned
    integers (the accessor is not there, or holds floats or signed
    numbers) fails to read its indices: nothing is thrown, and the reader
    does not fall back on the indices it manufactures for a primitive that
    declares none, even when the points are there. *)
Theorem readMeshIndices_declared_never_manufactured (mesh : GltfMeshData X)
    (json : GltfMeshPrimitive.t) (id : GltfId) :
  GltfMeshPrimitive.indices json = Some id ->
  indicesNotUnsigned json ->
  readMeshIndices r mesh json = Return (false, mesh).
Proof.
  intros Hid Hun. unfold readMeshIndices. rewrite Hid. cbn [isSome].
  unfold readBufferData16, readBufferData32.
  rewrite !readBufferData_not_unsigned by (auto; exact Hun).
  reflexivity.
Qed.

End DroppedPrimitives.

(** Three primitives over the four points: one that names a material the
    document does not have, a triangle strip, and one whose indices are
    the floats of the positions. *)
Definition unknownMaterialPrimitive : GltfMeshPrimitive.t :=
  GltfMeshPrimitive.mk [("POSITION", IdNum 0)] None (Some (IdNum 5)) None None None.

Definition triangleStripPrimitive : GltfMeshPrimitive.t :=
  GltfMeshPrimitive.mk [("POSITION", IdNum 0)] None None (Some GltfMeshMode.TriangleStrip)
    None None.

Definition floatIndicesPrimitive : GltfMeshPrimitive.t :=
  GltfMeshPrimitive.mk [("POSITION", IdNum 0)] (Some (IdNum 0)) None None None None.

Lemma readMeshPrimitive_material_5 :
  GltfMeshPrimitive.material unknownMaterialPrimitive = Some (IdNum 5)
  /\ dict_at (_materials fourPointsReader) (IdNum 5) = None
  /\ readMeshPrimitive symbolicSystem fourPointsReader unknownMaterialPrimitive None None
     = Ran (Return None).
Proof.
  split; [reflexivity|]. split; [reflexivity|].
  apply (readMeshPrimitive_unknown_material symbolicSystem fourPointsReader
           unknownMaterialPrimitive None None (IdNum 5) eq_refl);
    [discriminate | reflexivity].
Defined.

Lemma readMeshPrimitive_triangle_strip :
  GltfMeshPrimitive.mode triangleStripPrimitive = Some 5
  /\ readMeshPrimitive symbolicSystem fourPointsReader triangleStripPrimitive None None
     = Ran (Return None).
Proof.
  split; [reflexivity|].
  destruct (readMeshPrimitive_unsupported_mode symbolicSystem fourPointsReader
              triangleStripPrimitive None None 5 eq_refl)
    as [H|(e & material & H & _)]; try discriminate.
  exact H.
Defined.

Lemma readMeshIndices_float_indices :
  indicesNotUnsigned fourPointsReader floatIndicesPrimitive
  /\ readMeshIndices fourPointsReader
       (setPoints blankMeshData tt [0; 0; 0; 0; 0; 0; 0; 0; 0] tt) floatIndicesPrimitive
     = Return (false, setPoints blankMeshData tt [0; 0; 0; 0; 0; 0; 0; 0; 0] tt).
Proof.
  assert (Hun : indicesNotUnsigned fourPointsReader floatIndicesPrimitive)
    by (repeat split; discriminate).
  split; [exact Hun|].
  exact (readMeshIndices_declared_never_manufactured fourPointsReader _
           floatIndicesPrimitive (IdNum 0) eq_refl Hun).
Defined.

(** ** Textured meshes *)

Section TexturedMeshes.

Context {X : ExternalTypes} (sys : Collaborators X) (r : GltfReader).

(** No mesh is returned for a textured material without the uv parameters
    the texture is mapped with: when the material of a primitive has a
    texture mapping, the mesh data the primitive is read as has uv
    parameters.  (A draco-compressed primitive returns before the check;
    its parameters go into the primitive itself.) *)
Theorem readMeshPrimitive_textured_mesh_has_uvs (primitive : GltfMeshPrimitive.t)
    (featureTable : option (FeatureTable X)) (pseudoRtcBias : option (Vector3d X))
    (mesh : GltfMeshData X) (material : GltfMaterial) (mapping : TextureMapping X) :
  readMeshPrimitive sys r primitive featureTable pseudoRtcBias = Ran (Return (Some mesh)) ->
  GltfMeshPrimitive.KHR_draco_mesh_compression primitive = None ->
  materialOf r primitive = Some material ->
  findTextureMappingFor sys r material (isMaterialTransparent (_glTF r) material)
  = Return (Some mapping) ->
  isSome (uvs mesh) = true.
Proof.
  intros H Hdraco Hmat Htm. unfold materialOf in Hmat. cbv zeta in Hmat.
  unfold readMeshPrimitive in H. cbv zeta in H. rewrite Hmat in H.
  unfold createDisplayParams in H. cbv zeta in H. rewrite Htm in H.
  cbn [bind bindFueled] in H.
  destruct (primitiveTypeOf _) as [primitiveType|]; [|discriminate].
  destruct (readBufferData16 r _ "_COLORINDEX") as [ci|e]; cbn [bindFueled] in H;
    [|discriminate].
  rewrite Hdraco in H.
  destruct (readVertices sys r _ primitive pseudoRtcBias) as [[[ok m0]|e]|];
    cbn [bindFueled] in H; try discriminate.
  destruct ok; cbn [negb] in H; [|discriminate].
  injection H as H.
  match type of H with
  | bind ?c _ = _ => destruct c as [[m1|]|e]
  end; cbn [bind] in H; try discriminate.
  cbn [textureMapping isSome andb] in H.
  destruct (isSome (uvs m1)) eqn:Hu; cbn [negb] in H; [|discriminate].
  destruct (GltfMeshPrimitive.CESIUM_primitive_outline primitive) as [outline|].
  - destruct (readBufferData32 r (Some outline) "indices") as [[data|]|e];
      cbn [bind] in H; try discriminate; injection H as <-; exact Hu.
  - injection H as <-. exact Hu.
Qed.

End TexturedMeshes.

(** The symbolic renderer with a texture for every material, and with uv
    parameters found for every mesh. *)
Definition texturedSystem : Collaborators symbolicTypes :=
  @mkCollaborators symbolicTypes
    (nodeTransform symbolicSystem) (multiplyTransformTransform symbolicSystem)
    (isIdentity symbolicSystem) (inverse symbolicSystem) (multiplyRange symbolicSystem)
    (matrix_multiplyInverse symbolicSystem) (magnitudeBelow1e5 symbolicSystem)
    (createTranslation symbolicSystem) (createTranslationXYZ symbolicSystem)
    (createIdentity symbolicSystem) (rotateYUp symbolicSystem)
    (Range3d_createNull symbolicSystem) (Range3d_createXYZXYZ symbolicSystem)
    (Range3d_subtract symbolicSystem) (extendRange symbolicSystem)
    (rangeOfPositions symbolicSystem) (QParams3d_fromRange symbolicSystem)
    (quantizePosition symbolicSystem) (createGraphicList symbolicSystem)
    (createBranch symbolicSystem) (createBatch symbolicSystem)
    (createRealityMesh symbolicSystem) (RealityMeshParams_fromGltfMesh symbolicSystem)
    (createRenderMaterial symbolicSystem) (normalMapParamsDefined symbolicSystem)
    (Mesh_create symbolicSystem) (Mesh_hasPolylines symbolicSystem)
    (Mesh_getGraphics symbolicSystem) (Mesh_populate symbolicSystem)
    (Mesh_addDraco symbolicSystem) (Mesh_setEdges symbolicSystem)
    (fun _ _ _ => Return (Some tt)) (colorIndexParams symbolicSystem)
    (readNormals symbolicSystem)
    (fun _ mesh _ _ => Return (true, setUVs mesh [0; 0] tt))
    (deduplicateVertices symbolicSystem) (readPolylines symbolicSystem).

Lemma readMeshPrimitive_textured_points :
  exists mesh,
    readMeshPrimitive texturedSystem fourPointsReader fourPointsPrimitive None None
    = Ran (Return (Some mesh))
    /\ isSome (uvs mesh) = true.
Proof.
  destruct (readMeshPrimitive texturedSystem fourPointsReader fourPointsPrimitive None None)
    as [[[mesh|]|e]|] eqn:E; try discriminate E.
  exists mesh. split; [reflexivity|].
  exact (readMeshPrimitive_textured_mesh_has_uvs texturedSystem fourPointsReader
           fourPointsPrimitive None None mesh emptyMaterial tt
           E eq_refl eq_refl eq_refl).
Defined.

(** ** Alignment of the bytes of a buffer view *)

Section AlignedViews.

Variable r : GltfReader.

Lemma relativeIndex_in_range (len rel : Z) : 0 <= rel <= len -> relativeIndex len rel = rel.
Proof.
  intro H. unfold relativeIndex.
  destruct (Z.ltb_spec rel 0); lia.
Qed.

Lemma getBufferView_try_byteOffset json accessorName accessor bufferView bufferData dataSize :
  accessorNamed r json accessorName = Some accessor ->
  bufferViewOf r accessor = Some bufferView ->
  resolvedBufferOf r bufferView = Some bufferData ->
  dataSizeOf (GltfAccessor.componentType accessor) = Some dataSize ->
  let offset :=
    orZero (GltfBufferViewProps.byteOffset bufferView)
    + orZero (GltfAccessor.byteOffset accessor) in
  exists view,
    getBufferView_try r json accessorName = Return (Some view)
    /\ GltfBufferView.type view = GltfAccessor.componentType accessor
    /\ byteOffset (GltfBufferView.data view)
       = (if 0 =? Z.rem (byteOffset bufferData + offset) dataSize
          then byteOffset bufferData + relativeIndex (byteLength bufferData) offset
          else 0).
Proof.
  intros Ha Hbv Hbuf Hsize offset. subst offset.
  unfold getBufferView_try, accessorNamed, asString in *.
  destruct json as [json|]; [|discriminate].
  destruct (dict_get json accessorName) as [id|]; [|discriminate].
  destruct (String.eqb (propertyKey id) ""); [discriminate|].
  rewrite Ha. unfold bufferViewOf in Hbv.
  destruct (GltfAccessor.bufferView accessor) as [bv|]; [|discriminate].
  rewrite Hbv. unfold resolvedBufferOf in Hbuf.
  destruct (GltfBufferViewProps.buffer bufferView) as [b|]; [|discriminate].
  destruct (dict_at (_buffers r) b) as [buffer|]; [|discriminate].
  rewrite Hbuf, Hsize.
  rewrite offsetOf_orZero.
  eexists; split; [reflexivity|]. split; [reflexivity|].
  cbn [GltfBufferView.data].
  destruct (0 =? Z.rem _ dataSize); reflexivity.
Qed.

Lemma createDataBuffer_aligned bytes type dataSize :
  dataSizeOf type = Some dataSize ->
  Z.rem (byteOffset bytes) dataSize = 0 ->
  exists data, GltfBufferData.createDataBuffer bytes type = Return data.
Proof.
  unfold dataSizeOf, GltfBufferData.createDataBuffer, typedArrayOver.
  intros Hs Hrem. type_cases; try (rewrite Hrem); eauto.
Qed.

(** The copy that [getBufferView] takes of misaligned data does its work:
    when the offset of an accessor lies inside its buffer, the bytes of the
    view begin at a multiple of the component size, and the view is read
    as data of any type without an exception. *)
Theorem getBufferView_in_range_is_aligned
    (json : option (JsonObject GltfId)) (accessorName : string)
    (accessor : GltfAccessor.t) (bufferView : GltfBufferViewProps.t)
    (bufferData : Uint8Array) (dataSize : Z) :
  accessorNamed r json accessorName = Some accessor ->
  bufferViewOf r accessor = Some bufferView ->
  resolvedBufferOf r bufferView = Some bufferData ->
  dataSizeOf (GltfAccessor.componentType accessor) = Some dataSize ->
  0 <= orZero (GltfBufferViewProps.byteOffset bufferView)
       + orZero (GltfAccessor.byteOffset accessor) <= byteLength bufferData ->
  exists view,
    getBufferView r json accessorName = Return (Some view)
    /\ Z.rem (byteOffset (GltfBufferView.data view)) dataSize = 0
    /\ (forall type, exists data, GltfBufferView.toBufferData view type = Return data)
    /\ (forall type, exists data, readBufferData r json accessorName type = Return data).
Proof.
  intros Ha Hbv Hbuf Hsize Hrange.
  destruct (getBufferView_try_byteOffset json accessorName accessor bufferView bufferData
              dataSize Ha Hbv Hbuf Hsize) as (view & Hv & Ht & Ho).
  cbv zeta in Ho. rewrite relativeIndex_in_range in Ho by exact Hrange.
  assert (Hal : Z.rem (byteOffset (GltfBufferView.data view)) dataSize = 0).
  { rewrite Ho.
    destruct (Z.eqb_spec 0 (Z.rem (byteOffset bufferData
                                   + (orZero (GltfBufferViewProps.byteOffset bufferView)
                                      + orZero (GltfAccessor.byteOffset accessor)))
                              dataSize)) as [E|_];
      [now symmetry | apply Z.rem_0_l].
    destruct (dataSizeOf_values _ _ Hsize) as [->|[->| ->]]; discriminate. }
  assert (Hto : forall type, exists data, GltfBufferView.toBufferData view type = Return data).
  { intro type. unfold GltfBufferView.toBufferData, GltfBufferData.create.
    destruct (negb (type =? GltfBufferView.type view)
              && GltfBufferData.refusesMismatch (GltfBufferView.type view) type);
      [eauto|].
    rewrite <- Ht in Hsize.
    destruct (createDataBuffer_aligned _ _ _ Hsize Hal) as [data ->]. cbn [bind]. eauto. }
  exists view. unfold getBufferView, readBufferData, getBufferView. rewrite Hv.
  cbn [tryCatch bind]. repeat split; auto.
Qed.

End AlignedViews.

(** Three unsigned shorts that begin at the odd offset [1] of their
    buffer. *)
Definition oddOffsetReader : GltfReader :=
  readerOfDocument
    (GltfDocument.mk "" None None None
       (Some (jsonObject [("0", GltfAccessor.mk (Some (IdNum 0)) None GltfDataType.UnsignedShort 3
                      "SCALAR" None)]))
       (Some (jsonObject [("0", GltfBufferViewProps.mk (Some (IdNum 0)) None (Some 1) None)]))
       (Some (jsonObject [("0", GltfBuffer.mk None (Some (mkUint8Array 0 [9; 1; 0; 2; 0; 3; 0])))]))
       None None None).

Lemma getBufferView_odd_offset :
  exists view,
    getBufferView oddOffsetReader (Some [("indices", IdNum 0)]) "indices" = Return (Some view)
    /\ GltfBufferView.data view = mkUint8Array 0 [1; 0; 2; 0; 3; 0]
    /\ readBufferData16 oddOffsetReader (Some [("indices", IdNum 0)]) "indices"
       = Return (Some (GltfBufferData.mk (Uint16Elements [1; 2; 3]) 3)).
Proof.
  destruct (getBufferView_in_range_is_aligned oddOffsetReader
              (Some [("indices", IdNum 0)]) "indices"
              (GltfAccessor.mk (Some (IdNum 0)) None GltfDataType.UnsignedShort 3
                 "SCALAR" None)
              (GltfBufferViewProps.mk (Some (IdNum 0)) None (Some 1) None)
              (mkUint8Array 0 [9; 1; 0; 2; 0; 3; 0]) 2
              eq_refl eq_refl eq_refl eq_refl)
    as (view & Hv & _).
  - vm_compute. split; discriminate.
  - exists view. split; [exact Hv|].
    vm_compute in Hv. injection Hv as <-. split; reflexivity.
Defined.

(** ** What [GltfReaderProps.create] accepts *)

(** The asset of a document: the JSON object or array under the key
    [asset]. *)
Definition documentAsset (json : Json) : option Json :=
  JsonUtils.asObject (propertyOf json "asset").

(** The string [create] makes of the scene of a document. *)
Definition sceneString (pf : Platform) (json : Json) : Result string :=
  JsonUtils.asString (Number_toString pf) (propertyOf json "scene").

Lemma create_not_null (pf : Platform) (source : GltfSource) (yAxisUp : bool)
    (baseUrl : option string) (version : Z) (json : Json) (binaryData : option Uint8Array) :
  GltfReaderProps.parseSource pf source = Return (Some (version, json, binaryData)) ->
  json <> JNull ->
  exists glTF : string -> GltfDocumentProps,
    (forall scene,
       props_asset (glTF scene) = documentAsset json
       /\ props_scene (glTF scene) = scene)
    /\ GltfReaderProps.create pf source yAxisUp baseUrl
       = if (version =? 2) && negb (isSome (documentAsset json)) then Return None
         else
           scene <- sceneString pf json ;;
           Return (if isSome (documentMeshes json)
                   then Some (GltfReaderProps.mk version (glTF scene) yAxisUp
                                binaryData baseUrl)
                   else None).
Proof.
  intros Hparse Hnull. unfold GltfReaderProps.create. rewrite Hparse. cbn [bind].
  rewrite !(getProperty_not_null json) by assumption. cbn [bind].
  eexists (fun scene => mkDocumentProps _ scene _ _ _ _ _ _ _ _ _ _ _ _ _ _).
  split; [intro scene; split; reflexivity|].
  unfold documentAsset. destruct (_ && _); reflexivity.
Qed.

(** Once the source has parsed to a JSON value that is not [null]: where
    the scene of the document can be made a string (it always can, unless
    it is or holds an object with a member called [toString]),
    [GltfReaderProps.create] throws nothing, and it returns [undefined] in
    two cases only: the document has no meshes dictionary, or it is of
    version 2 (any JSON source, and a binary container that says so) and
    has no asset; the properties it returns otherwise carry the version
    and the binary chunk of the source, the arguments of the call and that
    string as the scene.  Where making the string throws, [create] throws
    the same, unless the asset of a version 2 document is missing: it has
    returned [undefined] before. *)
Theorem create_returns_undefined_exactly_when (pf : Platform) (source : GltfSource)
    (yAxisUp : bool) (baseUrl : option string) (version : Z) (json : Json)
    (binaryData : option Uint8Array) :
  GltfReaderProps.parseSource pf source = Return (Some (version, json, binaryData)) ->
  json <> JNull ->
  match sceneString pf json with
  | Return scene =>
      (GltfReaderProps.create pf source yAxisUp baseUrl = Return None
       <-> (version = 2 /\ documentAsset json = None) \/ documentMeshes json = None)
      /\ (exists props, GltfReaderProps.create pf source yAxisUp baseUrl = Return props)
      /\ (forall props,
            GltfReaderProps.create pf source yAxisUp baseUrl = Return (Some props) ->
            GltfReaderProps.version props = version
            /\ GltfReaderProps.binaryData props = binaryData
            /\ GltfReaderProps.yAxisUp props = yAxisUp
            /\ GltfReaderProps.baseUrl props = baseUrl
            /\ props_asset (GltfReaderProps.glTF props) = documentAsset json
            /\ props_scene (GltfReaderProps.glTF props) = scene)
  | Throw e =>
      GltfReaderProps.create pf source yAxisUp baseUrl
      = if (version =? 2) && negb (isSome (documentAsset json)) then Return None
        else Throw e
  end.
Proof.
  intros Hp Hjson.
  destruct (create_not_null pf source yAxisUp baseUrl version json binaryData Hp Hjson)
    as (glTF & Hg & ->).
  destruct (sceneString pf json) as [scene|e]; cbn [bind];
    [|destruct (_ && _); reflexivity].
  destruct (Hg scene) as [Ha Hs].
  destruct (Z.eqb_spec version 2) as [Hv|Hv]; cbn [andb];
    destruct (documentAsset json) as [asset|]; cbn [isSome negb];
    destruct (documentMeshes json) as [meshes|]; cbn [isSome];
    (split; [split; [intro H; try discriminate H; auto
                    | intros [[H1 H2]|H]; congruence]
            | split; [eauto|]]);
    intros props H; try discriminate H; injection H as <-; cbn; auto 7.
Qed.

(** A platform on which every source is a binary container of version 1
    whose JSON chunk is a document with an empty meshes dictionary. *)
Definition containerPlatform : Platform :=
  mkPlatform (fun _ => "0")
    (fun _ => Return (mkGlbHeader true 1 None (20, 0)))
    (fun source _ _ => Return source) (fun _ => Return (Some "{}"))
    (fun _ => Return (JObject [("meshes", JObject [])])).

(** The first four bytes of a binary container: the text [glTF]. *)
Definition containerBytes : Uint8Array := mkUint8Array 0 [103; 108; 84; 70].

Lemma create_version_1_without_asset :
  let json := JObject [("meshes", JObject [])] in
  GltfReaderProps.parseSource containerPlatform (SourceBytes containerBytes)
  = Return (Some (1, json, None))
  /\ documentAsset json = None
  /\ (exists props,
        GltfReaderProps.create containerPlatform (SourceBytes containerBytes) false None
        = Return (Some props)
        /\ GltfReaderProps.version props = 1
        /\ props_scene (GltfReaderProps.glTF props) = "")
  /\ GltfReaderProps.create containerPlatform (SourceDocument json) false None = Return None.
Proof.
  cbv zeta. split; [reflexivity|]. split; [reflexivity|]. split.
  - eexists. repeat split.
  - assert (Hnull : JObject [("meshes", JObject [])] <> JNull) by discriminate.
    pose proof (create_returns_undefined_exactly_when containerPlatform
                  (SourceDocument (JObject [("meshes", JObject [])]))
                  false None 2 _ None eq_refl Hnull) as H.
    cbn [sceneString propertyOf dict_get JsonUtils.asString] in H.
    apply (proj1 H). left. split; reflexivity.
Defined.

(** A source of fewer than four bytes makes [create] throw the
    [RangeError] of the read of its first four bytes, which is outside any
    [try].  Bytes that are no binary container are read as the text of a
    JSON document.  A text that cannot be decoded, that is empty or that
    does not parse makes [create] return [undefined]: the exception is
    caught.  The text [null] parses, and [create] then throws a [TypeError]
    where it reads the asset of the document. *)
Theorem create_of_json_bytes (pf : Platform) (source : Uint8Array) (yAxisUp : bool)
    (baseUrl : option string) :
  match readUint32 source with
  | Throw e =>
      (List.length (octets source) < 4)%nat /\ e = RangeError
      /\ GltfReaderProps.create pf (SourceBytes source) yAxisUp baseUrl = Throw RangeError
  | Return magic =>
      (4 <= List.length (octets source))%nat
      /\ (magic <> TileFormat_Gltf ->
          match utf8ToString pf source with
          | Throw _ | Return None | Return (Some EmptyString) =>
              GltfReaderProps.create pf (SourceBytes source) yAxisUp baseUrl = Return None
          | Return (Some text) =>
              match JSON_parse pf text with
              | Throw _ =>
                  GltfReaderProps.create pf (SourceBytes source) yAxisUp baseUrl
                  = Return None
              | Return JNull =>
                  GltfReaderProps.create pf (SourceBytes source) yAxisUp baseUrl
                  = Throw TypeError
              | Return json =>
                  GltfReaderProps.parseSource pf (SourceBytes source)
                  = Return (Some (2, json, None))
              end
          end)
  end.
Proof.
  unfold GltfReaderProps.create, GltfReaderProps.parseSource, readUint32.
  destruct (octets source) as [|b0 [|b1 [|b2 [|b3 rest]]]]; cbn [bind List.length];
    try (repeat split; lia).
  split; [lia|]. intro Hne.
  destruct (Z.eqb_spec TileFormat_Gltf (b0 + 256 * b1 + 65536 * b2 + 16777216 * b3))
    as [E|_]; [congruence|]. cbn [negb].
  destruct (utf8ToString pf source) as [[[|c text]|]|e]; cbn [bind tryCatch]; try reflexivity.
  destruct (JSON_parse pf (String c text)) as [json|e]; cbn [bind tryCatch];
    [destruct json|]; reflexivity.
Qed.

Lemma create_of_the_text_null :
  GltfReaderProps.create jsonOnlyPlatform (SourceBytes nullText) false None = Throw TypeError
  /\ GltfReaderProps.create jsonOnlyPlatform (SourceBytes (mkUint8Array 0 [123; 125])) false None
     = Throw RangeError.
Proof.
  split.
  - refine (proj2 (create_of_json_bytes jsonOnlyPlatform nullText false None) _).
    discriminate.
  - exact (proj2 (proj2 (create_of_json_bytes jsonOnlyPlatform (mkUint8Array 0 [123; 125])
                           false None))).
Defined.

(** ** Vertices given to one triangle each: [deduplicateVertices]

    The function asserts that the number of indices is a multiple of
    three; the assertion is the hypothesis of the property proved of it,
    and the function is modelled as it runs when the assertion holds. *)

Section DeduplicateVertices.

Context {X : ExternalTypes}.

(** The number an element of a [Float32Array] holds, and the element a
    number is stored as.  The index array of a mesh is never one of floats
    (its type rules that out, and [readMeshIndices] checks it), so no
    property below depends on the two. *)
Variable float32Value : Z -> Q.
Variable float32Bits : Z -> Z.

(** [indices[i]], as a number. *)
Definition indexValues (b : GltfDataBuffer) : list Q :=
  match b with
  | Float32Elements l => map float32Value l
  | Uint8Elements l | Uint16Elements l | Uint32Elements l => map inject_Z l
  end.

(** The array [mesh.indices] is after the loop has stored [i] into its
    element [i]: an array of 32 bits in place of one of 8 or of 16 bits
    that cannot hold the last index, the array it was (with new elements)
    otherwise. *)
Definition renumbered (b : GltfDataBuffer) : GltfDataBuffer :=
  let numPoints := List.length (elementsOf b) in
  let stored (modulus : Z) := map (fun i => Z.of_nat i mod modulus) (seq 0 numPoints) in
  match b with
  | Uint16Elements _ =>
      if 65535 <? Z.of_nat numPoints then Uint32Elements (stored 4294967296)
      else Uint16Elements (stored 65536)
  | Uint8Elements _ =>
      if 255 <? Z.of_nat numPoints then Uint32Elements (stored 4294967296)
      else Uint8Elements (stored 256)
  | Uint32Elements _ => Uint32Elements (stored 4294967296)
  | Float32Elements _ =>
      Float32Elements (map (fun i => float32Bits (Z.of_nat i)) (seq 0 numPoints))
  end.

(** [private deduplicateVertices(mesh)] *)
Definition GltfReader_deduplicateVertices (mesh : GltfMeshData X) : bool * GltfMeshData X :=
  match points mesh, indices mesh with
  | Some pts, Some oldIndices =>
      let vertexOf := indexValues oldIndices in
      let newPoints :=
        flat_map (fun index =>
                    [storedUint16 (elementAt pts (index * 3 + 0)%Q);
                     storedUint16 (elementAt pts (index * 3 + 1)%Q);
                     storedUint16 (elementAt pts (index * 3 + 2)%Q)])
                 vertexOf in
      let newNormals :=
        option_map (fun old => map (fun index => storedUint16 (elementAt old index)) vertexOf)
                   (normals mesh) in
      let newUVs :=
        option_map (fun old =>
                      flat_map (fun index =>
                                  [storedUint16 (elementAt old (index * 2 + 0)%Q);
                                   storedUint16 (elementAt old (index * 2 + 1)%Q)])
                               vertexOf)
                   (uvs mesh) in
      (true,
       mkMeshData (primitive mesh) (pointQParams mesh) (Some newPoints) (pointRange mesh)
         newNormals (uvQParams mesh) newUVs (uvRange mesh) (Some (renumbered oldIndices)))
  | _, _ => (false, mesh)
  end.

(** The coordinates of the vertex that the corner [i] of the index array
    points to. *)
Definition cornerVertex (pts : list Z) (vertexIndices : list Z) (i : nat)
  : option (Z * Z * Z) :=
  match nth_error vertexIndices i with
  | Some k =>
      match nth_error pts (Z.to_nat (3 * k)), nth_error pts (Z.to_nat (3 * k + 1)),
            nth_error pts (Z.to_nat (3 * k + 2)) with
      | Some x, Some y, Some z => Some (x, y, z)
      | _, _, _ => None
      end
  | None => None
  end.

Definition isFloatArray (b : GltfDataBuffer) : bool :=
  match b with Float32Elements _ => true | _ => false end.

(** The new array [new] holds, for the corner [i] of the index array, the
    [m] values that the old array [old] holds for the vertex the corner
    pointed to. *)
Definition copiesVertices (m : nat) (old new vertexIndices : list Z) : Prop :=
  forall i k c v,
    nth_error vertexIndices i = Some k -> (c < m)%nat ->
    nth_error old (Z.to_nat k * m + c) = Some v ->
    nth_error new (i * m + c) = Some v.

End DeduplicateVertices.

Lemma Qred_inject_Z (z : Z) : Qred (inject_Z z) = inject_Z z.
Proof.
  unfold Qred, inject_Z.
  pose proof (Z.ggcd_gcd z 1) as Hg. pose proof (Z.ggcd_correct_divisors z 1) as Hd.
  cbn [Qnum Qden]. destruct (Z.ggcd z 1) as [g [aa bb]]. cbn [fst snd] in *.
  rewrite Z.gcd_1_r in Hg. subst g. destruct Hd as [-> Hb].
  rewrite Z.mul_1_l in Hb. subst bb. now rewrite Z.mul_1_l.
Qed.

Lemma elementAt_whole (l : list Z) (q : Q) (z : Z) :
  (q == inject_Z z)%Q -> 0 <= z -> elementAt l q = nth_error l (Z.to_nat z).
Proof.
  intros Hq Hz. unfold elementAt. rewrite (Qred_complete _ _ Hq), Qred_inject_Z.
  cbn [inject_Z Qnum Qden]. cbn [Z.eqb Pos.eqb andb].
  now destruct (Z.leb_spec 0 z); [|lia].
Qed.

Lemma nth_error_flat_map_chunk {A B : Type} (f : A -> list B) (m : nat) (l : list A) :
  (forall a, List.length (f a) = m) ->
  forall i c a,
    nth_error l i = Some a -> (c < m)%nat ->
    nth_error (flat_map f l) (i * m + c) = nth_error (f a) c.
Proof.
  intro Hlen. induction l as [|x l IH]; intros i c a Hi Hc; [now destruct i|].
  destruct i as [|i]; cbn [nth_error flat_map] in *.
  - injection Hi as ->. rewrite nth_error_app1 by (rewrite Hlen; exact Hc). reflexivity.
  - rewrite nth_error_app2 by (rewrite Hlen; cbn; lia).
    rewrite Hlen. replace (S i * m + c - m)%nat with (i * m + c)%nat by (cbn; lia).
    now apply IH.
Qed.

Lemma storedUint16_small (v : Z) : 0 <= v < 65536 -> storedUint16 (Some v) = v.
Proof. intro H. unfold storedUint16. now apply Z.mod_small. Qed.

Lemma seq_stored_small (modulus : Z) (n : nat) :
  Z.of_nat n <= modulus ->
  map (fun i => Z.of_nat i mod modulus) (seq 0 n) = map Z.of_nat (seq 0 n).
Proof.
  intro H. apply map_ext_in. intros i Hi. apply in_seq in Hi.
  apply Z.mod_small. lia.
Qed.

Section DeduplicateVerticesProperties.

Context {X : ExternalTypes}.
Variable float32Value : Z -> Q.
Variable float32Bits : Z -> Z.

Lemma renumbered_sequential (b : GltfDataBuffer) :
  isFloatArray b = false ->
  Z.of_nat (List.length (elementsOf b)) <= 4294967296 ->
  elementsOf (renumbered float32Bits b) = map Z.of_nat (seq 0 (List.length (elementsOf b))).
Proof.
  intros Hf Hn. destruct b as [l|l|l|l]; try discriminate Hf; cbn [renumbered elementsOf] in *.
  - destruct (Z.ltb_spec 255 (Z.of_nat (List.length l))); cbn [elementsOf];
      apply seq_stored_small; lia.
  - destruct (Z.ltb_spec 65535 (Z.of_nat (List.length l))); cbn [elementsOf];
      apply seq_stored_small; lia.
  - apply seq_stored_small; lia.
Qed.

Lemma indexValues_unsigned (b : GltfDataBuffer) :
  isFloatArray b = false -> indexValues float32Value b = map inject_Z (elementsOf b).
Proof. now destruct b. Qed.

Lemma copiesVertices_flat_map (m : nat) (old vertexIndices : list Z)
    (chunk : Q -> list Z) :
  (forall index, List.length (chunk index) = m) ->
  (forall k c,
     0 <= k -> (c < m)%nat ->
     nth_error (chunk (inject_Z k)) c
     = Some (storedUint16 (nth_error old (Z.to_nat k * m + c)))) ->
  Forall (fun v => 0 <= v < 65536) old ->
  Forall (fun k => 0 <= k) vertexIndices ->
  copiesVertices m old (flat_map chunk (map inject_Z vertexIndices)) vertexIndices.
Proof.
  intros Hlen Hchunk Hold Hidx i k c v Hi Hc Hv.
  rewrite (nth_error_flat_map_chunk chunk m _ Hlen i c (inject_Z k));
    [|now rewrite nth_error_map, Hi | exact Hc].
  rewrite Forall_forall in Hidx.
  rewrite Hchunk by (auto using nth_error_In; eauto using nth_error_In).
  rewrite Hv. f_equal. apply storedUint16_small.
  rewrite Forall_forall in Hold. eauto using nth_error_In.
Qed.

End DeduplicateVerticesProperties.

(** The values of a [Uint16Array], and of the unsigned index arrays. *)
Definition isUint16Array (l : list Z) : Prop := Forall (fun v => 0 <= v < 65536) l.

Definition whereDefined {A : Type} (P : A -> Prop) (o : option A) : Prop :=
  match o with
  | Some a => P a
  | None => True
  end.

Lemma map_as_flat_map {A B : Type} (f : A -> B) (l : list A) :
  map f l = flat_map (fun a => [f a]) l.
Proof. induction l as [|a l IH]; [reflexivity|]. cbn. now rewrite IH. Qed.

Lemma flat_map_chunks_length {A B : Type} (f : A -> list B) (m : nat) (l : list A) :
  (forall a, List.length (f a) = m) ->
  List.length (flat_map f l) = (m * List.length l)%nat.
Proof.
  intro H. induction l as [|a l IH]; cbn [flat_map List.length]; [lia|].
  rewrite length_app, H, IH. lia.
Qed.

Ltac chunk_value old z :=
  cbn [nth_error]; do 2 f_equal;
  rewrite (elementAt_whole old _ z); [f_equal; lia | unfold Qeq; cbn -[Z.mul Z.add]; lia | lia].

Section DeduplicatedMesh.

Context {X : ExternalTypes}.
Variable float32Value : Z -> Q.
Variable float32Bits : Z -> Z.

(** [deduplicateVertices] changes no triangle.  For a mesh with points and
    an index array of [n] unsigned indices, [n] a multiple of three as the
    function asserts, it answers [true]; the new index
    array holds [0], [1], ... [n - 1] exactly (the wider array it takes when
    the old one is of 8 or 16 bits is wide enough); the new points are [n]
    vertices; and the corner [i] of the new mesh has the coordinates, the
    normal and the uv parameters that the old arrays hold for the vertex
    which the corner [i] of the old index array pointed to. *)
Theorem deduplicateVertices_keeps_every_corner
    (mesh : GltfMeshData X) (pts : list Z) (oldIndices : GltfDataBuffer) :
  points mesh = Some pts ->
  indices mesh = Some oldIndices ->
  isFloatArray oldIndices = false ->
  (List.length (elementsOf oldIndices) mod 3 = 0)%nat ->
  Forall (fun k => 0 <= k) (elementsOf oldIndices) ->
  Z.of_nat (List.length (elementsOf oldIndices)) <= 4294967296 ->
  isUint16Array pts ->
  whereDefined isUint16Array (normals mesh) ->
  whereDefined isUint16Array (uvs mesh) ->
  let n := List.length (elementsOf oldIndices) in
  exists mesh',
    GltfReader_deduplicateVertices float32Value float32Bits mesh = (true, mesh')
    /\ option_map elementsOf (indices mesh') = Some (map Z.of_nat (seq 0 n))
    /\ (exists newPoints,
          points mesh' = Some newPoints
          /\ List.length newPoints = (3 * n)%nat
          /\ copiesVertices 3 pts newPoints (elementsOf oldIndices))
    /\ match normals mesh, normals mesh' with
       | Some old, Some new =>
           List.length new = n /\ copiesVertices 1 old new (elementsOf oldIndices)
       | None, None => True
       | _, _ => False
       end
    /\ match uvs mesh, uvs mesh' with
       | Some old, Some new =>
           List.length new = (2 * n)%nat
           /\ copiesVertices 2 old new (elementsOf oldIndices)
       | None, None => True
       | _, _ => False
       end.
Proof.
  intros Hp Hi Hf _ Hidx Hn Hpts Hnormals Huvs n.
  unfold GltfReader_deduplicateVertices. rewrite Hp, Hi.
  rewrite (indexValues_unsigned float32Value oldIndices Hf).
  eexists. split; [reflexivity|].
  cbn [indices points normals uvs option_map].
  split; [now rewrite (renumbered_sequential float32Bits oldIndices Hf Hn)|].
  split; [|split].
  - eexists. split; [reflexivity|]. split.
    + rewrite (flat_map_chunks_length _ 3) by reflexivity. now rewrite length_map.
    + apply copiesVertices_flat_map; auto.
      intros k c Hk Hc.
      destruct c as [|[|[|c]]];
        [chunk_value pts (3 * k) | chunk_value pts (3 * k + 1)
         | chunk_value pts (3 * k + 2) | lia].
  - destruct (normals mesh) as [old|]; cbn [option_map]; [|exact I].
    split; [now rewrite !length_map|].
    rewrite map_as_flat_map.
    apply copiesVertices_flat_map; auto.
    intros k c Hk Hc. destruct c as [|c]; [|lia]. cbn [nth_error]. do 2 f_equal.
    rewrite (elementAt_whole old _ k); [f_equal; lia | reflexivity | exact Hk].
  - destruct (uvs mesh) as [old|]; cbn [option_map]; [|exact I]. split.
    + rewrite (flat_map_chunks_length _ 2) by reflexivity. now rewrite length_map.
    + apply copiesVertices_flat_map; auto.
      intros k c Hk Hc.
      destruct c as [|[|c]];
        [chunk_value old (2 * k) | chunk_value old (2 * k + 1) | lia].
Qed.

End DeduplicatedMesh.

(** Three vertices with their normals, and two triangles that share
    them. *)
Definition sharedVerticesMesh : GltfMeshData symbolicTypes :=
  @mkMeshData symbolicTypes tt None (Some [10; 11; 12; 20; 21; 22; 30; 31; 32]) None
    (Some [7; 8; 9]) None None None (Some (Uint8Elements [2; 0; 1; 2; 1; 0])).

Lemma deduplicateVertices_two_triangles :
  exists mesh',
    GltfReader_deduplicateVertices (fun _ => 0%Q) (fun bits => bits) sharedVerticesMesh
    = (true, mesh')
    /\ indices mesh' = Some (Uint8Elements [0; 1; 2; 3; 4; 5])
    /\ points mesh'
       = Some [30; 31; 32; 10; 11; 12; 20; 21; 22; 30; 31; 32; 20; 21; 22; 10; 11; 12]
    /\ normals mesh' = Some [9; 7; 8; 9; 8; 7].
Proof.
  destruct (deduplicateVertices_keeps_every_corner (fun _ => 0%Q) (fun bits => bits)
              sharedVerticesMesh [10; 11; 12; 20; 21; 22; 30; 31; 32]
              (Uint8Elements [2; 0; 1; 2; 1; 0]) eq_refl eq_refl eq_refl eq_refl)
    as (mesh' & Hd & _).
  - repeat constructor; lia.
  - cbn; lia.
  - repeat constructor; lia.
  - repeat constructor; lia.
  - exact I.
  - exists mesh'. split; [exact Hd|].
    vm_compute in Hd. injection Hd as <-. repeat split.
Defined.

(** ** Polylines: [readPolylines] *)

(** Modelled from the spec: [MeshPolyline] (MeshPrimitives.ts) is not under
    src.  A polyline is the array of indices it was made of, as the array
    was when the polyline was made: the constructor keeps a copy, which
    the loop of [readPolylines] relies on when it empties its one array
    [indices] after a push.  The elements are read from the index buffer,
    and a read past the end of the buffer is [undefined]. *)
Definition PolylineIndices : Type := list (option Z).

(** [a === b] for two such elements. *)
Definition sameIndex (a b : option Z) : bool :=
  match a, b with
  | Some x, Some y => x =? y
  | None, None => true
  | _, _ => false
  end.

(** The values of [i] at which the loop over the segments begins a turn:
    [0], [2], [4], ... below [count]. *)
Definition segmentStarts (count : nat) : list nat :=
  map (fun k => (2 * k)%nat) (seq 0 (Nat.div2 (S count))).

(** One turn of the loop over the segments; the state is the list of the
    polylines pushed so far and the array [indices]. *)
Definition addSegment (buffer : list Z) (st : list PolylineIndices * PolylineIndices)
    (i : nat) : list PolylineIndices * PolylineIndices :=
  let '(polylines, indices) := st in
  let index0 := nth_error buffer i in
  let index1 := nth_error buffer (S i) in
  let '(polylines, indices) :=
    match indices with
    | [] => (polylines, [index0])
    | _ =>
        if negb (sameIndex index0 (last indices None))
        then (polylines ++ [indices], [index0])
        else (polylines, indices)
    end in
  (polylines, indices ++ [index1]).

(** The polylines [readPolylines] pushes for the index data it has read. *)
Definition polylinesOf (disjoint : bool) (data : GltfBufferData.t) : list PolylineIndices :=
  let buffer := elementsOf (GltfBufferData.buffer data) in
  let count := N.to_nat (GltfBufferData.count data) in
  let '(polylines, indices) :=
    if disjoint then ([], map (nth_error buffer) (seq 0 count))
    else fold_left (addSegment buffer) (segmentStarts count) ([], []) in
  match indices with
  | [] => polylines
  | _ => polylines ++ [indices]
  end.

(** [protected readPolylines(polylines, json, accessorName, disjoint)]; the
    second component is the list [polylines] after the call. *)
Definition GltfReader_readPolylines (r : GltfReader) (polylines : list PolylineIndices)
    (json : option (JsonObject GltfId)) (accessorName : string) (disjoint : bool)
  : Result (bool * list PolylineIndices) :=
  data <- readBufferData32 r json accessorName ;;
  match data with
  | None => Return (false, polylines)
  | Some data => Return (true, polylines ++ polylinesOf disjoint data)
  end.

(** The segments of a polyline, and the segments an index buffer holds:
    the pairs of indices the loop reads. *)
Fixpoint segmentsOf (p : PolylineIndices) : list (option Z * option Z) :=
  match p with
  | [] => []
  | a :: rest =>
      match rest with
      | [] => []
      | b :: _ => (a, b) :: segmentsOf rest
      end
  end.

Definition segmentsRead (data : GltfBufferData.t) : list (option Z * option Z) :=
  let buffer := elementsOf (GltfBufferData.buffer data) in
  map (fun i => (nth_error buffer i, nth_error buffer (S i)))
      (segmentStarts (N.to_nat (GltfBufferData.count data))).

(** No polyline of the list begins with the index the one before it ends
    with. *)
Fixpoint neverJoinable (ps : list PolylineIndices) : Prop :=
  match ps with
  | [] => True
  | p :: rest =>
      match rest with
      | [] => True
      | q :: _ => sameIndex (hd None q) (last p None) = false /\ neverJoinable rest
      end
  end.

Lemma sameIndex_eq (a b : option Z) : sameIndex a b = true -> a = b.
Proof.
  destruct a as [x|], b as [y|]; cbn; try discriminate; [|reflexivity].
  intro H. apply Z.eqb_eq in H. now subst.
Qed.

Lemma segmentsOf_snoc (p : PolylineIndices) (x : option Z) :
  p <> [] -> segmentsOf (p ++ [x]) = segmentsOf p ++ [(last p None, x)].
Proof.
  induction p as [|a p IH]; [congruence|]. intros _.
  destruct p as [|b p]; [reflexivity|].
  change (segmentsOf ((a :: b :: p) ++ [x])) with ((a, b) :: segmentsOf ((b :: p) ++ [x])).
  rewrite IH by discriminate. reflexivity.
Qed.

Lemma neverJoinable_push (ps : list PolylineIndices) (p q : PolylineIndices) :
  neverJoinable (ps ++ [p]) ->
  sameIndex (hd None q) (last p None) = false ->
  neverJoinable ((ps ++ [p]) ++ [q]).
Proof.
  intros H Hq. induction ps as [|a ps IH]; [cbn; auto|].
  destruct ps as [|b ps].
  - cbn in *. destruct H as [H _]. auto.
  - cbn [app neverJoinable] in *. destruct H as [H1 H2]. split; [exact H1|].
    apply IH. exact H2.
Qed.

Lemma neverJoinable_extend (ps : list PolylineIndices) (p : PolylineIndices) (x : option Z) :
  neverJoinable (ps ++ [p]) -> p <> [] -> neverJoinable (ps ++ [p ++ [x]]).
Proof.
  intros H Hp. induction ps as [|a ps IH]; [exact I|].
  destruct ps as [|b ps].
  - cbn in *. destruct H as [H _]. split; [|exact I].
    destruct p; [congruence | exact H].
  - cbn [app neverJoinable] in *. destruct H as [H1 H2]. split; [exact H1|].
    apply IH. exact H2.
Qed.

(** What the loop over the segments keeps true of the polylines it has
    pushed and of the array it is filling. *)
Definition joined (st : list PolylineIndices * PolylineIndices)
    (segments : list (option Z * option Z)) : Prop :=
  let '(polylines, indices) := st in
  flat_map segmentsOf polylines ++ segmentsOf indices = segments
  /\ Forall (fun p => (2 <= List.length p)%nat) polylines
  /\ match indices with
     | [] => polylines = []
     | _ => (2 <= List.length indices)%nat /\ neverJoinable (polylines ++ [indices])
     end.

Lemma addSegment_joined (buffer : list Z) st segments (i : nat) :
  joined st segments ->
  joined (addSegment buffer st i)
         (segments ++ [(nth_error buffer i, nth_error buffer (S i))]).
Proof.
  destruct st as [polylines indices]. intros (Hseg & Hlen & Hind).
  unfold addSegment.
  destruct indices as [|a indices].
  - subst polylines. cbn in *. subst segments. repeat split; auto.
  - destruct Hind as [H2 Hnj].
    destruct (sameIndex (nth_error buffer i) (last (a :: indices) None)) eqn:Hs; cbn [negb].
    + apply sameIndex_eq in Hs. unfold joined.
      rewrite segmentsOf_snoc by discriminate. rewrite <- Hs, app_assoc, Hseg.
      split; [reflexivity|]. split; [exact Hlen|].
      destruct ((a :: indices) ++ [nth_error buffer (S i)]) eqn:E; [discriminate|].
      rewrite <- E. split; [rewrite length_app; cbn; lia|].
      apply neverJoinable_extend; [exact Hnj | discriminate].
    + unfold joined. cbn [app segmentsOf].
      rewrite flat_map_app. cbn [flat_map]. rewrite app_nil_r, <- app_assoc.
      rewrite <- Hseg. split; [now rewrite <- app_assoc|].
      split; [apply Forall_app; split; [exact Hlen | now constructor]|].
      split; [cbn; lia|].
      apply neverJoinable_push; [exact Hnj | exact Hs].
Qed.

Lemma fold_addSegment_joined (buffer : list Z) (starts : list nat) :
  forall st segments,
    joined st segments ->
    joined (fold_left (addSegment buffer) starts st)
           (segments
            ++ map (fun i => (nth_error buffer i, nth_error buffer (S i))) starts).
Proof.
  induction starts as [|i starts IH]; intros st segments H; cbn [fold_left map].
  - now rewrite app_nil_r.
  - replace (segments ++ (nth_error buffer i, nth_error buffer (S i)) :: _)
      with ((segments ++ [(nth_error buffer i, nth_error buffer (S i))])
            ++ map (fun i => (nth_error buffer i, nth_error buffer (S i))) starts)
      by (now rewrite <- app_assoc).
    apply IH. now apply addSegment_joined.
Qed.

(** [readPolylines] joins the segments of its index buffer into polylines
    and loses none: the segments of the polylines it pushes, taken in
    order, are the pairs of indices it has read; every polyline has two
    indices at least; and no polyline could have been joined to the one
    before it.  For disjoint points it pushes the one polyline of all the
    indices, and none when there is no index.  It answers [false], and
    pushes nothing, only when the indices cannot be read. *)
Theorem readPolylines_joins_segments (r : GltfReader) (polylines : list PolylineIndices)
    (json : option (JsonObject GltfId)) (accessorName : string)
    (data : GltfBufferData.t) :
  readBufferData32 r json accessorName = Return (Some data) ->
  (exists new,
     GltfReader_readPolylines r polylines json accessorName false
     = Return (true, polylines ++ new)
     /\ flat_map segmentsOf new = segmentsRead data
     /\ Forall (fun p => (2 <= List.length p)%nat) new
     /\ neverJoinable new)
  /\ GltfReader_readPolylines r polylines json accessorName true
     = Return (true,
               polylines
               ++ match GltfBufferData.count data with
                  | 0%N => []
                  | count =>
                      [map (nth_error (elementsOf (GltfBufferData.buffer data)))
                           (seq 0 (N.to_nat count))]
                  end).
Proof.
  intro Hd. unfold GltfReader_readPolylines. rewrite Hd. cbn [bind]. split.
  - eexists. split; [reflexivity|]. unfold polylinesOf, segmentsRead.
    pose proof (fold_addSegment_joined (elementsOf (GltfBufferData.buffer data))
                  (segmentStarts (N.to_nat (GltfBufferData.count data))) ([], []) []) as H.
    destruct (fold_left _ _ _) as [ps indices].
    destruct H as (Hseg & Hlen & Hind); [repeat split; auto|].
    cbn [app] in Hseg. destruct indices as [|a indices].
    + subst ps. cbn in *. repeat split; auto.
    + destruct Hind as [H2 Hnj]. rewrite flat_map_app. cbn [flat_map].
      rewrite app_nil_r. split; [exact Hseg|]. split; [|exact Hnj].
      apply Forall_app. split; [exact Hlen | now constructor].
  - unfold polylinesOf.
    destruct (GltfBufferData.count data) as [|p] eqn:Hc; [reflexivity|].
    destruct (N.to_nat (N.pos p)) as [|n] eqn:Hn; [lia|]. reflexivity.
Qed.

(** Three segments in a buffer of bytes: two that meet at the index [1],
    and one apart. *)
Definition segmentsReader : GltfReader :=
  readerOfDocument
    (GltfDocument.mk "" None None None
       (Some (jsonObject [("0", GltfAccessor.mk (Some (IdNum 0)) None GltfDataType.UnsignedByte 6
                      "SCALAR" None)]))
       (Some (jsonObject [("0", GltfBufferViewProps.mk (Some (IdNum 0)) None None None)]))
       (Some (jsonObject [("0", GltfBuffer.mk None (Some (mkUint8Array 0 [0; 1; 1; 2; 5; 6])))]))
       None None None).

Lemma readPolylines_three_segments :
  GltfReader_readPolylines segmentsReader [] (Some [("indices", IdNum 0)]) "indices" false
  = Return (true, [[Some 0; Some 1; Some 2]; [Some 5; Some 6]])
  /\ GltfReader_readPolylines segmentsReader [] (Some [("indices", IdNum 0)]) "indices" true
     = Return (true, [[Some 0; Some 1; Some 1; Some 2; Some 5; Some 6]]).
Proof.
  destruct (readPolylines_joins_segments segmentsReader [] (Some [("indices", IdNum 0)])
              "indices" (GltfBufferData.mk (Uint8Elements [0; 1; 1; 2; 5; 6]) 6) eq_refl)
    as [_ Hdisjoint].
  split; [reflexivity | exact Hdisjoint].
Defined.

(** ** Normals: [readNormals] *)

(** An operand of [|] or [<<] that was read from an array of bytes:
    [undefined] counts as [0], and a byte is the integer it is (shifted by
    eight bits it stays far below 32 bits). *)
Definition asInt32 (v : option Z) : Z :=
  match v with
  | Some z => z
  | None => 0
  end.

Definition setNormals {X} (mesh : GltfMeshData X) (n : list Z) : GltfMeshData X :=
  mkMeshData (primitive mesh) (pointQParams mesh) (points mesh) (pointRange mesh)
    (Some n) (uvQParams mesh) (uvs mesh) (uvRange mesh) (indices mesh).

Section ReadNormals.

Context {X : ExternalTypes}.

(** [OctEncodedNormal.encode] of the vector of three elements of a
    [Float32Array]. *)
Variable OctEncodedNormal_encode : option Z -> option Z -> option Z -> Z.

(** [protected readNormals(mesh, json, accessorName)] *)
Definition GltfReader_readNormals (r : GltfReader) (mesh : GltfMeshData X)
    (json : option (JsonObject GltfId)) (accessorName : string)
  : Result (bool * GltfMeshData X) :=
  view <- getBufferView r json accessorName ;;
  match view with
  | None => Return (false, mesh)
  | Some view =>
      let stride := GltfBufferView.stride view in
      if GltfBufferView.type view =? GltfDataType.Float then
        data <- GltfBufferView.toBufferData view GltfDataType.Float ;;
        match data with
        | None => Return (false, mesh)
        | Some data =>
            let floats := elementsOf (GltfBufferData.buffer data) in
            Return (true,
                    setNormals mesh
                      (map (fun i =>
                              let j := (inject_Z (Z.of_nat i) * stride)%Q in
                              storedUint16
                                (Some (OctEncodedNormal_encode (elementAt floats j)
                                         (elementAt floats (j + 1)%Q)
                                         (elementAt floats (j + 2)%Q))))
                           (seq 0 (N.to_nat (GltfBufferData.count data)))))
        end
      else if GltfBufferView.type view =? GltfDataType.UnsignedByte then
        data <- GltfBufferView.toBufferData view GltfDataType.UnsignedByte ;;
        match data with
        | None => Return (false, mesh)
        | Some data =>
            let octs := elementsOf (GltfBufferData.buffer data) in
            Return (true,
                    setNormals mesh
                      (map (fun i =>
                              let index := (inject_Z (Z.of_nat i) * stride)%Q in
                              storedUint16
                                (Some (Z.lor (asInt32 (elementAt octs index))
                                         (Z.shiftl (asInt32 (elementAt octs (index + 1)%Q))
                                                   8))))
                           (seq 0 (N.to_nat (GltfBufferData.count data)))))
        end
      else Return (false, mesh)
  end.

End ReadNormals.

Lemma lor_shiftl_bytes (a b : Z) :
  0 <= a < 256 -> 0 <= b -> Z.lor a (Z.shiftl b 8) = a + 256 * b.
Proof.
  intros Ha Hb.
  assert (Hland : Z.land a (Z.shiftl b 8) = 0).
  { apply Z.bits_inj'. intros n Hn. rewrite Z.land_spec, Z.bits_0.
    destruct (Z.ltb_spec n 8) as [Hlt|Hge].
    - rewrite (Z.shiftl_spec_low b 8 n Hlt). apply andb_false_r.
    - replace (Z.testbit a n) with false; [reflexivity|].
      symmetry. destruct (Z.eq_dec a 0) as [->|Hne]; [apply Z.bits_0|].
      apply Z.bits_above_log2; [lia|].
      assert (Z.log2 a < 8) by (apply Z.log2_lt_pow2; lia). lia. }
  rewrite <- (Z.lxor_lor _ _ Hland), <- (Z.add_nocarry_lxor _ _ Hland).
  rewrite Z.shiftl_mul_pow2 by lia. change (2 ^ 8) with 256. lia.
Qed.

Definition isUint8Array (l : list Z) : Prop := Forall (fun v => 0 <= v < 256) l.

Lemma byte_pairs_le16 (f : nat -> Z) (n : nat) :
  forall octs,
    isUint8Array octs ->
    (2 * n <= List.length octs)%nat ->
    (forall i a b,
       nth_error octs (2 * i) = Some a -> nth_error octs (2 * i + 1) = Some b ->
       f i = a + 256 * b) ->
    map f (seq 0 n) = firstn n (le16 octs).
Proof.
  revert f. induction n as [|n IH]; intros f octs Hb Hlen Hf; [reflexivity|].
  destruct octs as [|b0 [|b1 rest]]; cbn [List.length] in Hlen; try lia.
  cbn [seq map le16 firstn]. rewrite (Hf 0%nat b0 b1) by reflexivity. f_equal.
  rewrite <- seq_shift, map_map.
  apply IH.
  - unfold isUint8Array in *. now inversion Hb as [|? ? ? Hb']; inversion Hb'.
  - lia.
  - intros i a b Ha Hb1. apply (Hf (S i) a b).
    + replace (2 * S i)%nat with (S (S (2 * i))) by lia. exact Ha.
    + replace (2 * S i + 1)%nat with (S (S (2 * i + 1))) by lia. exact Hb1.
Qed.

Section ReadNormalsProperties.

Context {X : ExternalTypes}.
Variable OctEncodedNormal_encode : option Z -> option Z -> option Z -> Z.
Variable r : GltfReader.

(** Normals that are stored as pairs of bytes are read as the 16-bit
    little-endian numbers the pairs spell: with the pairs packed (a stride
    of two bytes) and all of them inside the view, the normals are the
    first [count] elements a [Uint16Array] over the bytes of the view
    would hold.  Normals of any other component type than bytes and floats
    make [readNormals] answer [false]. *)
Theorem readNormals_reads_byte_pairs_little_endian
    (mesh : GltfMeshData X) (json : option (JsonObject GltfId))
    (accessorName : string) (view : GltfBufferView.t) :
  getBufferView r json accessorName = Return (Some view) ->
  (GltfBufferView.type view = GltfDataType.UnsignedByte ->
   (GltfBufferView.stride view == 2)%Q ->
   isUint8Array (octets (GltfBufferView.data view)) ->
   2 * Z.of_N (GltfBufferView.count view) <= GltfBufferView.byteLength view ->
   GltfReader_readNormals OctEncodedNormal_encode r mesh json accessorName
   = Return (true,
             setNormals mesh
               (firstn (N.to_nat (GltfBufferView.count view))
                       (le16 (octets (GltfBufferView.data view))))))
  /\ (GltfBufferView.type view <> GltfDataType.UnsignedByte ->
      GltfBufferView.type view <> GltfDataType.Float ->
      GltfReader_readNormals OctEncodedNormal_encode r mesh json accessorName
      = Return (false, mesh)).
Proof.
  intro Hv. unfold GltfReader_readNormals. rewrite Hv. cbn [bind]. split.
  - intros Ht Hs Hbytes Hlen. rewrite Ht.
    change (GltfDataType.UnsignedByte =? GltfDataType.Float) with false.
    change (GltfDataType.UnsignedByte =? GltfDataType.UnsignedByte) with true.
    unfold GltfBufferView.toBufferData, GltfBufferData.create. rewrite Ht.
    cbn [Z.eqb Pos.eqb negb andb GltfDataType.UnsignedByte bind].
    unfold GltfBufferData.createDataBuffer.
    change (GltfDataType.UnsignedByte =? GltfDataType.UnsignedByte) with true.
    cbn [bind option_map GltfBufferData.buffer GltfBufferData.count elementsOf].
    do 3 f_equal. unfold GltfBufferView.byteLength in Hlen.
    apply byte_pairs_le16; [exact Hbytes | lia |].
    intros i a b Ha Hb.
    assert (Hq0 : (inject_Z (Z.of_nat i) * GltfBufferView.stride view
                   == inject_Z (Z.of_nat (2 * i)))%Q).
    { rewrite Hs. unfold Qeq. cbn -[Z.mul Z.add Z.of_nat Nat.mul]. lia. }
    assert (Hq1 : (inject_Z (Z.of_nat i) * GltfBufferView.stride view + 1
                   == inject_Z (Z.of_nat (2 * i + 1)))%Q).
    { rewrite Hs. unfold Qeq. cbn -[Z.mul Z.add Z.of_nat Nat.mul Nat.add]. lia. }
    rewrite (elementAt_whole _ _ _ Hq0), (elementAt_whole _ _ _ Hq1) by lia.
    rewrite !Nat2Z.id, Ha, Hb. cbn [asInt32].
    unfold isUint8Array in Hbytes. rewrite Forall_forall in Hbytes.
    pose proof (Hbytes a (nth_error_In _ _ Ha)) as Ra.
    pose proof (Hbytes b (nth_error_In _ _ Hb)) as Rb.
    rewrite lor_shiftl_bytes by lia. apply storedUint16_small. lia.
  - intros H8 HF.
    destruct (Z.eqb_spec (GltfBufferView.type view) GltfDataType.Float); [contradiction|].
    destruct (Z.eqb_spec (GltfBufferView.type view) GltfDataType.UnsignedByte);
      [contradiction | reflexivity].
Qed.

End ReadNormalsProperties.

(** Two normals of two bytes each. *)
Definition byteNormalsReader : GltfReader :=
  readerOfDocument
    (GltfDocument.mk "" None None None
       (Some (jsonObject [("0", GltfAccessor.mk (Some (IdNum 0)) None GltfDataType.UnsignedByte 2
                      "VEC2" None)]))
       (Some (jsonObject [("0", GltfBufferViewProps.mk (Some (IdNum 0)) None None None)]))
       (Some (jsonObject [("0", GltfBuffer.mk None (Some (mkUint8Array 0 [52; 18; 255; 0])))]))
       None None None).

Lemma readNormals_two_byte_pairs :
  GltfReader_readNormals (fun _ _ _ => 0) byteNormalsReader blankMeshData
    (Some [("NORMAL", IdNum 0)]) "NORMAL"
  = Return (true, setNormals blankMeshData [4660; 255]).
Proof.
  refine (proj1 (readNormals_reads_byte_pairs_little_endian (fun _ _ _ => 0)
                   byteNormalsReader blankMeshData (Some [("NORMAL", IdNum 0)]) "NORMAL"
                   (GltfBufferView.mk (mkUint8Array 0 [52; 18; 255; 0]) 2
                      GltfDataType.UnsignedByte
                      (GltfAccessor.mk (Some (IdNum 0)) None GltfDataType.UnsignedByte 2
                         "VEC2" None)
                      (2 # 1))
                   eq_refl) eq_refl _ _ _).
  - reflexivity.
  - repeat constructor; lia.
  - cbn; lia.
Defined.

(** ** What [readDracoMeshPrimitive] takes from a decoded mesh *)

(** The groups of [m] elements a loop [for (i = 0; i < l.length; i += m)]
    reads at [i], [i + 1], ... [i + m - 1]; an element past the end of the
    array is [undefined]. *)
Definition strided {A : Type} (m : nat) (l : list A) : list (list (option A)) :=
  map (fun k => map (fun c => nth_error l (m * k + c)%nat) (seq 0 m))
      (seq 0 ((List.length l + m - 1) / m)).

(** What is put into the mesh: the triangles added, the positions added to
    the points, the vectors of the normals pushed, the uv parameters
    pushed, and the feature indices set. *)
Record DracoGeometry : Type := mkDracoGeometry {
  dracoTriangles : list (list (option Z));
  dracoPositions : list (list (option Q));
  dracoNormals : list (list (option Q));
  dracoUvParams : list (list (option Q));
  dracoFeatureIndices : option (list Z)
}.

(** The body of [readDracoMeshPrimitive], for the decoded mesh [draco] and
    a primitive that has a feature table or has none: [None] where the
    method answers [false]. *)
Definition dracoGeometry (draco : DracoMesh) (hasFeatures : bool) : option DracoGeometry :=
  if negb (String.eqb "triangle-list" (topology draco)) then None
  else
    match draco_indices draco with
    | None => None
    | Some indices =>
        if negb (Z.rem (Z.of_nat (List.length indices)) 3 =? 0) then None
        else
          match draco_POSITION draco with
          | None => None
          | Some pos =>
              if negb (Z.rem (Z.of_nat (List.length pos)) 3 =? 0) then None
              else
                Some {|
                  dracoTriangles := strided 3 indices;
                  dracoPositions := strided 3 pos;
                  dracoNormals :=
                    match draco_NORMAL draco with
                    | Some normals =>
                        if Z.rem (Z.of_nat (List.length normals)) 3 =? 0
                        then strided 3 normals else []
                    | None => []
                    end;
                  dracoUvParams :=
                    match draco_TEXCOORD_0 draco with
                    | Some uvs =>
                        if Z.land (Z.of_nat (List.length uvs)) 2 =? 0
                        then strided 2 uvs else []
                    | None => []
                    end;
                  dracoFeatureIndices :=
                    match draco_BATCHID draco with
                    | Some batchIds => if hasFeatures then Some batchIds else None
                    | None => None
                    end
                |}
          end
    end.

(** The groups of [m] elements of a list, in order; elements left over at
    the end make no group. *)
Fixpoint groupsOf {A : Type} (fuel m : nat) (l : list A) : list (list A) :=
  match fuel with
  | O => []
  | S fuel' =>
      if (List.length l <? m)%nat then []
      else firstn m l :: groupsOf fuel' m (skipn m l)
  end.

Lemma map_nth_error_seq {A : Type} (g : list A) :
  map (nth_error g) (seq 0 (List.length g)) = map Some g.
Proof.
  induction g as [|a g IH]; [reflexivity|].
  cbn [List.length seq map nth_error]. f_equal.
  rewrite <- seq_shift, map_map. exact IH.
Qed.

Lemma firstn_as_nth_error {A : Type} (m : nat) (l : list A) :
  (m <= List.length l)%nat ->
  map (fun c => nth_error l c) (seq 0 m) = map Some (firstn m l).
Proof.
  intro H. rewrite <- map_nth_error_seq, length_firstn, Nat.min_l by exact H.
  apply map_ext_in. intros c Hc. apply in_seq in Hc.
  rewrite nth_error_firstn. now destruct (Nat.ltb_spec c m); [|lia].
Qed.

Lemma strided_whole_groups {A : Type} (m k : nat) :
  (0 < m)%nat ->
  forall l : list A,
    List.length l = (m * k)%nat ->
    strided m l = map (map Some) (groupsOf k m l)
    /\ List.concat (groupsOf k m l) = l
    /\ List.length (groupsOf k m l) = k.
Proof.
  intro Hm. unfold strided.
  induction k as [|k IH]; intros l Hl.
  - replace (List.length l) with 0%nat by lia.
    destruct l; [|cbn in Hl; lia].
    replace ((0 + m - 1) / m)%nat with 0%nat
      by (symmetry; apply Nat.div_small; lia).
    repeat split.
  - replace ((List.length l + m - 1) / m)%nat with (S k).
    2:{ rewrite Hl. replace (m * S k + m - 1)%nat with ((m - 1) + (S k) * m)%nat by lia.
        rewrite Nat.div_add by lia. rewrite Nat.div_small by lia. reflexivity. }
    cbn [groupsOf]. destruct (Nat.ltb_spec (List.length l) m) as [Hlt|_]; [nia|].
    assert (Hskip : List.length (skipn m l) = (m * k)%nat) by (rewrite length_skipn; nia).
    destruct (IH (skipn m l) Hskip) as (E & Hc & Hn).
    replace ((List.length (skipn m l) + m - 1) / m)%nat with k in E.
    2:{ rewrite Hskip. destruct k; [symmetry; apply Nat.div_small; lia|].
        replace (m * S k + m - 1)%nat with ((m - 1) + (S k) * m)%nat by lia.
        rewrite Nat.div_add by lia. rewrite Nat.div_small by lia. reflexivity. }
    cbn [seq map List.concat List.length]. rewrite <- seq_shift, map_map.
    repeat split.
    + f_equal.
      * rewrite Nat.mul_0_r. cbn [Nat.add]. apply firstn_as_nth_error. nia.
      * rewrite <- E. apply map_ext. intro j. apply map_ext_in. intros c Hin.
        apply in_seq in Hin. rewrite nth_error_skipn. f_equal. lia.
    + rewrite Hc. apply firstn_skipn.
    + now rewrite Hn.
Qed.

Lemma strided_divisible {A : Type} (m : nat) (l : list A) :
  (0 < m)%nat ->
  Z.rem (Z.of_nat (List.length l)) (Z.of_nat m) = 0 ->
  List.concat (strided m l) = map Some l
  /\ (List.length (strided m l) * m)%nat = List.length l
  /\ Forall (fun g => List.length g = m) (strided m l).
Proof.
  intros Hm Hrem.
  assert (Hk : List.length l = (m * (List.length l / m))%nat).
  { rewrite Z.rem_mod_nonneg in Hrem by lia.
    apply Nat2Z.inj. rewrite Nat2Z.inj_mul, Nat2Z.inj_div.
    pose proof (Z.div_mod (Z.of_nat (List.length l)) (Z.of_nat m)). lia. }
  destruct (strided_whole_groups m (List.length l / m) Hm l Hk) as (E & Hc & Hn).
  rewrite E. split; [|split].
  - rewrite <- concat_map, Hc. reflexivity.
  - rewrite length_map, Hn. lia.
  - unfold strided. apply Forall_forall. intros g Hg. rewrite <- E in Hg.
    unfold strided in Hg. apply in_map_iff in Hg. destruct Hg as (k & <- & _).
    now rewrite length_map, length_seq.
Qed.

Section DracoGeometryProperties.

Context {X : ExternalTypes} (sys : Collaborators X) (r : GltfReader).

(** What [readDracoMeshPrimitive] answers, and what it takes of the decoded
    mesh when it answers [true]: the mesh is a triangle list whose indices
    and position values come in threes, the triangles added are the
    indices three by three, and the points added are the positions three
    by three, none left out and none made up. *)
Theorem readDracoMeshPrimitive_takes_whole_triangles
    (mesh : Mesh X) (ext : DracoMeshCompression) (hasFeatures : bool) (filled : Mesh X) :
  readDracoMeshPrimitive sys r mesh ext = (true, filled) ->
  exists draco geometry indices pos,
    find (fun kv => Nat.eqb (fst kv) (identity ext)) (_dracoMeshes r)
    = Some (identity ext, draco)
    /\ dracoGeometry draco hasFeatures = Some geometry
    /\ topology draco = "triangle-list"
    /\ draco_indices draco = Some indices
    /\ draco_POSITION draco = Some pos
    /\ List.concat (dracoTriangles geometry) = map Some indices
    /\ Forall (fun t => List.length t = 3%nat) (dracoTriangles geometry)
    /\ List.concat (dracoPositions geometry) = map Some pos
    /\ Forall (fun p => List.length p = 3%nat) (dracoPositions geometry).
Proof.
  unfold readDracoMeshPrimitive.
  destruct (find _ (_dracoMeshes r)) as [[key draco]|] eqn:Hfind; [|discriminate].
  apply find_some in Hfind as Hkey. destruct Hkey as [_ Hkey]. cbn [fst] in Hkey.
  apply Nat.eqb_eq in Hkey. subst key.
  destruct (String.eqb_spec "triangle-list" (topology draco)) as [Ht|]; [|discriminate].
  cbn [negb]. destruct (draco_indices draco) as [indices|] eqn:Ei; [|discriminate].
  destruct (Z.eqb_spec (Z.rem (Z.of_nat (List.length indices)) 3) 0) as [Hi|];
    [|discriminate].
  cbn [negb]. destruct (draco_POSITION draco) as [pos|] eqn:Ep; [|discriminate].
  destruct (Z.eqb_spec (Z.rem (Z.of_nat (List.length pos)) 3) 0) as [Hp|];
    [|discriminate].
  cbn [negb]. intros _.
  destruct (strided_divisible 3 indices) as (Ci & _ & Fi); [lia | exact Hi|].
  destruct (strided_divisible 3 pos) as (Cp & _ & Fp); [lia | exact Hp|].
  exists draco. eexists. exists indices, pos.
  split; [reflexivity|]. split.
  - unfold dracoGeometry. rewrite <- Ht, Ei, Ep, Hi, Hp. cbn. reflexivity.
  - cbn [dracoTriangles dracoPositions]. repeat split; auto.
Qed.

End DracoGeometryProperties.

Lemma land_2_of_double (v : nat) :
  Z.land (Z.of_nat (2 * v)) 2 = if Nat.even v then 0 else 2.
Proof.
  rewrite Nat2Z.inj_mul. change (Z.of_nat 2) with 2.
  rewrite (Z.mul_comm 2), <- (Z.shiftl_mul_pow2 _ 1) by lia.
  change 2 with (Z.shiftl 1 1) at 1. rewrite <- Z.shiftl_land.
  change 1 with (Z.ones 1) at 1. rewrite Z.land_ones by lia.
  rewrite Z.shiftl_mul_pow2 by lia. change (2 ^ 1) with 2.
  destruct (Nat.even v) eqn:E.
  - apply Nat.even_spec in E. destruct E as [k ->].
    replace (Z.of_nat (2 * k)) with (Z.of_nat k * 2) by lia.
    rewrite Z.mod_mul by lia. reflexivity.
  - assert (Ho : Nat.odd v = true) by (unfold Nat.odd; now rewrite E).
    apply Nat.odd_spec in Ho. destruct Ho as [k ->].
    replace (Z.of_nat (2 * k + 1)) with (1 + Z.of_nat k * 2) by lia.
    rewrite Z.mod_add by lia. reflexivity.
Qed.

(** [readDracoMeshPrimitive] tests the number of uv values with [& 2],
    not with [% 2].  Of a decoded mesh with [v] vertices, hence [2 v] uv
    values, it takes the uv parameters, all [v] of them, when [v] is even,
    and none at all when [v] is odd. *)
Theorem readDracoMeshPrimitive_uvs_by_vertex_parity
    (draco : DracoMesh) (hasFeatures : bool) (geometry : DracoGeometry)
    (uvs : list Q) (v : nat) :
  dracoGeometry draco hasFeatures = Some geometry ->
  draco_TEXCOORD_0 draco = Some uvs ->
  List.length uvs = (2 * v)%nat ->
  if Nat.even v
  then List.concat (dracoUvParams geometry) = map Some uvs
       /\ List.length (dracoUvParams geometry) = v
  else dracoUvParams geometry = [].
Proof.
  unfold dracoGeometry.
  destruct (negb (String.eqb "triangle-list" (topology draco))); [discriminate|].
  destruct (draco_indices draco) as [indices|]; [|discriminate].
  destruct (negb (Z.rem (Z.of_nat (List.length indices)) 3 =? 0)); [discriminate|].
  destruct (draco_POSITION draco) as [pos|]; [|discriminate].
  destruct (negb (Z.rem (Z.of_nat (List.length pos)) 3 =? 0)); [discriminate|].
  intros Hg Huv Hlen. injection Hg as <-. cbn [dracoUvParams].
  rewrite Huv, Hlen, land_2_of_double.
  destruct (Nat.even v) eqn:E; [|reflexivity].
  cbn [Z.eqb].
  destruct (strided_divisible 2 uvs) as (C & L & _); [lia| |].
  - rewrite Hlen, Nat2Z.inj_mul. change (Z.of_nat 2) with 2.
    rewrite Z.mul_comm. apply Z.rem_mul. lia.
  - split; [exact C | lia].
Qed.

(** A decoded triangle with uv parameters for its three vertices, and a
    decoded quadrilateral of two triangles with uv parameters for its
    four. *)
Definition dracoTexturedTriangle : DracoMesh :=
  mkDracoMesh "triangle-list" (Some [0; 1; 2])
    (Some [0; 0; 0; 1; 0; 0; 0; 1; 0]%Q) None (Some [0; 0; 1; 0; 0; 1]%Q) None None.

Definition dracoTexturedQuad : DracoMesh :=
  mkDracoMesh "triangle-list" (Some [0; 1; 2; 0; 2; 3])
    (Some [0; 0; 0; 1; 0; 0; 1; 1; 0; 0; 1; 0]%Q) None
    (Some [0; 0; 1; 0; 1; 1; 0; 1]%Q) None None.

Lemma readDracoMeshPrimitive_triangle_loses_uvs :
  option_map dracoUvParams (dracoGeometry dracoTexturedTriangle false) = Some []
  /\ option_map dracoUvParams (dracoGeometry dracoTexturedQuad false)
     = Some [[Some 0; Some 0]; [Some 1; Some 0]; [Some 1; Some 1]; [Some 0; Some 1]]%Q.
Proof.
  split.
  - destruct (dracoGeometry dracoTexturedTriangle false) as [geometry|] eqn:E;
      [|discriminate E].
    cbn [option_map]. f_equal.
    exact (readDracoMeshPrimitive_uvs_by_vertex_parity dracoTexturedTriangle false
             geometry [0; 0; 1; 0; 0; 1]%Q 3 E eq_refl eq_refl).
  - reflexivity.
Defined.

(** The reader of the draco primitive after [resolveResources], with a
    loader that decodes the quad. *)
Definition dracoQuadReader : GltfReader :=
  resolveDracoMeshes (fun _ => Some dracoTexturedQuad) dracoDocumentReader.

Lemma readDracoMeshPrimitive_quad :
  readDracoMeshPrimitive symbolicSystem dracoQuadReader tt dracoExtension = (true, tt)
  /\ option_map dracoTriangles (dracoGeometry dracoTexturedQuad false)
     = Some [[Some 0; Some 1; Some 2]; [Some 0; Some 2; Some 3]].
Proof.
  split; [reflexivity|].
  destruct (readDracoMeshPrimitive_takes_whole_triangles symbolicSystem dracoQuadReader
              tt dracoExtension false tt eq_refl)
    as (draco & geometry & indices & pos & Hfind & Hg & _).
  injection Hfind as <-. rewrite Hg. injection Hg as <-. reflexivity.
Defined.

(** ** Indices read as numbers: [readIndices] *)

(** [protected readIndices(json, accessorName)]: the array of numbers, an
    element read past the end of the buffer being [undefined]. *)
Definition readIndices (r : GltfReader) (json : option (JsonObject GltfId))
    (accessorName : string) : Result (option (list (option Z))) :=
  data <- readBufferData32 r json accessorName ;;
  match data with
  | None => Return None
  | Some data =>
      Return (Some (map (nth_error (elementsOf (GltfBufferData.buffer data)))
                        (seq 0 (N.to_nat (GltfBufferData.count data)))))
  end.

(** The unsigned integers that bytes spell in little-endian order, for a
    component of one, two or four bytes. *)
Definition unsignedElements (dataSize : Z) (bytes : list Z) : list Z :=
  if dataSize =? 1 then bytes
  else if dataSize =? 2 then le16 bytes
  else le32 bytes.

Lemma le16_length (n : nat) :
  forall bs, List.length bs = (2 * n)%nat -> List.length (le16 bs) = n.
Proof.
  induction n as [|n IH]; intros bs H.
  - now destruct bs.
  - destruct bs as [|b0 [|b1 bs]]; cbn [List.length] in H; try lia.
    cbn [le16 List.length]. f_equal. apply IH. lia.
Qed.

Lemma le32_length (n : nat) :
  forall bs, List.length bs = (4 * n)%nat -> List.length (le32 bs) = n.
Proof.
  induction n as [|n IH]; intros bs H.
  - now destruct bs.
  - destruct bs as [|b0 [|b1 [|b2 [|b3 bs]]]]; cbn [List.length] in H; try lia.
    cbn [le32 List.length]. f_equal. apply IH. lia.
Qed.

Section IndicesRead.

Variable r : GltfReader.

(** Indices that are stored as unsigned integers, packed and inside their
    buffer, are read as the numbers their bytes spell in little-endian
    order, [count] of them, whatever the width they are stored with and
    wherever they begin in the buffer. *)
Theorem readIndices_decodes_the_accessor
    (json : option (JsonObject GltfId)) (accessorName : string)
    (accessor : GltfAccessor.t) (bufferView : GltfBufferViewProps.t)
    (bufferData : Uint8Array) (dataSize : Z) :
  accessorNamed r json accessorName = Some accessor ->
  bufferViewOf r accessor = Some bufferView ->
  resolvedBufferOf r bufferView = Some bufferData ->
  dataSizeOf (GltfAccessor.componentType accessor) = Some dataSize ->
  GltfAccessor.componentType accessor <> GltfDataType.Float ->
  strideInBytes bufferView accessor dataSize = dataSize ->
  let offset :=
    orZero (GltfBufferViewProps.byteOffset bufferView)
    + orZero (GltfAccessor.byteOffset accessor) in
  let length := dataSize * Z.of_N (GltfAccessor.count accessor) in
  0 <= offset ->
  offset + length <= byteLength bufferData ->
  let numbers :=
    unsignedElements dataSize
      (firstn (Z.to_nat length) (skipn (Z.to_nat offset) (octets bufferData))) in
  readIndices r json accessorName = Return (Some (map Some numbers))
  /\ List.length numbers = N.to_nat (GltfAccessor.count accessor).
Proof.
  intros Ha Hbv Hbuf Hsize Hfloat Hstride offset length Ho Hl numbers.
  destruct (getBufferView_try_resolved r json accessorName accessor bufferView bufferData
              dataSize Ha Hbv Hbuf Hsize) as (view & Hv & Hc & Ht & _ & _ & Hoct).
  destruct (getBufferView_try_byteOffset r json accessorName accessor bufferView bufferData
              dataSize Ha Hbv Hbuf Hsize) as (view' & Hv' & _ & Hoff).
  rewrite Hv in Hv'. injection Hv' as <-. cbv zeta in Hoff.
  fold offset in Hoff, Hoct. rewrite Hstride in Hoct. fold length in Hoct.
  assert (Hlen0 : 0 <= length) by (subst length; destruct (dataSizeOf_values _ _ Hsize)
                                     as [->|[->| ->]]; lia).
  destruct (bytesBetween_in_range bufferData offset length Ho Hlen0 Hl) as [Hb Hn].
  rewrite Hb in Hoct.
  rewrite relativeIndex_in_range in Hoff by lia.
  assert (Hal : Z.rem (byteOffset (GltfBufferView.data view)) dataSize = 0).
  { rewrite Hoff.
    destruct (Z.eqb_spec 0 (Z.rem (byteOffset bufferData + offset) dataSize)) as [E|_];
      [now symmetry | apply Z.rem_0_l].
    destruct (dataSizeOf_values _ _ Hsize) as [->|[->| ->]]; discriminate. }
  set (bytes := firstn (Z.to_nat length) (skipn (Z.to_nat offset) (octets bufferData))) in *.
  assert (Hcount : List.length numbers = N.to_nat (GltfAccessor.count accessor)).
  { subst numbers. unfold unsignedElements.
    assert (Hbl : Z.of_nat (List.length bytes)
                  = dataSize * Z.of_N (GltfAccessor.count accessor)) by exact Hn.
    destruct (dataSizeOf_values _ _ Hsize) as [->|[->| ->]]; cbn [Z.eqb Pos.eqb].
    - lia.
    - apply le16_length. lia.
    - apply le32_length. lia. }
  split; [|exact Hcount].
  unfold readIndices, readBufferData32, readBufferData, getBufferView. rewrite Hv.
  cbn [tryCatch bind].
  unfold GltfBufferView.toBufferData, GltfBufferData.create. rewrite Ht, Hc.
  assert (Hdata : exists wrap,
             GltfBufferData.createDataBuffer (GltfBufferView.data view)
               (GltfAccessor.componentType accessor)
             = Return (Some (wrap numbers))
             /\ (forall l, elementsOf (wrap l) = l)
             /\ negb (GltfDataType.UInt32 =? GltfAccessor.componentType accessor)
                && GltfBufferData.refusesMismatch (GltfAccessor.componentType accessor)
                     GltfDataType.UInt32 = false).
  { subst numbers. unfold GltfBufferData.createDataBuffer, typedArrayOver,
      GltfBufferData.refusesMismatch, unsignedElements. rewrite Hoct.
    unfold dataSizeOf in Hsize.
    destruct (Z.eqb_spec (GltfAccessor.componentType accessor) GltfDataType.UnsignedByte)
      as [E|_]; [rewrite E; injection Hsize as <-; exists Uint8Elements; now repeat split|].
    destruct (Z.eqb_spec (GltfAccessor.componentType accessor) GltfDataType.UnsignedShort)
      as [E|_];
      [rewrite E; injection Hsize as <-; rewrite Hal; exists Uint16Elements;
       now repeat split|].
    destruct (Z.eqb_spec (GltfAccessor.componentType accessor) GltfDataType.UInt32)
      as [E|_];
      [rewrite E; injection Hsize as <-; rewrite Hal; exists Uint32Elements;
       now repeat split|].
    destruct (Z.eqb_spec (GltfAccessor.componentType accessor) GltfDataType.Float)
      as [E|_]; [contradiction | discriminate]. }
  destruct Hdata as (wrap & -> & Hwrap & ->). cbn [bind option_map].
  cbn [GltfBufferData.buffer GltfBufferData.count]. rewrite Hwrap, <- Hcount.
  now rewrite map_nth_error_seq.
Qed.

End IndicesRead.

Lemma readIndices_three_shorts :
  readIndices oddOffsetReader (Some [("indices", IdNum 0)]) "indices"
  = Return (Some [Some 1; Some 2; Some 3]).
Proof.
  refine (proj1 (readIndices_decodes_the_accessor oddOffsetReader
                   (Some [("indices", IdNum 0)]) "indices"
                   (GltfAccessor.mk (Some (IdNum 0)) None GltfDataType.UnsignedShort 3
                      "SCALAR" None)
                   (GltfBufferViewProps.mk (Some (IdNum 0)) None (Some 1) None)
                   (mkUint8Array 0 [9; 1; 0; 2; 0; 3; 0]) 2
                   eq_refl eq_refl eq_refl eq_refl _ eq_refl _ _)).
  - discriminate.
  - cbn; lia.
  - cbn; lia.
Defined.

(** ** Geometry: [readGltfAndCreateGeometry] *)

(** The loop of [polyfaceFromGltfMesh] over the indices: each index is
    added to the facet that is open, and every third index terminates the
    facet.  The state is the list of the terminated facets and the facet
    that is open. *)
Definition addFacetIndex (st : list (list Z) * list Z * nat) (index : Z)
  : list (list Z) * list Z * nat :=
  let '(facets, open, j) := st in
  let open := open ++ [index] in
  let j := S j in
  if (j mod 3 =? 0)%nat then (facets ++ [open], [], j) else (facets, open, j).

Definition facetsOf (indexValues : list Z) : list (list Z) * list Z :=
  fst (fold_left addFacetIndex indexValues ([], [], 0%nat)).

Section Polyfaces.

Context {X : ExternalTypes} (sys : Collaborators X).

(** The points, normals and parameters of the geometry library, and what
    the reader asks of it to make them. *)
Variables Point3d OctNormal Point2d : Type.
Variable unquantize3 : QParams3d X -> list (option Z) -> Point3d.
Variable multiplyPoint3d : Transform X -> Point3d -> Point3d.
Variable decodeValue : Z -> OctNormal.
Variable unquantize2 : QParams2d X -> list (option Z) -> Point2d.

(** An [IndexedPolyface], by what the reader asks of it: the points, the
    normals and the parameters it adds, the point indices it has added
    before each [terminateFacet], and those it has added since the last.
    A normal index and a parameter index are added with every point index
    when the polyface was created with normals and with parameters. *)
Record IndexedPolyface : Type := mkIndexedPolyface {
  withNormals : bool;
  withParams : bool;
  polyfacePoints : list Point3d;
  polyfaceNormals : list OctNormal;
  polyfaceParams : list Point2d;
  terminatedFacets : list (list Z);
  openFacet : list Z
}.

(** [private polyfaceFromGltfMesh(mesh, transform, needNormals, needParams)] *)
Definition polyfaceFromGltfMesh (mesh : GltfMeshData X) (transform : option (Transform X))
    (needNormals needParams : bool) : option IndexedPolyface :=
  match pointQParams mesh, points mesh, indices mesh with
  | Some qParams, Some pts, Some meshIndices =>
      let includeNormals := needNormals && isSome (normals mesh) in
      let includeParams := needParams && isSome (uvQParams mesh) && isSome (uvs mesh) in
      let polyPoints :=
        map (fun xyz =>
               let point := unquantize3 qParams xyz in
               match transform with
               | Some t => multiplyPoint3d t point
               | None => point
               end)
            (strided 3 pts) in
      let polyNormals :=
        match normals mesh with
        | Some n => if includeNormals then map decodeValue n else []
        | None => []
        end in
      let polyParams :=
        match uvs mesh, uvQParams mesh with
        | Some uv, Some uvParams =>
            if includeParams then map (unquantize2 uvParams) (strided 2 uv) else []
        | _, _ => []
        end in
      let (facets, open) := facetsOf (elementsOf meshIndices) in
      Some (mkIndexedPolyface includeNormals includeParams polyPoints polyNormals
              polyParams facets open)
  | _, _, _ => None
  end.

(** What [readGltfAndCreateGeometry] and its node recursion share and
    change. *)
Record GeometryState : Type := mkGeometryState {
  polyfaces : list IndexedPolyface;
  geometryStack : @TransformStack X;
  geometryContentRange : option (Range3d X)
}.

(** [private readNodeAndCreatePolyfaces(polyfaces, node, transformStack,
    needNormals, needParams)]; [stackLimit] is the number of nested calls
    the call stack has room for, as in [readNodeAndCreateGraphics]. *)
Fixpoint readNodeAndCreatePolyfaces (stackLimit : nat) (r : GltfReader) (st : GeometryState)
    (node : GltfNode) (needNormals needParams : bool) : Fueled GeometryState :=
  match stackLimit with
  | O => Ran (Throw RangeError)
  | S deeper =>
      (* IMPORTANT: Do not return without popping this node from the stack. *)
      let pushed := TransformStack_push sys (geometryStack st) node in
      '(meshes, computed) <~
        readMeshPrimitives sys r (geometryContentRange st) node None None None ;;
      let made :=
        flat_map (fun mesh =>
                    match polyfaceFromGltfMesh mesh (TransformStack_transform pushed)
                            needNormals needParams with
                    | Some polyface => [polyface]
                    | None => []
                    end) meshes in
      let st1 := mkGeometryState (polyfaces st ++ made) pushed computed in
      match children node with
      | Some ch =>
          forEachFueled
            (fun st childId =>
               match dict_at (_nodes r) childId with
               | Some child =>
                   readNodeAndCreatePolyfaces deeper r st child needNormals needParams
               | None => Ran (Return st)
               end)
            ch st1
      | None => Ran (Return st1)
      end
  end.

(** [public readGltfAndCreateGeometry(transformToRoot, needNormals = false,
    needParams = false)]; [computed] is [_computedContentRange] as an
    earlier read may have left it.  The result is given with the transform
    stack as the call leaves it. *)
Definition readGltfAndCreateGeometry (stackLimit : nat) (r : GltfReader)
    (computed : option (Range3d X)) (transformToRoot : option (Transform X))
    (needNormals needParams : bool) : Fueled GeometryState :=
  let transformStack :=
    match getTileTransform sys r transformToRoot None with
    | Some transform => [Some transform]
    | None => []
    end in
  forEachFueled
    (fun st nodeKey =>
       match dict_at (_nodes r) nodeKey with
       | Some node =>
           readNodeAndCreatePolyfaces stackLimit r st node needNormals needParams
       | None => Ran (Return st)
       end)
    (_sceneNodes r) (mkGeometryState [] transformStack computed).

(** The second state has the polyfaces of the first and more, and its
    stack is the stack of the first with more on top. *)
Definition pushesOnly (st st' : GeometryState) : Prop :=
  (exists made, polyfaces st' = polyfaces st ++ made)
  /\ exists above, geometryStack st' = above ++ geometryStack st.

End Polyfaces.

Arguments withNormals {Point3d OctNormal Point2d} _.
Arguments withParams {Point3d OctNormal Point2d} _.
Arguments polyfacePoints {Point3d OctNormal Point2d} _.
Arguments polyfaceNormals {Point3d OctNormal Point2d} _.
Arguments polyfaceParams {Point3d OctNormal Point2d} _.
Arguments terminatedFacets {Point3d OctNormal Point2d} _.
Arguments openFacet {Point3d OctNormal Point2d} _.
Arguments polyfaces {X Point3d OctNormal Point2d} _.
Arguments geometryStack {X Point3d OctNormal Point2d} _.
Arguments geometryContentRange {X Point3d OctNormal Point2d} _.

Lemma mod3_after (q r : nat) : (r < 3)%nat -> ((r + 3 * q) mod 3 = r)%nat.
Proof.
  intro H. replace (r + 3 * q)%nat with (r + q * 3)%nat by lia.
  rewrite Nat.Div0.mod_add. now apply Nat.mod_small.
Qed.

Lemma addFacetIndex_open (facets : list (list Z)) (open : list Z) (q r : nat) (x : Z) :
  (r < 2)%nat ->
  addFacetIndex (facets, open, (r + 3 * q)%nat) x
  = (facets, open ++ [x], (S r + 3 * q)%nat).
Proof.
  intro H. unfold addFacetIndex.
  change (S (r + 3 * q)) with (S r + 3 * q)%nat.
  rewrite mod3_after by lia. now destruct r as [|[|r]]; [| |lia].
Qed.

Lemma addFacetIndex_terminates (facets : list (list Z)) (open : list Z) (q : nat) (x : Z) :
  addFacetIndex (facets, open, (2 + 3 * q)%nat) x
  = (facets ++ [open ++ [x]], [], (0 + 3 * S q)%nat).
Proof.
  unfold addFacetIndex.
  replace (S (2 + 3 * q)) with (0 + 3 * S q)%nat by lia.
  now rewrite mod3_after by lia.
Qed.

Lemma addFacetIndex_triangle (facets : list (list Z)) (q : nat) (a b c : Z)
    (rest : list Z) :
  fold_left addFacetIndex (a :: b :: c :: rest) (facets, [], (0 + 3 * q)%nat)
  = fold_left addFacetIndex rest (facets ++ [[a; b; c]], [], (0 + 3 * S q)%nat).
Proof.
  cbn [fold_left].
  rewrite (addFacetIndex_open facets [] q 0) by lia.
  rewrite (addFacetIndex_open facets _ q 1) by lia.
  now rewrite addFacetIndex_terminates.
Qed.

Lemma fold_addFacetIndex_groups (n : nat) :
  forall (l : list Z) (facets : list (list Z)) (q : nat),
    (List.length l <= n)%nat ->
    fst (fold_left addFacetIndex l (facets, [], (0 + 3 * q)%nat))
    = (facets ++ groupsOf (List.length l / 3) 3 l,
       skipn (3 * (List.length l / 3)) l).
Proof.
  induction n as [|n IH]; intros l facets q Hn.
  - destruct l; [|cbn in Hn; lia]. cbn. now rewrite app_nil_r.
  - destruct l as [|a [|b [|c rest]]].
    + cbn. now rewrite app_nil_r.
    + cbn [fold_left]. rewrite (addFacetIndex_open facets [] q 0) by lia.
      cbn. now rewrite app_nil_r.
    + cbn [fold_left]. rewrite (addFacetIndex_open facets [] q 0) by lia.
      rewrite (addFacetIndex_open facets _ q 1) by lia.
      cbn. now rewrite app_nil_r.
    + rewrite addFacetIndex_triangle. cbn [List.length] in *.
      rewrite IH by lia.
      replace (S (S (S (List.length rest))) / 3)%nat with (S (List.length rest / 3)).
      2:{ replace (S (S (S (List.length rest)))) with (List.length rest + 1 * 3)%nat by lia.
          rewrite Nat.div_add by lia. lia. }
      cbn [groupsOf List.length]. cbn [Nat.ltb Nat.leb firstn skipn].
      replace (3 * S (List.length rest / 3))%nat
        with (S (S (S (3 * (List.length rest / 3))))) by lia.
      cbn [skipn]. now rewrite <- app_assoc.
Qed.

Lemma facetsOf_groups (l : list Z) :
  facetsOf l = (groupsOf (List.length l / 3) 3 l, skipn (3 * (List.length l / 3)) l).
Proof.
  unfold facetsOf.
  exact (fold_addFacetIndex_groups (List.length l) l [] 0 (le_n _)).
Qed.

Lemma firstn_plus {A : Type} (m n : nat) :
  forall l : list A, firstn (m + n) l = firstn m l ++ firstn n (skipn m l).
Proof.
  induction m as [|m IH]; intro l; [reflexivity|].
  destruct l as [|a l]; cbn [Nat.add firstn skipn app].
  - now rewrite firstn_nil.
  - now rewrite IH.
Qed.

Lemma groupsOf_concat {A : Type} (m : nat) :
  (0 < m)%nat ->
  forall (k : nat) (l : list A),
    (m * k <= List.length l)%nat ->
    List.concat (groupsOf k m l) = firstn (m * k) l.
Proof.
  intros Hm k. induction k as [|k IH]; intros l Hl.
  - now rewrite Nat.mul_0_r.
  - cbn [groupsOf]. destruct (Nat.ltb_spec (List.length l) m); [nia|].
    cbn [List.concat]. rewrite IH by (rewrite length_skipn; nia).
    replace (m * S k)%nat with (m + m * k)%nat by lia.
    now rewrite firstn_plus.
Qed.

Section PolyfaceProperties.

Context {X : ExternalTypes} (sys : Collaborators X).
Variables Point3d OctNormal Point2d : Type.
Variable unquantize3 : QParams3d X -> list (option Z) -> Point3d.
Variable multiplyPoint3d : Transform X -> Point3d -> Point3d.
Variable decodeValue : Z -> OctNormal.
Variable unquantize2 : QParams2d X -> list (option Z) -> Point2d.

(** [polyfaceFromGltfMesh] makes a polyface of a mesh that has quantized
    points and indices, and of no other.  The facets it terminates are the
    indices of the mesh three by three, in order; one or two indices left
    over at the end stay in a facet that is never terminated; and the
    polyface has a point for every three coordinates of the mesh, a last
    point for a coordinate or two left over included. *)
Theorem polyfaceFromGltfMesh_facets_are_index_triples
    (mesh : GltfMeshData X) (transform : option (Transform X))
    (needNormals needParams : bool) :
  match pointQParams mesh, points mesh, indices mesh with
  | Some _, Some pts, Some meshIndices =>
      let n := List.length (elementsOf meshIndices) in
      exists polyface,
        polyfaceFromGltfMesh Point3d OctNormal Point2d unquantize3 multiplyPoint3d
          decodeValue unquantize2 mesh transform needNormals needParams = Some polyface
        /\ terminatedFacets polyface = groupsOf (n / 3) 3 (elementsOf meshIndices)
        /\ List.concat (terminatedFacets polyface) ++ openFacet polyface
           = elementsOf meshIndices
        /\ List.length (openFacet polyface) = (n mod 3)%nat
        /\ List.length (polyfacePoints polyface) = ((List.length pts + 2) / 3)%nat
  | _, _, _ => polyfaceFromGltfMesh Point3d OctNormal Point2d unquantize3 multiplyPoint3d
          decodeValue unquantize2 mesh transform needNormals needParams = None
  end.
Proof.
  unfold polyfaceFromGltfMesh.
  destruct (pointQParams mesh) as [qParams|]; [|reflexivity].
  destruct (points mesh) as [pts|]; [|reflexivity].
  destruct (indices mesh) as [meshIndices|]; [|reflexivity].
  cbv zeta. rewrite facetsOf_groups.
  set (l := elementsOf meshIndices). eexists. split; [reflexivity|].
  cbn [terminatedFacets openFacet polyfacePoints].
  split; [reflexivity|].
  pose proof (Nat.div_mod_eq (List.length l) 3) as Hdm.
  split; [|split].
  - rewrite (groupsOf_concat 3) by lia. apply firstn_skipn.
  - rewrite length_skipn. lia.
  - unfold strided. rewrite !length_map, length_seq. f_equal. lia.
Qed.

End PolyfaceProperties.

Section GeometryStack.

Context {X : ExternalTypes} (sys : Collaborators X).
Variables Point3d OctNormal Point2d : Type.
Variable unquantize3 : QParams3d X -> list (option Z) -> Point3d.
Variable multiplyPoint3d : Transform X -> Point3d -> Point3d.
Variable decodeValue : Z -> OctNormal.
Variable unquantize2 : QParams2d X -> list (option Z) -> Point2d.
Variable r : GltfReader.

Lemma pushesOnly_refl (st : @GeometryState X Point3d OctNormal Point2d) :
  pushesOnly Point3d OctNormal Point2d st st.
Proof. split; [exists []; now rewrite app_nil_r | now exists []]. Qed.

Lemma pushesOnly_trans (s1 s2 s3 : @GeometryState X Point3d OctNormal Point2d) :
  pushesOnly Point3d OctNormal Point2d s1 s2 ->
  pushesOnly Point3d OctNormal Point2d s2 s3 ->
  pushesOnly Point3d OctNormal Point2d s1 s3.
Proof.
  intros [[m1 P1] [a1 S1]] [[m2 P2] [a2 S2]]. split.
  - exists (m1 ++ m2). now rewrite P2, P1, app_assoc.
  - exists (a2 ++ a1). now rewrite S2, S1, app_assoc.
Qed.

Lemma TransformStack_push_cons (s : @TransformStack X) (node : GltfNode) :
  exists top, TransformStack_push sys s node = top :: s.
Proof. unfold TransformStack_push. destruct (TransformStack_transform s); eauto. Qed.

Lemma readNodeAndCreatePolyfaces_keeps_entry (stackLimit : nat) :
  forall (st st' : @GeometryState X Point3d OctNormal Point2d) node needNormals needParams,
    readNodeAndCreatePolyfaces sys Point3d OctNormal Point2d unquantize3 multiplyPoint3d
      decodeValue unquantize2 stackLimit r st node needNormals needParams
    = Ran (Return st') ->
    (exists made, polyfaces st' = polyfaces st ++ made)
    /\ (exists above,
          geometryStack st' = above ++ TransformStack_push sys (geometryStack st) node)
    /\ (children node = None ->
        geometryStack st' = TransformStack_push sys (geometryStack st) node).
Proof.
  induction stackLimit as [|fuel IH]; intros st st' node needNormals needParams H;
    [discriminate|].
  cbn [readNodeAndCreatePolyfaces] in H.
  destruct (readMeshPrimitives sys r (geometryContentRange st) node None None None)
    as [[[meshes computed]|e]|]; cbn [bindFueled] in H; try discriminate.
  destruct (children node) as [ch|].
  - apply (forEachFueled_related (pushesOnly Point3d OctNormal Point2d)) in H;
      [|exact pushesOnly_refl | exact pushesOnly_trans|].
    + destruct H as [[made P] [above S]]. cbn [polyfaces geometryStack] in P, S.
      split; [|split; [eauto | discriminate]].
      eexists. rewrite P, <- app_assoc. reflexivity.
    + intros s childId s' _ Hs.
      destruct (dict_at (_nodes r) childId) as [child|];
        [|injection Hs as <-; apply pushesOnly_refl].
      destruct (IH _ _ _ _ _ Hs) as (Hp & [above Ha] & _). split; [exact Hp|].
      destruct (TransformStack_push_cons (geometryStack s) child) as [top Ht].
      exists (above ++ [top]). now rewrite Ha, Ht, <- app_assoc.
  - injection H as <-. cbn [polyfaces geometryStack].
    split; [eauto|]. split; [now exists [] | reflexivity].
Qed.

(** The node recursion of [readGltfAndCreateGeometry] never pops the
    transform stack.  The entry it pushes for a node is on the stack when
    the node has been read, under the entries of the nodes read beneath it;
    the next node is read on top of them all, so that its transform is
    multiplied onto the transform of the node read before it and not onto
    that of its parent.  A childless node leaves exactly its own entry. *)
Theorem readNodeAndCreatePolyfaces_never_pops
    (stackLimit : nat) (st st' : @GeometryState X Point3d OctNormal Point2d)
    (node : GltfNode) (needNormals needParams : bool) :
  readNodeAndCreatePolyfaces sys Point3d OctNormal Point2d unquantize3 multiplyPoint3d
    decodeValue unquantize2 stackLimit r st node needNormals needParams
  = Ran (Return st') ->
  (exists made, polyfaces st' = polyfaces st ++ made)
  /\ (exists above,
        geometryStack st' = above ++ TransformStack_push sys (geometryStack st) node)
  /\ (children node = None ->
      geometryStack st' = TransformStack_push sys (geometryStack st) node)
  /\ TransformStack_isEmpty (geometryStack st') = false.
Proof.
  intro H. destruct (readNodeAndCreatePolyfaces_keeps_entry _ _ _ _ _ _ H)
    as (Hp & [above Ha] & Hleaf).
  split; [exact Hp|]. split; [eauto|]. split; [exact Hleaf|].
  rewrite Ha. destruct (TransformStack_push_cons (geometryStack st) node) as [top ->].
  now destruct above.
Qed.

End GeometryStack.

(** Two scene nodes without children, each with the decoded triangle for
    its mesh. *)
Definition siblingsReader : GltfReader :=
  resolveDracoMeshes triangleLoader
    (mkReader
       (GltfDocument.mk "0" (Some (jsonObject [("0", mkScene (Some [IdNum 0; IdNum 1]))]))
          (Some (jsonObject [("0", mkNode None [IdNum 0] None None None None);
                 ("1", mkNode None [IdNum 0] None None None None)]))
          (Some (jsonObject [("0", mkMesh (Some [dracoPrimitive]))]))
          None dracoBufferViews dracoBuffers None None None)
       2 false false false false true false []).

Lemma readGltfAndCreateGeometry_two_siblings :
  let readNode :=
    readNodeAndCreatePolyfaces symbolicSystem unit unit unit (fun _ _ => tt)
      (fun _ _ => tt) (fun _ => tt) (fun _ _ => tt) in
  let node := mkNode None [IdNum 0] None None None None in
  let st0 := @mkGeometryState symbolicTypes unit unit unit [] [] None in
  let st1 := @mkGeometryState symbolicTypes unit unit unit [] [None] None in
  readNode 1%nat siblingsReader st0 node false false = Ran (Return st1)
  /\ geometryStack st1 = TransformStack_push symbolicSystem (geometryStack st0) node
  /\ option_map (fun st => List.length (geometryStack st))
       (match readGltfAndCreateGeometry symbolicSystem unit unit unit (fun _ _ => tt)
                (fun _ _ => tt) (fun _ => tt) (fun _ _ => tt) 1 siblingsReader None None
                false false with
        | Ran (Return st) => Some st
        | _ => None
        end)
     = Some 2%nat.
Proof.
  cbv zeta. split; [reflexivity|]. split; [|reflexivity].
  refine (proj1 (proj2 (proj2
            (readNodeAndCreatePolyfaces_never_pops symbolicSystem unit unit unit
               (fun _ _ => tt) (fun _ _ => tt) (fun _ => tt) (fun _ _ => tt)
               siblingsReader 1
               (@mkGeometryState symbolicTypes unit unit unit [] [] None)
               (@mkGeometryState symbolicTypes unit unit unit [] [None] None)
               (mkNode None [IdNum 0] None None None None) false false eq_refl)))
            eq_refl).
Defined.

(** ** Textures: [getTextureType], [resolveTexture], [findTextureMapping] *)

(** Modelled from the spec: [enum GltfWrapMode], [GltfSampler], [GltfTexture]
    and [GltfImage] of GltfSchema.ts, which is not under src; the wrap modes
    are the WebGL constants, and each interface has the properties the
    reader looks at. *)
Module GltfWrapMode.
Definition ClampToEdge : Z := 33071.
Definition MirroredRepeat : Z := 33648.
Definition Repeat : Z := 10497.
End GltfWrapMode.

Record GltfSampler : Type := mkSampler {
  wrapS : option Z;
  wrapT : option Z
}.

#[export] Instance Blank_GltfSampler : Blank GltfSampler := mkSampler None None.

Record GltfTexture : Type := mkTexture {
  texture_source : option GltfId;
  texture_sampler : option GltfId
}.

#[export] Instance Blank_GltfTexture : Blank GltfTexture := mkTexture None None.

(** [RenderTexture.Type], as far as the reader makes textures. *)
Inductive RenderTextureType : Type :=
| TextureNormal
| TextureTileSection.

(** [public getTextureType(sampler?)]; [defaultWrapMode] is the public
    field of the reader. *)
Definition getTextureType (defaultWrapMode : Z) (sampler : option GltfSampler)
  : RenderTextureType :=
  let wrapS0 := match sampler with Some s => wrapS s | None => None end in
  let wrapT0 := match sampler with Some s => wrapT s | None => None end in
  let '(wrapS1, wrapT1) :=
    match wrapS0, wrapT0 with
    | None, None => (Some defaultWrapMode, Some defaultWrapMode)
    | _, _ => (wrapS0, wrapT0)
    end in
  let isClamp (w : option Z) :=
    match w with
    | Some mode => GltfWrapMode.ClampToEdge =? mode
    | None => false
    end in
  if isClamp wrapS1 || isClamp wrapT1 then TextureTileSection else TextureNormal.

(** The default wrap mode of the reader counts only for a texture whose
    sampler names no wrap mode at all, or that has no sampler: the type of
    a texture whose sampler names one does not depend on the default, and
    the direction such a sampler leaves out is not given the default
    either.  A texture is a tile section as soon as a direction its
    sampler names is clamped to the edge; and without any named direction
    it is one exactly when the default is to clamp. *)
Theorem getTextureType_default_for_silent_samplers
    (defaultWrapMode otherDefault : Z) (sampler : GltfSampler) :
  (isSome (wrapS sampler) || isSome (wrapT sampler) = true ->
   getTextureType defaultWrapMode (Some sampler)
   = getTextureType otherDefault (Some sampler))
  /\ (wrapS sampler = Some GltfWrapMode.ClampToEdge
      \/ wrapT sampler = Some GltfWrapMode.ClampToEdge ->
      getTextureType defaultWrapMode (Some sampler) = TextureTileSection)
  /\ (wrapS sampler = None -> wrapT sampler = None ->
      getTextureType defaultWrapMode (Some sampler) = getTextureType defaultWrapMode None)
  /\ (getTextureType defaultWrapMode None = TextureTileSection
      <-> defaultWrapMode = GltfWrapMode.ClampToEdge)
  /\ getTextureType GltfWrapMode.ClampToEdge (Some (mkSampler (Some GltfWrapMode.Repeat) None))
     = TextureNormal.
Proof.
  unfold getTextureType. split; [|split; [|split; [|split; [split|]]]].
  - destruct (wrapS sampler), (wrapT sampler); intro H; try reflexivity.
    discriminate H.
  - intros [-> | ->]; [destruct (wrapT sampler) | destruct (wrapS sampler)];
      cbn; rewrite ?Z.eqb_refl, ?orb_true_r; reflexivity.
  - intros -> ->. reflexivity.
  - destruct (Z.eqb_spec GltfWrapMode.ClampToEdge defaultWrapMode) as [E|_];
      intro H; [now symmetry | discriminate H].
  - intros ->. reflexivity.
  - reflexivity.
Qed.

Section Textures.

(** The image a glTF image was resolved to, and the texture the renderer
    makes of it. *)
Variables TextureImageSource RenderTexture : Type.

(** [GltfImage & { resolvedImage?: TextureImageSource }] *)
Record GltfImage : Type := mkImage {
  resolvedImage : option TextureImageSource
}.

#[local] Instance Blank_GltfImage : Blank GltfImage := mkImage None.

(** The dictionaries of the document the textures are resolved from. *)
Record TextureTables : Type := mkTextureTables {
  _textures : GltfDictionary GltfTexture;
  _images : GltfDictionary GltfImage;
  _samplers : GltfDictionary GltfSampler
}.

(** [interface TextureKey] *)
Definition TextureKey : Type := (string * bool)%type.

(** Modelled from the spec: [Dictionary] (core-bentley) is not under src.
    [_resolvedTextures] maps a key to a texture, or to [false] ([None]
    here) for a texture that could not be made; two keys are the same key
    when [compareTextureKeys] answers [0] for them: they have the same id
    and the same transparency. *)
Definition ResolvedTextures : Type := list (TextureKey * option RenderTexture).

Definition sameKey (a b : TextureKey) : bool :=
  String.eqb (fst a) (fst b) && Bool.eqb (snd a) (snd b).

Definition Dictionary_get (d : ResolvedTextures) (key : TextureKey)
  : option (option RenderTexture) :=
  option_map snd (find (fun kv => sameKey key (fst kv)) d).

Definition Dictionary_set (d : ResolvedTextures) (key : TextureKey)
    (value : option RenderTexture) : ResolvedTextures :=
  if isSome (Dictionary_get d key)
  then map (fun kv => if sameKey key (fst kv) then (fst kv, value) else kv) d
  else d ++ [(key, value)].

(** What the reader keeps between two calls: the textures it has resolved,
    and the arguments of the calls of [createTexture] it has made, the
    latest first. *)
Record TextureState : Type := mkTextureState {
  _resolvedTextures : ResolvedTextures;
  created : list (RenderTextureType * TextureImageSource * bool)
}.

Variable tables : TextureTables.
Variable defaultWrapMode : Z.

(** [RenderSystem.createTexture] for a type, an image and a transparency
    that is mixed ([true]) or opaque. *)
Variable createTexture : RenderTextureType -> TextureImageSource -> bool
                         -> option RenderTexture.

(** [private resolveTexture(textureId, isTransparent)] *)
Definition resolveTexture (st : TextureState) (textureId : string) (isTransparent : bool)
  : option RenderTexture * TextureState :=
  match lookup (_textures tables) textureId with
  | None => (None, st)
  | Some texture =>
      match texture_source texture with
      | None => (None, st)
      | Some source =>
          match (match dict_at (_images tables) source with
                 | Some image => resolvedImage image
                 | None => None
                 end) with
          | None => (None, st)
          | Some image =>
              let sampler :=
                match texture_sampler texture with
                | Some samplerId => dict_at (_samplers tables) samplerId
                | None => None
                end in
              let textureType := getTextureType defaultWrapMode sampler in
              (createTexture textureType image isTransparent,
               mkTextureState (_resolvedTextures st)
                 ((textureType, image, isTransparent) :: created st))
          end
      end
  end.

(** [TextureMapping.normalMapParams] *)
Record NormalMapParams : Type := mkNormalMapParams {
  normalMap : option RenderTexture;
  greenUp : bool
}.

(** A [TextureMapping]: its texture and its [normalMapParams]. *)
Record TextureMappingMade : Type := mkTextureMapping {
  mappingTexture : RenderTexture;
  normalMapParams : option NormalMapParams
}.

(** The texture of a key: the one in [_resolvedTextures], or the one
    [resolveTexture] makes, which is put there. *)
Definition resolvedOnce (st : TextureState) (id : string) (isTransparent : bool)
  : option RenderTexture * TextureState :=
  match Dictionary_get (_resolvedTextures st) (id, isTransparent) with
  | Some texture => (texture, st)
  | None =>
      let '(texture, st1) := resolveTexture st id isTransparent in
      (texture,
       mkTextureState (Dictionary_set (_resolvedTextures st1) (id, isTransparent) texture)
         (created st1))
  end.

(** [protected findTextureMapping(id, isTransparent, normalMapId)] *)
Definition findTextureMapping (st : TextureState) (id : option string)
    (isTransparent : bool) (normalMapId : option string)
  : option TextureMappingMade * TextureState :=
  match id, normalMapId with
  | None, None => (None, st)
  | _, _ =>
      let '(texture, st1) :=
        match id with
        | Some id => resolvedOnce st id isTransparent
        | None => (None, st)
        end in
      let '(normalMap0, st2) :=
        match normalMapId with
        | Some normalMapId => resolvedOnce st1 normalMapId false
        | None => (None, st1)
        end in
      let '(texture, nMap) :=
        match normalMap0 with
        | Some normalMapTexture =>
            match texture with
            | Some _ => (texture, Some (mkNormalMapParams (Some normalMapTexture) true))
            | None => (Some normalMapTexture, Some (mkNormalMapParams None true))
            end
        | None => (texture, None)
        end in
      match texture with
      | None => (None, st2)
      | Some texture => (Some (mkTextureMapping texture nMap), st2)
      end
  end.

End Textures.

Section TextureCache.

Variables TextureImageSource RenderTexture : Type.
Variable tables : TextureTables TextureImageSource.
Variable defaultWrapMode : Z.
Variable createTexture : RenderTextureType -> TextureImageSource -> bool
                         -> option RenderTexture.

Lemma sameKey_eq (a b : TextureKey) : sameKey a b = true <-> a = b.
Proof.
  unfold sameKey. destruct a as [ia ta], b as [ib tb]. cbn [fst snd].
  rewrite andb_true_iff, String.eqb_eq, Bool.eqb_true_iff.
  split; [intros [-> ->]; reflexivity | intro H; injection H; auto].
Qed.

Lemma sameKey_refl (a : TextureKey) : sameKey a a = true.
Proof. now apply sameKey_eq. Qed.

Lemma Dictionary_get_set (d : ResolvedTextures RenderTexture) (key : TextureKey)
    (value : option RenderTexture) :
  Dictionary_get RenderTexture d key = None ->
  Dictionary_get RenderTexture (Dictionary_set RenderTexture d key value) key = Some value.
Proof.
  intro Hnone. unfold Dictionary_set. rewrite Hnone. cbn [isSome].
  unfold Dictionary_get in *.
  induction d as [|[k v] d IH]; cbn [find app fst] in *.
  - now rewrite sameKey_refl.
  - destruct (sameKey key k); [discriminate Hnone | exact (IH Hnone)].
Qed.

Lemma Dictionary_get_kept (d : ResolvedTextures RenderTexture) (key other : TextureKey)
    (value cached : option RenderTexture) :
  Dictionary_get RenderTexture d key = None ->
  Dictionary_get RenderTexture d other = Some cached ->
  Dictionary_get RenderTexture (Dictionary_set RenderTexture d key value) other
  = Some cached.
Proof.
  intros Hnone Hother. unfold Dictionary_set. rewrite Hnone. cbn [isSome].
  unfold Dictionary_get in *.
  induction d as [|[k v] d IH]; cbn [find app fst] in *; [discriminate Hother|].
  destruct (sameKey other k); [exact Hother|].
  destruct (sameKey key k); [discriminate Hnone | exact (IH Hnone Hother)].
Qed.

Lemma resolveTexture_keeps_cache (st : TextureState TextureImageSource RenderTexture)
    (id : string) (isTransparent : bool) :
  _resolvedTextures _ _
    (snd (resolveTexture _ _ tables defaultWrapMode createTexture st id isTransparent))
  = _resolvedTextures _ _ st.
Proof.
  unfold resolveTexture.
  destruct (lookup _ id) as [texture|]; [|reflexivity].
  destruct (texture_source texture) as [source|]; [|reflexivity].
  destruct (match dict_at _ source with Some image => _ | None => None end);
    reflexivity.
Qed.

(** After a key was looked for, it is in the dictionary with the texture
    that was answered, and what was in the dictionary before is still. *)
Lemma resolvedOnce_cached (st : TextureState TextureImageSource RenderTexture)
    (id : string) (isTransparent : bool) :
  let result := resolvedOnce _ _ tables defaultWrapMode createTexture st id isTransparent in
  Dictionary_get _ (_resolvedTextures _ _ (snd result)) (id, isTransparent)
  = Some (fst result)
  /\ (forall other cached,
        Dictionary_get _ (_resolvedTextures _ _ st) other = Some cached ->
        Dictionary_get _ (_resolvedTextures _ _ (snd result)) other = Some cached)
  /\ (forall cached,
        Dictionary_get _ (_resolvedTextures _ _ st) (id, isTransparent) = Some cached ->
        result = (cached, st)).
Proof.
  cbv zeta. unfold resolvedOnce.
  destruct (Dictionary_get _ (_resolvedTextures _ _ st) (id, isTransparent))
    as [texture|] eqn:Hget.
  - cbn [fst snd]. split; [exact Hget|]. split; [auto|].
    intros cached H. now injection H as <-.
  - pose proof (resolveTexture_keeps_cache st id isTransparent) as Hkeep.
    destruct (resolveTexture _ _ tables defaultWrapMode createTexture st id isTransparent)
      as [texture st1].
    cbn [fst snd _resolvedTextures] in *. rewrite Hkeep.
    split; [now apply Dictionary_get_set|]. split; [|discriminate].
    intros other cached Hother. now apply Dictionary_get_kept.
Qed.

(** [findTextureMapping] resolves a texture once.  A call leaves in
    [_resolvedTextures] the texture and the normal map it was asked for,
    those that could not be made included; the same call made again
    answers the same mapping, changes nothing in the dictionary and asks
    the renderer for no texture. *)
Theorem findTextureMapping_resolves_each_texture_once
    (st : TextureState TextureImageSource RenderTexture) (id : option string)
    (isTransparent : bool) (normalMapId : option string) :
  let first :=
    findTextureMapping _ _ tables defaultWrapMode createTexture st id isTransparent
      normalMapId in
  findTextureMapping _ _ tables defaultWrapMode createTexture (snd first) id isTransparent
    normalMapId
  = first
  /\ (forall textureId, id = Some textureId ->
        isSome (Dictionary_get _ (_resolvedTextures _ _ (snd first))
                  (textureId, isTransparent)) = true)
  /\ (forall textureId, normalMapId = Some textureId ->
        isSome (Dictionary_get _ (_resolvedTextures _ _ (snd first)) (textureId, false))
        = true).
Proof.
  cbv zeta. unfold findTextureMapping.
  destruct id as [id|], normalMapId as [normalMapId|].
  - pose proof (resolvedOnce_cached st id isTransparent) as (C1 & K1 & _).
    destruct (resolvedOnce _ _ tables defaultWrapMode createTexture st id isTransparent)
      as [texture st1]. cbn [fst snd] in *.
    pose proof (resolvedOnce_cached st1 normalMapId false) as (C2 & K2 & _).
    destruct (resolvedOnce _ _ tables defaultWrapMode createTexture st1 normalMapId false)
      as [normalMap0 st2]. cbn [fst snd] in *.
    pose proof (K2 _ _ C1) as C1'.
    pose proof (resolvedOnce_cached st2 id isTransparent) as (_ & _ & R1).
    pose proof (resolvedOnce_cached st2 normalMapId false) as (_ & _ & R2).
    cbv zeta in R1, R2. specialize (R1 _ C1'). specialize (R2 _ C2).
    assert (Hst : forall m : option (TextureMappingMade RenderTexture),
               snd (m, st2) = st2) by reflexivity.
    destruct normalMap0 as [n|], texture as [t|]; cbn [snd];
      rewrite R1, R2; (split; [reflexivity|]);
      (split; intros textureId E; injection E as <-);
      try (now rewrite C1'); now rewrite C2.
  - pose proof (resolvedOnce_cached st id isTransparent) as (C1 & K1 & _).
    destruct (resolvedOnce _ _ tables defaultWrapMode createTexture st id isTransparent)
      as [texture st1]. cbn [fst snd] in *.
    pose proof (resolvedOnce_cached st1 id isTransparent) as (_ & _ & R1).
    cbv zeta in R1. specialize (R1 _ C1).
    destruct texture as [t|]; cbn [snd]; rewrite R1; (split; [reflexivity|]);
      (split; intros textureId E; [injection E as <-; now rewrite C1 | discriminate E]).
  - pose proof (resolvedOnce_cached st normalMapId false) as (C2 & K2 & _).
    destruct (resolvedOnce _ _ tables defaultWrapMode createTexture st normalMapId false)
      as [normalMap0 st2]. cbn [fst snd] in *.
    pose proof (resolvedOnce_cached st2 normalMapId false) as (_ & _ & R2).
    cbv zeta in R2. specialize (R2 _ C2).
    destruct normalMap0 as [n|]; cbn [snd]; rewrite R2; (split; [reflexivity|]);
      (split; intros textureId E; [discriminate E | injection E as <-; now rewrite C2]).
  - cbn [snd]. split; [reflexivity|]. split; intros textureId E; discriminate E.
Qed.

End TextureCache.
